(** * TournamentSimulation: the simulation and ranking engine of [main.js]

    A shallow embedding of the functions of [src/main.js] and the
    properties of them stated in the specification.

    Conventions of the embedding.

    - A JavaScript number is a [number]: an exact rational, or [NaN].
      Arithmetic is exact: the rounding of binary64 arithmetic, the
      infinities and the sign of zero are outside the model.  Every
      division of the source has a non-zero literal as divisor.
    - [undefined] is [None] of an [option]; reading a property of
      [undefined] raises [TypeError].
    - A JavaScript object iterated with [for ... in] is an association
      list in insertion order (its keys, group letters and ISO codes, are
      not array indices); the form table, only read and written by key,
      is a [gmap].
    - [Math.random] is a sequence [nat -> Q] of draws with a cursor in the
      state; [Math.pow] is a parameter of the development (ECMAScript
      leaves its value implementation-approximated). *)

From Stdlib Require Import QArith Qround Qabs Qpower ZArith Lia Lqa Ascii String.
From Stdlib Require Import Sorted Permutation.
From stdpp Require Import gmap strings list.

Open Scope Q_scope.

(** ** Numbers *)

Inductive number : Type :=
| Num (q : Q)
| NaN.

Declare Scope js_scope.
Delimit Scope js_scope with js.
Bind Scope js_scope with number.

(** The same JavaScript value: rationals up to [Qeq]. *)
Definition number_eq (x y : number) : Prop :=
  match x, y with
  | Num a, Num b => a == b
  | NaN, NaN => True
  | _, _ => False
  end.

Definition isFinite (x : number) : bool :=
  match x with Num _ => true | NaN => false end.

Definition lift2 (f : Q -> Q -> Q) (x y : number) : number :=
  match x, y with
  | Num a, Num b => Num (f a b)
  | _, _ => NaN
  end.

Definition nadd : number -> number -> number := lift2 Qplus.
Definition nsub : number -> number -> number := lift2 Qminus.
Definition nmul : number -> number -> number := lift2 Qmult.

(** [x / y]; the divisors of the source are non-zero literals. *)
Definition ndiv (x y : number) : number :=
  match x, y with
  | Num a, Num b => if Qeq_bool b 0 then NaN else Num (a / b)
  | _, _ => NaN
  end.

Definition Qltb (a b : Q) : bool :=
  match a ?= b with Lt => true | _ => false end.

(** Relational operators: every comparison with [NaN] is [false]. *)
Definition nlt (x y : number) : bool :=
  match x, y with
  | Num a, Num b => Qltb a b
  | _, _ => false
  end.

Definition ngt (x y : number) : bool := nlt y x.

Definition nge (x y : number) : bool :=
  match x, y with
  | Num a, Num b => Qle_bool b a
  | _, _ => false
  end.

(** [x === y] on numbers. *)
Definition nseq (x y : number) : bool :=
  match x, y with
  | Num a, Num b => Qeq_bool a b
  | _, _ => false
  end.

(** ToBoolean on numbers: [0] and [NaN] are falsy. *)
Definition truthy (x : number) : bool :=
  match x with
  | Num a => negb (Qeq_bool a 0)
  | NaN => false
  end.

(** [x || y] *)
Definition nor (x y : number) : number := if truthy x then x else y.

Infix "+" := nadd : js_scope.
Infix "-" := nsub : js_scope.
Infix "*" := nmul : js_scope.
Infix "/" := ndiv : js_scope.
Infix "<?" := nlt (at level 70) : js_scope.
Infix ">?" := ngt (at level 70) : js_scope.
Infix ">=?" := nge (at level 70) : js_scope.
Infix "===" := nseq (at level 70) : js_scope.
Infix "||" := nor : js_scope.
Infix "≈" := number_eq (at level 70) : js_scope.

Definition Math_abs (x : number) : number :=
  match x with Num a => Num (Qabs a) | NaN => NaN end.

Definition Math_floor (x : number) : number :=
  match x with Num a => Num (inject_Z (Qfloor a)) | NaN => NaN end.

(** [Math.round]: the nearest integer, a tie going up. *)
Definition Math_round (x : number) : number :=
  match x with Num a => Num (inject_Z (Qfloor (a + (1 # 2)))) | NaN => NaN end.

(** ToNumber of a possibly undefined number: [undefined] becomes [NaN]. *)
Definition ToNumber (v : option number) : number :=
  match v with Some x => x | None => NaN end.

Definition undefined {A : Type} : option A := None.

(** ** The expected-margin model *)

Section ExpectedMargin.

(** [Math.pow] of the host. *)
Variable Math_pow : number -> number -> number.

Definition expectedPointDiff (rankHome rankAway score1 score2 : number) : number :=
  let actualPointDiff :=
    if (rankHome <? rankAway)%js then (score1 - score2)%js else (score2 - score1)%js in
  let rankDiff := Math_abs (rankHome - rankAway)%js in
  let baseDiff := Num 4 in
  let maxDiff := Num 30 in
  let scalingFactor := Num (3 # 2) in
  let pointDiff :=
    (baseDiff + (maxDiff - baseDiff) * Math_pow (rankDiff / Num 30) scalingFactor)%js in
  let margin : option number := undefined in
  if (rankDiff >? Num 10)%js then
    if (actualPointDiff >=? ToNumber margin)%js then
      let margin := (actualPointDiff / Num 3)%js in
      Math_round margin
    else Num 0
  else
    let margin := ((actualPointDiff - pointDiff) / Num 3)%js in
    Math_round margin.

End ExpectedMargin.

(** ** Strings, objects and exceptions *)

(** [s.split(sep)] for a one-character separator: never empty. *)
Fixpoint split (sep : ascii) (s : string) : list string :=
  match s with
  | EmptyString => [EmptyString]
  | String c s' =>
      if Ascii.eqb c sep then EmptyString :: split sep s'
      else match split sep s' with
           | [] => [String c EmptyString]
           | p :: ps => String c p :: ps
           end
  end.

Definition digit (c : ascii) : option Z :=
  let n := Z.of_nat (nat_of_ascii c) in
  if ((48 <=? n) && (n <=? 57))%Z then Some (n - 48)%Z else None.

Fixpoint parseDigits (acc : Z) (s : string) : option Z :=
  match s with
  | EmptyString => Some acc
  | String c s' =>
      match digit c with
      | Some d => parseDigits (10 * acc + d) s'
      | None => None
      end
  end.

(** [Number(s)] on the strings of the exhibition data: the empty string is
    [0], a string of decimal digits is its value, and a string with any
    other character is [NaN] here.  (The host also reads signs, fractions,
    exponents, radix prefixes, surrounding white space and [Infinity];
    none of them is the [<int>-<int>] format of the data.) *)
Definition Number (s : string) : number :=
  match parseDigits 0 s with
  | Some z => Num (inject_Z z)
  | None => NaN
  end.

(** An object with string keys, in property order. *)
Definition object (A : Type) : Type := list (string * A).

(** [o[k]] *)
Fixpoint obj_get {A : Type} (o : object A) (k : string) : option A :=
  match o with
  | [] => None
  | (k', v) :: o' => if String.eqb k' k then Some v else obj_get o' k
  end.

(** [o[k] = v]: an existing property keeps its place, a new one goes last. *)
Fixpoint obj_set {A : Type} (o : object A) (k : string) (v : A) : object A :=
  match o with
  | [] => [(k, v)]
  | (k', v') :: o' =>
      if String.eqb k' k then (k', v) :: o' else (k', v') :: obj_set o' k v
  end.

Inductive error : Type := TypeError.

Inductive result (A : Type) : Type :=
| Ok (a : A)
| Throw (e : error).

Arguments Ok {A} a.
Arguments Throw {A} e.

Definition bindR {A B : Type} (r : result A) (k : A -> result B) : result B :=
  match r with
  | Ok a => k a
  | Throw e => Throw e
  end.

(** Reading a property of [v]: a [TypeError] when [v] is [undefined]. *)
Definition defined {A : Type} (v : option A) : result A :=
  match v with
  | Some a => Ok a
  | None => Throw TypeError
  end.

Declare Scope result_scope.
Delimit Scope result_scope with result.
Notation "x <- c ;; k" := (bindR c (fun x => k))
  (at level 100, c at next level, right associativity) : result_scope.

(** [arr.reduce(f)] with no initial value. *)
Definition reduce1 {A : Type} (f : A -> A -> A) (arr : list A) : result A :=
  match arr with
  | [] => Throw TypeError
  | x :: xs => Ok (fold_left f xs x)
  end.

(** [arr.find(p)], as the position of the object found. *)
Fixpoint findIndex {A : Type} (p : A -> bool) (arr : list A) : option nat :=
  match arr with
  | [] => None
  | x :: xs => if p x then Some 0%nat else option_map S (findIndex p xs)
  end.

(** ** Data model *)

Record TeamRecord : Type := {
  Team : string;
  ISOCode : string;
  FIBARanking : number
}.

(** An exhibition match; its [Date] is never read. *)
Record ExhibitionMatch : Type := {
  Opponent : string;
  Result : string
}.

(** A team with its accumulating form: [{ ...groupTeam, form: 0 }]. *)
Record TeamRanking : Type := {
  ranked :> TeamRecord;
  form : number
}.

(** The object returned by [simulateMatch]: [{ team1, team2 }]. *)
Module MatchScore.
Record t : Type := {
  team1 : number;
  team2 : number
}.
End MatchScore.
Abbreviation MatchScore := MatchScore.t.

(** A group match result: [{ team1, team2, score1, score2 }], the two team
    names under [name1] and [name2]. *)
Record GroupMatch : Type := {
  name1 : string;
  name2 : string;
  score1 : number;
  score2 : number
}.

(** A standings entry: [{ ...team, points, scored, allowed, wins, losses }]. *)
Record Standing : Type := {
  entry :> TeamRecord;
  points : number;
  scored : number;
  allowed : number;
  wins : number;
  losses : number
}.

(** An element of the elimination results: [{ match, result }]. *)
Record EliminationMatch : Type := {
  pairing : option Standing * option Standing;
  outcome : MatchScore
}.

Record EliminationResults : Type := {
  quarterfinals : list EliminationMatch;
  semifinals : list EliminationMatch;
  finals : list EliminationMatch;
  bronze : list EliminationMatch
}.

(** [arr.forEach] and [for ... of] with a body that may throw. *)
Fixpoint foldM {A B : Type} (body : B -> A -> result B) (arr : list A) (b : B) : result B :=
  match arr with
  | [] => Ok b
  | a :: arr' => bindR (body b a) (foldM body arr')
  end.

(** ** State: the form table and the random source *)

Record State : Type := {
  teamForm : gmap string number;
  draws : nat
}.

Definition M (A : Type) : Type := State -> result (A * State).

Definition ret {A : Type} (a : A) : M A := fun st => Ok (a, st).

Definition bind {A B : Type} (c : M A) (k : A -> M B) : M B :=
  fun st =>
    match c st with
    | Ok (a, st') => k a st'
    | Throw e => Throw e
    end.

Definition liftR {A : Type} (r : result A) : M A :=
  fun st =>
    match r with
    | Ok a => Ok (a, st)
    | Throw e => Throw e
    end.

Definition readForm : M (gmap string number) := fun st => Ok (teamForm st, st).

Definition modifyForm (f : gmap string number -> gmap string number) : M unit :=
  fun st => Ok (tt, {| teamForm := f (teamForm st); draws := draws st |}).

Declare Scope state_scope.
Delimit Scope state_scope with state.
Notation "x <- c ;; k" := (bind c (fun x => k))
  (at level 100, c at next level, right associativity) : state_scope.
Notation "c ;;; k" := (bind c (fun _ => k))
  (at level 100, k at level 200, right associativity) : state_scope.

Fixpoint forM {A B : Type} (body : B -> A -> M B) (arr : list A) (b : B) : M B :=
  match arr with
  | [] => ret b
  | a :: arr' => bind (body b a) (forM body arr')
  end.

(** ** Array.prototype.sort

    The host sorts stably and, for a consistent comparator, into the
    order of the comparator; the algorithm is its own.  The model is the
    stable insertion sort, on the number the comparator returns ([NaN]
    counts as [0]); an [undefined] element goes last and never reaches the
    comparator. *)

Fixpoint insertSorted {A : Type} (cmp : A -> A -> Q) (x : A) (arr : list A) : list A :=
  match arr with
  | [] => [x]
  | y :: arr' =>
      if Qle_bool (cmp x y) 0 then x :: y :: arr' else y :: insertSorted cmp x arr'
  end.

Definition stableSort {A : Type} (cmp : A -> A -> Q) (arr : list A) : list A :=
  fold_right (insertSorted cmp) [] arr.

Definition compareValue {A : Type} (comparefn : A -> A -> number) (a b : A) : Q :=
  match comparefn a b with
  | Num v => v
  | NaN => 0
  end.

Definition SortCompare {A : Type} (comparefn : A -> A -> number) (x y : option A) : Q :=
  match x, y with
  | None, None => 0
  | None, Some _ => 1
  | Some _, None => -1
  | Some a, Some b => compareValue comparefn a b
  end.

(** [arr.sort(comparefn)] on an array of objects. *)
Definition sort {A : Type} (comparefn : A -> A -> number) (arr : list A) : list A :=
  stableSort (compareValue comparefn) arr.

(** [arr.sort(comparefn)] on an array whose elements may be [undefined]. *)
Definition sortValues {A : Type} (comparefn : A -> A -> number) (arr : list (option A))
  : list (option A) :=
  stableSort (SortCompare comparefn) arr.

(** ** Updates of a standings entry *)

Definition addScored (x : number) (t : Standing) : Standing :=
  {| entry := entry t; points := points t; scored := (scored t + x)%js;
     allowed := allowed t; wins := wins t; losses := losses t |}.

Definition addAllowed (x : number) (t : Standing) : Standing :=
  {| entry := entry t; points := points t; scored := scored t;
     allowed := (allowed t + x)%js; wins := wins t; losses := losses t |}.

Definition addPoints (x : number) (t : Standing) : Standing :=
  {| entry := entry t; points := (points t + x)%js; scored := scored t;
     allowed := allowed t; wins := wins t; losses := losses t |}.

Definition addWins (x : number) (t : Standing) : Standing :=
  {| entry := entry t; points := points t; scored := scored t;
     allowed := allowed t; wins := (wins t + x)%js; losses := losses t |}.

Definition addLosses (x : number) (t : Standing) : Standing :=
  {| entry := entry t; points := points t; scored := scored t;
     allowed := allowed t; wins := wins t; losses := (losses t + x)%js |}.

(** The comparator of both sorts: points, then scored minus allowed. *)
Definition byPointsThenDifference (a b : Standing) : number :=
  ((points b - points a) || ((scored b - allowed b) - (scored a - allowed a)))%js.

(** ** The functions of [main.js] *)

Section Tournament.

Variable Math_pow : number -> number -> number.

(** The parsed contents of [groups.json] and [exhibitions.json]. *)
Variable groups : object (list TeamRecord).
Variable exhibitions : object (list ExhibitionMatch).

(** The successive values of [Math.random()]. *)
Variable random : nat -> Q.

Definition Math_random : M number :=
  fun st => Ok (Num (random (draws st)),
                {| teamForm := teamForm st; draws := S (draws st) |}).

Definition hasCode (code : string) (t : TeamRanking) : bool :=
  String.eqb (ISOCode t) code.

(** [t.form += pointDiff] on the object at position [i]. *)
Definition addForm (i : nat) (pointDiff : number) (teamRankings : list TeamRanking)
  : list TeamRanking :=
  alter (fun t => {| ranked := ranked t; form := (form t + pointDiff)%js |}) i teamRankings.

(** The body of [exhibitions[team].forEach]. *)
Definition seedMatch (rankHome : number) (home : nat)
  (teamRankings : list TeamRanking) (m : ExhibitionMatch) : result (list TeamRanking) :=
  (away <- defined (findIndex (hasCode (Opponent m)) teamRankings);;
   awayTeam <- defined (teamRankings !! away);;
   let rankAway := FIBARanking (ranked awayTeam) in
   let scores := map Number (split "-" (Result m)) in
   let score1 := ToNumber (scores !! 0%nat) in
   let score2 := ToNumber (scores !! 1%nat) in
   let pointDiff := expectedPointDiff Math_pow rankHome rankAway score1 score2 in
   Ok (if (rankHome <? rankAway)%js
       then addForm home pointDiff teamRankings
       else addForm away pointDiff teamRankings))%result.

(** The body of [for (const team in exhibitions)]. *)
Definition seedTeam (exhibitions : object (list ExhibitionMatch))
  (teamRankings : list TeamRanking) (team : string) : result (list TeamRanking) :=
  (home <- defined (findIndex (hasCode team) teamRankings);;
   homeTeam <- defined (teamRankings !! home);;
   let rankHome := FIBARanking (ranked homeTeam) in
   matches <- defined (obj_get exhibitions team);;
   foldM (seedMatch rankHome home) matches teamRankings)%result.

Definition getInitialForms (exhibitions : object (list ExhibitionMatch))
  : result (gmap string number) :=
  let teamRankings :=
    fold_left
      (fun acc groupTeams =>
         acc ++ map (fun groupTeam => {| ranked := groupTeam; form := Num 0 |}) groupTeams)
      (map snd groups) [] in
  (teamRankings <- foldM (seedTeam exhibitions) (map fst exhibitions) teamRankings;;
   let form :=
     fold_left (fun acc (team : TeamRanking) => <[ISOCode team := form team]> acc)
       teamRankings ∅ in
   Ok form)%result.

Definition getTotalPointsForTeam (team : string) : result number :=
  (matches <- defined (obj_get exhibitions team);;
   foldM
     (fun acc m =>
        pointsInMatch <- reduce1 nadd (map Number (split "-" (Result m)));;
        Ok (acc + Math_floor (pointsInMatch / Num 2))%js)
     matches (Num 0))%result.

Definition getBaseScore (team1 team2 : string) : result number :=
  (total1 <- getTotalPointsForTeam team1;;
   total2 <- getTotalPointsForTeam team2;;
   Ok (Math_floor ((total1 + total2) / Num 4) - Num 6)%js)%result.

Definition updateTeamForm (team1 team2 : TeamRecord) (score1 score2 : number)
  (teamForm : gmap string number) : gmap string number :=
  let formFactor := Num (7 # 100) in
  let teamForm :=
    <[ISOCode team1 :=
        (ToNumber (teamForm !! ISOCode team1) * (Num 1 - formFactor)
         + (score1 - score2) * formFactor)%js]> teamForm in
  <[ISOCode team2 :=
      (ToNumber (teamForm !! ISOCode team2) * (Num 1 - formFactor)
       + (score2 - score1) * formFactor)%js]> teamForm.

(** The two scores of [simulateMatch] before [Math.round], from the three
    values of [Math.random()] in the order they are drawn. *)
Definition unroundedScores (team1 team2 : TeamRecord) (teamForm : gmap string number)
  (baseScore r0 r1 r2 : number) : number * number :=
  let rankDiff := ((FIBARanking team2 - FIBARanking team1) * Num (65 # 100))%js in
  let formDiff :=
    ((ToNumber (teamForm !! ISOCode team1) - ToNumber (teamForm !! ISOCode team2))
     * Num (35 # 100))%js in
  let randomFactor := (r0 * Num 10 - Num 4)%js in
  let score1 :=
    (Math_floor (r1 * Num 15) + baseScore + rankDiff + formDiff + randomFactor)%js in
  let score2 :=
    (Math_floor (r2 * Num 15) + baseScore - rankDiff - formDiff - randomFactor)%js in
  (score1, score2).

Definition simulateMatch (team1 team2 : option TeamRecord) : M MatchScore :=
  (t2 <- liftR (defined team2);;
   t1 <- liftR (defined team1);;
   teamForm <- readForm;;
   baseScore <- liftR (getBaseScore (ISOCode t1) (ISOCode t2));;
   r0 <- Math_random;;
   r1 <- Math_random;;
   r2 <- Math_random;;
   let '(score1, score2) := unroundedScores t1 t2 teamForm baseScore r0 r1 r2 in
   let result :=
     {| MatchScore.team1 := Math_round score1; MatchScore.team2 := Math_round score2 |} in
   modifyForm
     (updateTeamForm t1 t2 (MatchScore.team1 result) (MatchScore.team2 result));;;
   ret result)%state.

(** The object pushed for a played match. *)
Definition groupMatch (t1 t2 : TeamRecord) (matchResult : MatchScore) : GroupMatch :=
  {| name1 := Team t1;
     name2 := Team t2;
     score1 := MatchScore.team1 matchResult;
     score2 := MatchScore.team2 matchResult |}.

(** The body of [for (const match of round)]. *)
Definition playMatch (group : string) (results : object (list GroupMatch))
  (match_ : option TeamRecord * option TeamRecord) : M (object (list GroupMatch)) :=
  (matchResult <- simulateMatch (fst match_) (snd match_);;
   t1 <- liftR (defined (fst match_));;
   t2 <- liftR (defined (snd match_));;
   played <- liftR (defined (obj_get results group));;
   ret (obj_set results group (played ++ [ groupMatch t1 t2 matchResult ])))%state.

(** The body of [for (const group in groups)] in [createRoundRobin]. *)
Definition roundRobinGroup (groups : object (list TeamRecord))
  (results : object (list GroupMatch)) (group : string) : M (object (list GroupMatch)) :=
  let results := obj_set results group [] in
  (teams <- liftR (defined (obj_get groups group));;
   let rounds :=
     [ [ (teams !! 0%nat, teams !! 1%nat); (teams !! 2%nat, teams !! 3%nat) ];
       [ (teams !! 0%nat, teams !! 2%nat); (teams !! 1%nat, teams !! 3%nat) ];
       [ (teams !! 0%nat, teams !! 3%nat); (teams !! 1%nat, teams !! 2%nat) ] ] in
   forM (fun results round => forM (playMatch group) round results) rounds results)%state.

Definition createRoundRobin (groups : object (list TeamRecord))
  : M (object (list GroupMatch)) :=
  forM (roundRobinGroup groups) (map fst groups) [].

Definition named (name : string) (t : Standing) : bool := String.eqb (Team t) name.

Definition processTeamOneWin (i1 i2 : nat) (teams : list Standing) : list Standing :=
  let teams := alter (addPoints (Num 2)) i1 teams in
  let teams := alter (addWins (Num 1)) i1 teams in
  alter (addLosses (Num 1)) i2 teams.

Definition processTeamTwoWin (i1 i2 : nat) (teams : list Standing) : list Standing :=
  let teams := alter (addPoints (Num 2)) i2 teams in
  let teams := alter (addWins (Num 1)) i2 teams in
  alter (addLosses (Num 1)) i1 teams.

(** The body of [results[group].forEach] in [rankTeams]; [i1] and [i2] are
    the positions of the objects [team1] and [team2]. *)
Definition countMatch (teams : list Standing) (m : GroupMatch) : result (list Standing) :=
  (i1 <- defined (findIndex (named (name1 m)) teams);;
   i2 <- defined (findIndex (named (name2 m)) teams);;
   let teams := alter (addScored (score1 m)) i1 teams in
   let teams := alter (addAllowed (score2 m)) i1 teams in
   let teams := alter (addScored (score2 m)) i2 teams in
   let teams := alter (addAllowed (score1 m)) i2 teams in
   a <- defined (teams !! i1);;
   b <- defined (teams !! i2);;
   let teams :=
     if (scored a === scored b)%js then
       if (FIBARanking (entry a) <? FIBARanking (entry b))%js
       then alter (addScored (Num 1)) i1 teams
       else alter (addScored (Num 1)) i2 teams
     else teams in
   Ok (if (score1 m >? score2 m)%js
       then processTeamOneWin i1 i2 teams
       else processTeamTwoWin i1 i2 teams))%result.

(** The object a team starts the standings with. *)
Definition newStanding (team : TeamRecord) : Standing :=
  {| entry := team; points := Num 0; scored := Num 0; allowed := Num 0;
     wins := Num 0; losses := Num 0 |}.

(** The body of [for (const group in groups)] in [rankTeams]. *)
Definition rankGroup (groups : object (list TeamRecord)) (results : object (list GroupMatch))
  (rankings : object (list Standing)) (group : string) : result (object (list Standing)) :=
  (groupTeams <- defined (obj_get groups group);;
   let teams := map newStanding groupTeams in
   played <- defined (obj_get results group);;
   teams <- foldM countMatch played teams;;
   let teams := sort byPointsThenDifference teams in
   Ok (obj_set rankings group teams))%result.

Definition rankTeams (groups : object (list TeamRecord)) (results : object (list GroupMatch))
  : result (object (list Standing)) :=
  foldM (rankGroup groups results) (map fst groups) [].

Definition getTopEightTeams (rankings : object (list Standing))
  : result (list (option Standing)) :=
  let rankGroups := sortValues byPointsThenDifference in
  (A <- defined (obj_get rankings "A");;
   B <- defined (obj_get rankings "B");;
   C <- defined (obj_get rankings "C");;
   let firstPlaceTeams := rankGroups [A !! 0%nat; B !! 0%nat; C !! 0%nat] in
   let secondPlaceTeams := rankGroups [A !! 1%nat; B !! 1%nat; C !! 1%nat] in
   let thirdPlaceTeams := rankGroups [A !! 2%nat; B !! 2%nat; C !! 2%nat] in
   Ok (take 8 (firstPlaceTeams ++ secondPlaceTeams ++ thirdPlaceTeams)))%result.

Definition getEliminationMatches (teams : list (option Standing))
  : result (list (option Standing * option Standing)) :=
  (pots <-
     foldM
       (fun pots i =>
          pot <- defined (pots !! (i / 2)%nat);;
          Ok (<[(i / 2)%nat := pot ++ [mjoin (teams !! i)]]> pots))
       (seq 0 (length teams)) [ []; []; []; [] ];;
   foldM
     (fun quarterfinals i =>
        potI <- defined (pots !! i);;
        opposite <- defined (pots !! (3 - i)%nat);;
        Ok (quarterfinals ++ [ (mjoin (potI !! 0%nat), mjoin (opposite !! 1%nat)) ]))
     (seq 0 4) [])%result.

Definition teamOf (t : option Standing) : option TeamRecord := option_map entry t.

Definition getEliminationResults (quarterfinals : list (option Standing * option Standing))
  : M EliminationResults :=
  (qf <-
     forM
       (fun '(played, semifinals) match_ =>
          result <- simulateMatch (teamOf (fst match_)) (teamOf (snd match_));;
          ret (played ++ [ {| pairing := match_; outcome := result |} ],
               semifinals ++
               [ if (MatchScore.team1 result >? MatchScore.team2 result)%js
                 then fst match_ else snd match_ ]))
       quarterfinals ([], []);;
   let '(playedQuarterfinals, semifinals) := qf in
   sf <-
     forM
       (fun '(played, finals, bronzeMatch) i =>
          let first := mjoin (semifinals !! (i * 2)%nat) in
          let second := mjoin (semifinals !! (i * 2 + 1)%nat) in
          result <- simulateMatch (teamOf first) (teamOf second);;
          ret (played ++ [ {| pairing := (first, second); outcome := result |} ],
               finals ++
               [ if (MatchScore.team1 result >? MatchScore.team2 result)%js
                 then first else second ],
               bronzeMatch ++
               [ if (MatchScore.team1 result >? MatchScore.team2 result)%js
                 then second else first ]))
       (seq 0 2) ([], [], []);;
   let '(playedSemifinals, finals, bronzeMatch) := sf in
   finalResult <-
     simulateMatch (teamOf (mjoin (finals !! 0%nat))) (teamOf (mjoin (finals !! 1%nat)));;
   bronzeResult <-
     simulateMatch (teamOf (mjoin (bronzeMatch !! 0%nat)))
       (teamOf (mjoin (bronzeMatch !! 1%nat)));;
   ret {| quarterfinals := playedQuarterfinals;
          semifinals := playedSemifinals;
          finals :=
            [ {| pairing := (mjoin (finals !! 0%nat), mjoin (finals !! 1%nat));
                 outcome := finalResult |} ];
          bronze :=
            [ {| pairing := (mjoin (bronzeMatch !! 0%nat), mjoin (bronzeMatch !! 1%nat));
                 outcome := bronzeResult |} ] |})%state.

End Tournament.

(** ** Scenarios and sample data *)

(** Successive matches between the same two teams, each ending level at
    the score of the list. *)
Definition levelMatches (team1 team2 : TeamRecord) (scores : list Q)
  (teamForm : gmap string number) : gmap string number :=
  fold_left (fun teamForm s => updateTeamForm team1 team2 (Num s) (Num s) teamForm)
    scores teamForm.

(** A host [Math.pow] at the exponent the source uses: [x^1.5] as
    [x * sqrt x] with the square root cut to twelve decimals, [0] at [0];
    [NaN] elsewhere. *)
Definition sqrtDown (x : Q) : Q :=
  Z.sqrt (Qfloor (x * inject_Z (10 ^ 24))) # (10 ^ 12).

Definition powThreeHalves (x y : number) : number :=
  match x, y with
  | Num a, Num b =>
      if Qeq_bool b (3 # 2) && Qle_bool 0 a then Num (a * sqrtDown a) else NaN
  | _, _ => NaN
  end.

Definition mkTeam (name code : string) (rank : Z) : TeamRecord :=
  {| Team := name; ISOCode := code; FIBARanking := Num (inject_Z rank) |}.

Definition sampleGroups : object (list TeamRecord) :=
  [ ("A", [ mkTeam "Kanada" "CAN" 7; mkTeam "Australija" "AUS" 5;
            mkTeam "Grcka" "GRE" 14; mkTeam "Spanija" "ESP" 2 ]);
    ("B", [ mkTeam "Nemacka" "GER" 3; mkTeam "Francuska" "FRA" 9;
            mkTeam "Brazil" "BRA" 12; mkTeam "Japan" "JPN" 26 ]);
    ("C", [ mkTeam "Sjedinjene Drzave" "USA" 1; mkTeam "Srbija" "SRB" 4;
            mkTeam "Juzni Sudan" "SSD" 34; mkTeam "Puerto Riko" "PRI" 16 ]) ].

Definition played (opponent score : string) : ExhibitionMatch :=
  {| Opponent := opponent; Result := score |}.

Definition sampleExhibitions : object (list ExhibitionMatch) :=
  [ ("CAN", [ played "USA" "72-86"; played "FRA" "85-73" ]);
    ("AUS", [ played "SRB" "84-73"; played "USA" "92-98" ]);
    ("GRE", [ played "PRI" "103-72"; played "BRA" "77-83" ]);
    ("ESP", [ played "PRI" "107-84"; played "GER" "81-88" ]);
    ("GER", [ played "FRA" "66-90"; played "JPN" "104-83" ]);
    ("FRA", [ played "GER" "90-66"; played "CAN" "73-85" ]);
    ("BRA", [ played "GRE" "83-77"; played "SRB" "72-96" ]);
    ("JPN", [ played "GER" "83-104"; played "SRB" "100-119" ]);
    ("USA", [ played "CAN" "86-72"; played "AUS" "98-92" ]);
    ("SRB", [ played "AUS" "73-84"; played "JPN" "119-100" ]);
    ("SSD", [ played "USA" "100-101"; played "GER" "82-96" ]);
    ("PRI", [ played "GRE" "72-103"; played "ESP" "84-107" ]) ].

(** A fixed sequence of draws in [[0, 1)]. *)
Definition sampleRandom (n : nat) : Q :=
  inject_Z ((Z.of_nat n * 37 + 11) mod 100) / 100.

(** The base score in the words of the specification: the value of a team
    is its average per-game total over its exhibition matches, a per-game
    total being the two final scores added and halved, with [perMatch]
    applied to it (the identity when nothing is rounded per match,
    [Math_floor] when each match is floor-divided); the two values are
    added, divided by 4 and floored, and 6 is subtracted. *)
Definition averagePerGameTotal (perMatch : number -> number)
  (exhibitions : object (list ExhibitionMatch)) (team : string) : result number :=
  (matches <- defined (obj_get exhibitions team);;
   total <-
     foldM
       (fun acc m =>
          pointsInMatch <- reduce1 nadd (map Number (split "-" (Result m)));;
          Ok (acc + perMatch (pointsInMatch / Num 2))%js)
       matches (Num 0);;
   Ok (total / Num (inject_Z (Z.of_nat (length matches))))%js)%result.

Definition specBaseScore (perMatch : number -> number)
  (exhibitions : object (list ExhibitionMatch)) (team1 team2 : string) : result number :=
  (T1 <- averagePerGameTotal perMatch exhibitions team1;;
   T2 <- averagePerGameTotal perMatch exhibitions team2;;
   Ok (Math_floor ((T1 + T2) / Num 4) - Num 6)%js)%result.

(** The sum over a history of the per-match half totals, each floored. *)
Definition halfTotals (scores : list (Z * Z)) : Z :=
  fold_left (fun acc s => (acc + (fst s + snd s) / 2)%Z) scores 0%Z.

(** The score string of [m] reads as the two integers of [s]. *)
Definition readsAs (m : ExhibitionMatch) (s : Z * Z) : Prop :=
  map Number (split "-" (Result m)) = [Num (inject_Z (fst s)); Num (inject_Z (snd s))].

(** The ISO codes of the teams of the groups, in the order of the groups. *)
Definition groupCodes (groups : object (list TeamRecord)) : list string :=
  map ISOCode (concat (map snd groups)).

(** [code] is referenced by the exhibition data: it is a key, or the
    opponent in a match of a key. *)
Definition referenced (exhibitions : object (list ExhibitionMatch)) (code : string) : Prop :=
  exists (team : string) (matches : list ExhibitionMatch),
    In team (map fst exhibitions)
    /\ obj_get exhibitions team = Some matches
    /\ (code = team \/ exists m, In m matches /\ Opponent m = code).

(** Exhibition data with a score string that is not two integers, and
    with an empty history. *)
Definition malformedExhibitions : object (list ExhibitionMatch) :=
  [ ("CAN", [ played "AUS" "8x-73" ]); ("AUS", []) ].

(** Exhibition data naming a team that is in no group. *)
Definition strangerExhibitions : object (list ExhibitionMatch) :=
  [ ("CAN", [ played "ARG" "80-73" ]) ].

(** The ISO codes of the objects of [teamRankings]. *)
Definition codes (teamRankings : list TeamRanking) : list string :=
  map (fun t : TeamRanking => ISOCode t) teamRankings.

(** The team has an exhibition history. *)
Definition hasHistory (exhibitions : object (list ExhibitionMatch)) (t : TeamRecord) : Prop :=
  exists h, obj_get exhibitions (ISOCode t) = Some h.

(** The match [m] is between the teams named [x] and [y], either way round. *)
Definition betweenTeams (x y : string) (m : GroupMatch) : bool :=
  (String.eqb (name1 m) x && String.eqb (name2 m) y)
  || (String.eqb (name1 m) y && String.eqb (name2 m) x).

(** [ms] is the six matches of the group [A, B, C, D] in schedule order,
    simulated one after the other from the state [s0] to the state [s6]. *)
Definition sixMatches (exhibitions : object (list ExhibitionMatch)) (random : nat -> Q)
  (A B C D : TeamRecord) (s0 s6 : State) (ms : list GroupMatch) : Prop :=
  exists (r1 r2 r3 r4 r5 r6 : MatchScore) (s1 s2 s3 s4 s5 : State),
    ms = [ groupMatch A B r1; groupMatch C D r2;
           groupMatch A C r3; groupMatch B D r4;
           groupMatch A D r5; groupMatch B C r6 ]
    /\ simulateMatch exhibitions random (Some A) (Some B) s0 = Ok (r1, s1)
    /\ simulateMatch exhibitions random (Some C) (Some D) s1 = Ok (r2, s2)
    /\ simulateMatch exhibitions random (Some A) (Some C) s2 = Ok (r3, s3)
    /\ simulateMatch exhibitions random (Some B) (Some D) s3 = Ok (r4, s4)
    /\ simulateMatch exhibitions random (Some A) (Some D) s4 = Ok (r5, s5)
    /\ simulateMatch exhibitions random (Some B) (Some C) s5 = Ok (r6, s6).

(** The entry of a team after a match in which it scored [for_] and
    allowed [against], with the tie-break point when [bonus], and the two
    points and the win when [won], the loss otherwise. *)
Definition tallied (t : Standing) (for_ against : number) (bonus won : bool) : Standing :=
  {| entry := entry t;
     points := if won then (points t + Num 2)%js else points t;
     scored := if bonus then (scored t + for_ + Num 1)%js else (scored t + for_)%js;
     allowed := (allowed t + against)%js;
     wins := if won then (wins t + Num 1)%js else wins t;
     losses := if won then losses t else (losses t + Num 1)%js |}.

(** The rational a finite number stands for. *)
Definition value (x : number) : Q :=
  match x with
  | Num q => q
  | NaN => 0
  end.

Definition pointsOf (t : Standing) : Q := value (points t).

Definition differential (t : Standing) : Q := value (scored t) - value (allowed t).

(** [a] may stand before [b]: more points, or as many points and at least
    the point differential. *)
Definition inOrder (a b : Standing) : Prop :=
  pointsOf b < pointsOf a
  \/ (pointsOf a == pointsOf b /\ differential b <= differential a).

Definition finiteStanding (t : Standing) : Prop :=
  isFinite (points t) = true /\ isFinite (scored t) = true /\ isFinite (allowed t) = true.

(** A match the standings of a group can count: between two teams of the
    group with different names, with finite scores. *)
Definition playable (groupTeams : list TeamRecord) (m : GroupMatch) : Prop :=
  In (name1 m) (map Team groupTeams)
  /\ In (name2 m) (map Team groupTeams)
  /\ name1 m <> name2 m
  /\ isFinite (score1 m) = true
  /\ isFinite (score2 m) = true.

(** The group and the results of the example in the documentation of
    [rankTeams]. *)
Definition sampleGroupA : object (list TeamRecord) :=
  [ ("A", [ mkTeam "Kanada" "CAN" 7; mkTeam "Australija" "AUS" 5;
            mkTeam "Grcka" "GRE" 14; mkTeam "Spanija" "ESP" 2 ]) ].

Definition finalScore (t1 t2 : string) (s1 s2 : Z) : GroupMatch :=
  {| name1 := t1; name2 := t2;
     score1 := Num (inject_Z s1); score2 := Num (inject_Z s2) |}.

Definition sampleResultsA : object (list GroupMatch) :=
  [ ("A", [ finalScore "Kanada" "Australija" 74 83;
            finalScore "Grcka" "Spanija" 71 100;
            finalScore "Kanada" "Grcka" 84 77;
            finalScore "Australija" "Spanija" 80 78;
            finalScore "Kanada" "Spanija" 77 83;
            finalScore "Australija" "Grcka" 92 69 ]) ].

Definition mkStanding (name code : string) (rank pts for_ against won lost : Z) : Standing :=
  {| entry := mkTeam name code rank;
     points := Num (inject_Z pts);
     scored := Num (inject_Z for_);
     allowed := Num (inject_Z against);
     wins := Num (inject_Z won);
     losses := Num (inject_Z lost) |}.

(** Final standings of three groups. *)
Definition sampleRankings : object (list Standing) :=
  [ ("A", [ mkStanding "Australija" "AUS" 5 6 267 246 3 0;
            mkStanding "Kanada" "CAN" 7 4 258 247 2 1;
            mkStanding "Spanija" "ESP" 2 2 261 272 1 2;
            mkStanding "Grcka" "GRE" 14 0 243 264 0 3 ]);
    ("B", [ mkStanding "Francuska" "FRA" 9 6 265 239 3 0;
            mkStanding "Nemacka" "GER" 3 4 268 258 2 1;
            mkStanding "Brazil" "BRA" 12 2 260 249 1 2;
            mkStanding "Japan" "JPN" 26 0 258 305 0 3 ]);
    ("C", [ mkStanding "Sjedinjene Drzave" "USA" 1 6 317 216 3 0;
            mkStanding "Srbija" "SRB" 4 4 294 259 2 1;
            mkStanding "Puerto Riko" "PRI" 16 2 258 289 1 2;
            mkStanding "Juzni Sudan" "SSD" 34 0 224 329 0 3 ]) ].

(** The first team wins: its score is strictly the greater. *)
Definition firstWins (r : MatchScore) : bool :=
  (MatchScore.team1 r >? MatchScore.team2 r)%js.

(** The team that advances from a played pairing, and the one that does not. *)
Definition winner {A : Type} (r : MatchScore) (first second : A) : A :=
  if firstWins r then first else second.

Definition loser {A : Type} (r : MatchScore) (first second : A) : A :=
  if firstWins r then second else first.

Definition eliminationMatch (first second : option Standing) (r : MatchScore)
  : EliminationMatch :=
  {| pairing := (first, second); outcome := r |}.

(** The form table the sample exhibitions seed. *)
Definition sampleForms : gmap string number :=
  list_to_map
    [ ("CAN", Num 6); ("AUS", Num 0); ("GRE", Num 18); ("ESP", Num (-4));
      ("GER", Num (-20)); ("FRA", Num 0); ("BRA", Num 2); ("JPN", Num 0);
      ("USA", Num 6); ("SRB", Num (-5)); ("SSD", Num 0); ("PRI", Num 0) ].

Definition sampleState : State := {| teamForm := sampleForms; draws := 0 |}.

(** Two results that are the same outcome: the same exception, or numbers
    that are the same JavaScript value. *)
Definition sameResult (x y : result number) : Prop :=
  match x, y with
  | Ok a, Ok b => (a ≈ b)%js
  | Throw _, Throw _ => True
  | _, _ => False
  end.

(** Both teams of the match are teams of the group. *)
Definition knownTeams (groupTeams : list TeamRecord) (m : GroupMatch) : Prop :=
  In (name1 m) (map Team groupTeams) /\ In (name2 m) (map Team groupTeams).

(** The group [g] has a result list, and every match of it is between
    teams of the group. *)
Definition countable (groups : object (list TeamRecord))
  (results : object (list GroupMatch)) (g : string) : Prop :=
  exists groupTeams played,
    obj_get groups g = Some groupTeams
    /\ obj_get results g = Some played
    /\ Forall (knownTeams groupTeams) played.

(** [standings] is what [rankTeams] stores for a group with the teams
    [groupTeams] and the result list [played]: the counted entries of the
    teams, sorted. *)
Definition rankedFrom (groupTeams : list TeamRecord) (played : list GroupMatch)
  (standings : list Standing) : Prop :=
  exists tallies,
    foldM countMatch played (map newStanding groupTeams) = Ok tallies
    /\ map entry tallies = groupTeams
    /\ standings = sort byPointsThenDifference tallies.

(** The sum of a column of the standings. *)
Definition total (column : Standing -> number) (teams : list Standing) : Q :=
  fold_right (fun t acc => value (column t) + acc) 0 teams.

Definition finiteTally (t : Standing) : Prop :=
  finiteStanding t /\ isFinite (wins t) = true /\ isFinite (losses t) = true.

Definition one_if (b : bool) : Q := if b then 1 else 0.

(** What the counting keeps, after [n] matches: every entry is finite and
    has two points a win; wins and losses each add up to [n]; scored
    exceeds allowed by the tie-break points given, at most one a match. *)
Definition tallyInvariant (teams : list Standing) (n : Q) : Prop :=
  Forall finiteTally teams
  /\ Forall (fun t => pointsOf t == 2 * value (wins t)) teams
  /\ total wins teams == n
  /\ total losses teams == n
  /\ 0 <= total scored teams - total allowed teams <= n.

(** [x] stands in one of the first three places of the standings. *)
Definition topThree (standings : list Standing) (x : Standing) : Prop :=
  exists i : nat, (i < 3)%nat /\ standings !! i = Some x.

(** A pairing that [simulateMatch] can play: two teams, each with an
    exhibition history. *)
Definition pairingPlays (exhibitions : object (list ExhibitionMatch))
  (m : option Standing * option Standing) : Prop :=
  exists x y : Standing,
    m = (Some x, Some y) /\ hasHistory exhibitions x /\ hasHistory exhibitions y.

(** A team with an exhibition history stands at the place. *)
Definition advances (exhibitions : object (list ExhibitionMatch))
  (w : option Standing) : Prop :=
  exists x : Standing, w = Some x /\ hasHistory exhibitions x.

(** The place holds a team with an exhibition history. *)
Definition playsIn (exhibitions : object (list ExhibitionMatch))
  (t : option TeamRecord) : Prop :=
  exists x : TeamRecord, t = Some x /\ hasHistory exhibitions x.

(** The first four places of the group [g] hold teams with an exhibition
    history. *)
Definition fourPlay (exhibitions : object (list ExhibitionMatch))
  (groups : object (list TeamRecord)) (g : string) : Prop :=
  exists teams,
    obj_get groups g = Some teams
    /\ Forall (fun i : nat => playsIn exhibitions (teams !! i)) [0; 1; 2; 3]%nat.

(** [main], up to the call of [outputResults]: it returns the four values
    that [main] passes to it. *)
Definition main (exhibitions : object (list ExhibitionMatch)) (random : nat -> Q)
  (groups : object (list TeamRecord))
  : M (object (list GroupMatch) * object (list Standing) * EliminationResults
       * list (option Standing)) :=
  (groupResults <- createRoundRobin exhibitions random groups;;
   groupRankings <- liftR (rankTeams groups groupResults);;
   rankedTeams <- liftR (getTopEightTeams groupRankings);;
   quarterfinals <- liftR (getEliminationMatches rankedTeams);;
   eliminationResults <- getEliminationResults exhibitions random quarterfinals;;
   ret (groupResults, groupRankings, eliminationResults, rankedTeams))%state.

(** Every score string of the exhibition data reads as two integers. *)
Definition parses (exhibitions : object (list ExhibitionMatch)) : Prop :=
  forall team matches m,
    obj_get exhibitions team = Some matches -> In m matches -> exists s, readsAs m s.

(** [Math.pow(x, 1.5)] is a number for every number [x >= 0]. *)
Definition powDefined (Math_pow : number -> number -> number) : Prop :=
  forall x : Q, 0 <= x -> isFinite (Math_pow (Num x) (Num (3 # 2))) = true.

Definition finiteRank (t : TeamRecord) : Prop := isFinite (FIBARanking t) = true.

(** The form table has a number for every code of the list. *)
Definition finiteForms (cs : list string) (teamForm : gmap string number) : Prop :=
  forall c, In c cs -> exists q : Q, teamForm !! c = Some (Num q).

(** The invariant of the seeding loops: the team objects are those of the
    codes [cs], each with a number as rank and as form. *)
Definition seeded (cs : list string) (teamRankings : list TeamRanking) : Prop :=
  codes teamRankings = cs
  /\ Forall (fun t : TeamRanking => isFinite (form t) = true /\ finiteRank t) teamRankings.

(** The number is an integer. *)
Definition isInteger (x : number) : Prop := exists z : Z, x = Num (inject_Z z).

Definition integerScores (r : MatchScore) : Prop :=
  isInteger (MatchScore.team1 r) /\ isInteger (MatchScore.team2 r).

(** Every match of every group has integers as scores. *)
Definition integerResults (results : object (list GroupMatch)) : Prop :=
  forall g played m,
    obj_get results g = Some played -> In m played ->
    isInteger (score1 m) /\ isInteger (score2 m).

(** A team a match can be simulated for without [NaN]: its rank is a
    number and its code is one of [cs]. *)
Definition rankedIn (cs : list string) (t : TeamRecord) : Prop :=
  finiteRank t /\ In (ISOCode t) cs.

(** The place is empty or holds such a team. *)
Definition placeIn (cs : list string) (w : option Standing) : Prop :=
  forall x : Standing, w = Some x -> rankedIn cs x.

(** The team that goes on from a played match of the elimination stage,
    and the one that does not. *)
Definition advancing (m : EliminationMatch) : option Standing :=
  winner (outcome m) (fst (pairing m)) (snd (pairing m)).

Definition eliminated (m : EliminationMatch) : option Standing :=
  loser (outcome m) (fst (pairing m)) (snd (pairing m)).

(** The two places of every pairing, in order. *)
Definition places (qf : list (option Standing * option Standing))
  : list (option Standing) :=
  concat (map (fun m => [fst m; snd m]) qf).

(** The script: the form table is seeded when the module is loaded,
    before any call of [Math.random()], and then [main()] is called. *)
Definition run (Math_pow : number -> number -> number)
  (groups : object (list TeamRecord)) (exhibitions : object (list ExhibitionMatch))
  (random : nat -> Q)
  : result (object (list GroupMatch) * object (list Standing) * EliminationResults
            * list (option Standing) * State) :=
  (teamForm <- getInitialForms Math_pow groups exhibitions;;
   main exhibitions random groups {| teamForm := teamForm; draws := 0 |})%result.

(** The teams at the first four places of the tournament: the winner and
    the loser of the final, then of the match for bronze. *)
Definition firstFour (res : EliminationResults) : list (option Standing) :=
  concat (map (fun m => [advancing m; eliminated m]) (finals res ++ bronze res)).

(* ================================================================= *)
(** * Properties *)

(** ** The model on the sample data *)

Example split_score : map Number (split "-" "72-86") = [Num 72; Num 86].
Proof. reflexivity. Qed.

Example split_malformed : map Number (split "-" "8x-73") = [NaN; Num 73].
Proof. reflexivity. Qed.

Example expectedPointDiff_close : 
  expectedPointDiff powThreeHalves (Num 5) (Num 7) (Num 100) (Num 98) = Num (-1).
Proof. vm_compute. reflexivity. Qed.

Example expectedPointDiff_small_margin :
  expectedPointDiff powThreeHalves (Num 10) (Num 30) (Num 80) (Num 70) = Num 0.
Proof. vm_compute. reflexivity. Qed.

Example getBaseScore_sample : getBaseScore sampleExhibitions "CAN" "AUS" = Ok (Num 76).
Proof. vm_compute. reflexivity. Qed.

Example getInitialForms_sample :
  getInitialForms powThreeHalves sampleGroups sampleExhibitions = Ok sampleForms.
Proof. vm_compute. reflexivity. Qed.

Example simulateMatch_sample :
  match
    simulateMatch sampleExhibitions sampleRandom
      (Some (mkTeam "Kanada" "CAN" 7)) (Some (mkTeam "Australija" "AUS" 5)) sampleState
  with
  | Ok (r, st') => Some (r, draws st')
  | Throw _ => None
  end
  = Some ({| MatchScore.team1 := Num 81; MatchScore.team2 := Num 90 |}, 3%nat).
Proof. vm_compute. reflexivity. Qed.

(** ** Numbers *)

Lemma Qltb_lt (a b : Q) : Qltb a b = true <-> a < b.
Proof.
  unfold Qltb. rewrite Qlt_alt. destruct (a ?= b); split; congruence.
Qed.

Lemma Qltb_ge (a b : Q) : Qltb a b = false <-> b <= a.
Proof.
  split; intros H.
  - apply Qnot_lt_le. intros Hlt. apply Qltb_lt in Hlt. congruence.
  - destruct (Qltb a b) eqn:E; [|reflexivity].
    apply Qltb_lt in E. exfalso. apply (Qlt_not_le _ _ E H).
Qed.

Lemma Math_round_Num_eq (a b : Q) : a == b -> Math_round (Num a) = Math_round (Num b).
Proof.
  intros H. unfold Math_round. do 2 f_equal. apply Qfloor_comp. rewrite H. reflexivity.
Qed.

(** [Math.floor] of a finite number is the integer just below or at it. *)
Lemma Math_floor_bounds (q : Q) :
  exists n : Z,
    Math_floor (Num q) = Num (inject_Z n) /\ inject_Z n <= q /\ q < inject_Z n + 1.
Proof.
  exists (Qfloor q). split; [reflexivity|]. split; [apply Qfloor_le|].
  pose proof (Qlt_floor q) as H. rewrite inject_Z_plus in H. exact H.
Qed.

(** [Math.round] of a finite number is the nearest integer, the upper one
    of the two when it is half way. *)
Lemma Math_round_bounds (q : Q) :
  exists n : Z,
    Math_round (Num q) = Num (inject_Z n)
    /\ inject_Z n - (1 # 2) <= q /\ q < inject_Z n + (1 # 2).
Proof.
  exists (Qfloor (q + (1 # 2))). split; [reflexivity|].
  pose proof (Qfloor_le (q + (1 # 2))) as Hle.
  pose proof (Qlt_floor (q + (1 # 2))) as Hlt. rewrite inject_Z_plus in Hlt.
  change (inject_Z 1) with 1 in Hlt.
  split; lra.
Qed.

(** ** The expected-margin model *)

Section ExpectedMarginFacts.

Variable Math_pow : number -> number -> number.

(** With a rank gap above 10 the comparison is against [undefined], which
    no number reaches: the function returns [0] whatever the margin. *)
Lemma expectedPointDiff_large_gap (rankHome rankAway score1 score2 : number) :
  (Math_abs (rankHome - rankAway) >? Num 10)%js = true ->
  expectedPointDiff Math_pow rankHome rankAway score1 score2 = Num 0.
Proof.
  intros H. unfold expectedPointDiff. cbv zeta. rewrite H.
  destruct (if (rankHome <? rankAway)%js then _ else _); reflexivity.
Qed.

End ExpectedMarginFacts.

(** C1 (code defect).  On the example of the function's own documentation,
    [expectedPointDiff(10, 30, 90, 60)], where the favourite wins by 30
    with a rank gap of 20, the code returns [0], not [round(30 / 3) = 10]. *)
Theorem expectedPointDiff_documented_example (Math_pow : number -> number -> number) :
  expectedPointDiff Math_pow (Num 10) (Num 30) (Num 90) (Num 60) = Num 0
  /\ Math_round (Num (90 - 60) / Num 3) = Num 10.
Proof.
  split.
  - apply expectedPointDiff_large_gap. reflexivity.
  - reflexivity.
Qed.

(** C8.  With a rank gap of at most 10 the function returns
    [round((actualDiff - (4 + 26 * (rankGap / 30)^1.5)) / 3)], where
    [actualDiff] is the margin in favour of the team with the lower rank
    number (of the away team when the ranks are equal); for equal ranks
    and equal scores this is [round((0 - 4) / 3)], whatever the rank and
    the score, as [Math.pow] is [0] at base [0]. *)
Theorem expectedPointDiff_close_ranking
  (Math_pow : number -> number -> number) (rankHome rankAway score1 score2 : Q) :
  let rankGap := Num (Qabs (rankHome - rankAway)) in
  let expected := (Num 4 + Num 26 * Math_pow (rankGap / Num 30) (Num (3 # 2)))%js in
  (Qabs (rankHome - rankAway) <= 10 ->
   (rankHome < rankAway ->
    expectedPointDiff Math_pow (Num rankHome) (Num rankAway) (Num score1) (Num score2)
    = Math_round ((Num (score1 - score2) - expected) / Num 3)%js)
   /\ (rankAway <= rankHome ->
       expectedPointDiff Math_pow (Num rankHome) (Num rankAway) (Num score1) (Num score2)
       = Math_round ((Num (score2 - score1) - expected) / Num 3)%js))
  /\ ((forall z : Q, z == 0 -> (Math_pow (Num z) (Num (3 # 2)) ≈ Num 0)%js) ->
      expectedPointDiff Math_pow (Num rankHome) (Num rankHome) (Num score1) (Num score1)
      = Math_round ((Num 0 - Num 4) / Num 3)%js).
Proof.
  intros rankGap expected. split.
  - intros Hgap.
    assert (Hclose : (Math_abs (Num rankHome - Num rankAway) >? Num 10)%js = false).
    { apply Qltb_ge. exact Hgap. }
    split.
    + intros Hlt. unfold expectedPointDiff. cbv zeta. rewrite Hclose.
      replace (Num rankHome <? Num rankAway)%js with true
        by (symmetry; apply Qltb_lt; exact Hlt).
      reflexivity.
    + intros Hle. unfold expectedPointDiff. cbv zeta. rewrite Hclose.
      replace (Num rankHome <? Num rankAway)%js with false
        by (symmetry; apply Qltb_ge; exact Hle).
      reflexivity.
  - intros Hpow. unfold expectedPointDiff. cbv zeta.
    replace (Math_abs (Num rankHome - Num rankHome) >? Num 10)%js with false.
    2:{ symmetry. apply Qltb_ge. assert (E : rankHome - rankHome == 0) by ring.
        rewrite E. discriminate. }
    replace (Num rankHome <? Num rankHome)%js with false
      by (symmetry; apply Qltb_ge; apply Qle_refl).
    assert (Hz : Qabs (rankHome - rankHome) / 30 == 0).
    { assert (E : rankHome - rankHome == 0) by ring. rewrite E. reflexivity. }
    specialize (Hpow _ Hz).
    change (Math_abs (Num rankHome - Num rankHome) / Num 30)%js
      with (Num (Qabs (rankHome - rankHome) / 30)).
    destruct (Math_pow (Num (Qabs (rankHome - rankHome) / 30)) (Num (3 # 2)))
      as [p|]; [|contradiction].
    simpl in Hpow.
    change ((Num score1 - Num score1 - (Num 4 + (Num 30 - Num 4) * Num p)) / Num 3)%js
      with (Num ((score1 - score1 - (4 + (30 - 4) * p)) / 3)).
    change ((Num 0 - Num 4) / Num 3)%js with (Num ((0 - 4) / 3)).
    apply Math_round_Num_eq. rewrite Hpow. field.
Qed.

Lemma powThreeHalves_zero (z : Q) :
  z == 0 -> (powThreeHalves (Num z) (Num (3 # 2)) ≈ Num 0)%js.
Proof.
  intros Hz. unfold powThreeHalves.
  replace (Qle_bool 0 z) with true
    by (symmetry; apply Qle_bool_iff; rewrite Hz; apply Qle_refl).
  change (z * sqrtDown z == 0). rewrite Hz at 1. ring.
Qed.

(** At ranks 5 and 7 with the score 100 to 98, and at equal ranks and scores. *)
Lemma expectedPointDiff_close_ranking_witness :
  expectedPointDiff powThreeHalves (Num 5) (Num 7) (Num 100) (Num 98)
  = Math_round
      ((Num (100 - 98)
        - (Num 4 + Num 26 * powThreeHalves (Num (Qabs (5 - 7)) / Num 30) (Num (3 # 2))))
       / Num 3)%js
  /\ expectedPointDiff powThreeHalves (Num 5) (Num 5) (Num 100) (Num 100)
     = Math_round ((Num 0 - Num 4) / Num 3)%js.
Proof.
  split.
  - refine (proj1 (proj1 (expectedPointDiff_close_ranking powThreeHalves 5 7 100 98) _) _).
    + discriminate.
    + reflexivity.
  - refine (proj2 (expectedPointDiff_close_ranking powThreeHalves 5 7 100 100) _).
    exact powThreeHalves_zero.
Defined.

(** ** The form tracker *)

Lemma updateTeamForm_lookup_first (team1 team2 : TeamRecord) (score1 score2 : number)
  (teamForm : gmap string number) :
  ISOCode team1 <> ISOCode team2 ->
  updateTeamForm team1 team2 score1 score2 teamForm !! ISOCode team1
  = Some (ToNumber (teamForm !! ISOCode team1) * (Num 1 - Num (7 # 100))
          + (score1 - score2) * Num (7 # 100))%js.
Proof.
  intros Hne. unfold updateTeamForm. cbv zeta.
  rewrite lookup_insert_ne by congruence. apply lookup_insert_eq.
Qed.

Lemma updateTeamForm_lookup_second (team1 team2 : TeamRecord) (score1 score2 : number)
  (teamForm : gmap string number) :
  ISOCode team1 <> ISOCode team2 ->
  updateTeamForm team1 team2 score1 score2 teamForm !! ISOCode team2
  = Some (ToNumber (teamForm !! ISOCode team2) * (Num 1 - Num (7 # 100))
          + (score2 - score1) * Num (7 # 100))%js.
Proof.
  intros Hne. unfold updateTeamForm. cbv zeta.
  rewrite lookup_insert_eq. rewrite lookup_insert_ne by congruence. reflexivity.
Qed.

Lemma level_decay_succ (n : nat) :
  (93 # 100) ^ Z.of_nat (S n) == (93 # 100) * (93 # 100) ^ Z.of_nat n.
Proof.
  rewrite Nat2Z.inj_succ. unfold Z.succ.
  rewrite Qpower_plus by discriminate. simpl. ring.
Qed.

Lemma level_decay_positive (n : nat) : 0 < (93 # 100) ^ Z.of_nat n.
Proof. apply Qpower_0_lt. reflexivity. Qed.

Lemma level_decay_le_1 (n : nat) : (93 # 100) ^ Z.of_nat n <= 1.
Proof.
  induction n as [|n IH].
  - simpl. discriminate.
  - rewrite level_decay_succ. pose proof (level_decay_positive n). nra.
Qed.

Lemma level_decay_bound (n : nat) :
  (93 # 100) ^ Z.of_nat n * (93 + 7 * inject_Z (Z.of_nat n)) <= 93.
Proof.
  induction n as [|n IH].
  - simpl. discriminate.
  - rewrite level_decay_succ.
    replace (inject_Z (Z.of_nat (S n))) with (inject_Z (Z.of_nat n + 1))
      by (f_equal; lia).
    rewrite inject_Z_plus.
    pose proof (level_decay_le_1 n). pose proof (level_decay_positive n).
    change (inject_Z 1) with 1.
    nra.
Qed.

Lemma levelMatches_lookup (team1 team2 : TeamRecord) (scores : list Q) :
  ISOCode team1 <> ISOCode team2 ->
  forall (teamForm : gmap string number) (form1 form2 : Q),
  teamForm !! ISOCode team1 = Some (Num form1) ->
  teamForm !! ISOCode team2 = Some (Num form2) ->
  exists f1 f2 : Q,
    levelMatches team1 team2 scores teamForm !! ISOCode team1 = Some (Num f1)
    /\ levelMatches team1 team2 scores teamForm !! ISOCode team2 = Some (Num f2)
    /\ f1 == form1 * (93 # 100) ^ Z.of_nat (length scores)
    /\ f2 == form2 * (93 # 100) ^ Z.of_nat (length scores).
Proof.
  intros Hne. induction scores as [|s scores IH]; intros teamForm form1 form2 H1 H2.
  - exists form1, form2. simpl. repeat split; try assumption; ring.
  - unfold levelMatches. simpl fold_left.
    fold (levelMatches team1 team2 scores
            (updateTeamForm team1 team2 (Num s) (Num s) teamForm)).
    destruct (IH (updateTeamForm team1 team2 (Num s) (Num s) teamForm)
                (form1 * (1 - (7 # 100)) + (s - s) * (7 # 100))
                (form2 * (1 - (7 # 100)) + (s - s) * (7 # 100)))
      as (f1 & f2 & L1 & L2 & E1 & E2).
    + rewrite updateTeamForm_lookup_first by exact Hne. rewrite H1. reflexivity.
    + rewrite updateTeamForm_lookup_second by exact Hne. rewrite H2. reflexivity.
    + exists f1, f2. repeat split; try assumption.
      * rewrite E1. change (length (s :: scores)) with (S (length scores)).
        rewrite level_decay_succ. ring.
      * rewrite E2. change (length (s :: scores)) with (S (length scores)).
        rewrite level_decay_succ. ring.
Qed.

Lemma level_decay_small (form eps : Q) :
  0 < eps ->
  exists N : nat, forall n : nat, (N <= n)%nat ->
    Qabs (form * (93 # 100) ^ Z.of_nat n) < eps.
Proof.
  intros Heps.
  set (K := Qceiling (93 * Qabs form / (7 * eps))).
  exists (S (Z.to_nat K)). intros n Hn.
  rewrite Qabs_Qmult.
  rewrite (Qabs_pos ((93 # 100) ^ Z.of_nat n))
    by (apply Qlt_le_weak, level_decay_positive).
  pose proof (level_decay_bound n) as Hb.
  pose proof (level_decay_positive n) as Hp.
  pose proof (Qabs_nonneg form) as Ha.
  assert (HK : 93 * Qabs form <= 7 * eps * inject_Z K).
  { pose proof (Qle_ceiling (93 * Qabs form / (7 * eps))) as Hc. fold K in Hc.
    assert (H7 : 0 < 7 * eps) by lra.
    apply (Qmult_le_compat_r _ _ (7 * eps)) in Hc; [|lra].
    rewrite (Qmult_comm (inject_Z K)) in Hc.
    assert (E : 93 * Qabs form / (7 * eps) * (7 * eps) == 93 * Qabs form)
      by (field; intros E0; lra).
    rewrite E in Hc. exact Hc. }
  assert (Hn' : inject_Z K + 1 <= inject_Z (Z.of_nat n)).
  { change 1 with (inject_Z 1). rewrite <- inject_Z_plus.
    rewrite <- Zle_Qle. lia. }
  set (p := (93 # 100) ^ Z.of_nat n) in *.
  set (a := Qabs form) in *.
  set (m := inject_Z (Z.of_nat n)) in *.
  set (k := inject_Z K) in *.
  assert (Hm : 0 <= m) by (unfold m; change 0 with (inject_Z 0); rewrite <- Zle_Qle; lia).
  assert (H1 : 93 * a < eps * (93 + 7 * m)) by nra.
  assert (H2 : p * (93 + 7 * m) * a <= 93 * a) by nra.
  assert (H3 : (a * p) * (93 + 7 * m) < eps * (93 + 7 * m)) by nra.
  apply Qnot_le_lt. intros Hle.
  assert (H4 : eps * (93 + 7 * m) <= (a * p) * (93 + 7 * m)).
  { apply Qmult_le_compat_r; [exact Hle | lra]. }
  lra.
Qed.



(** ** The match simulator *)



(** ** The base score *)

Lemma totalPoints_fold (matches : list ExhibitionMatch) :
  forall (scores : list (Z * Z)) (acc : Q) (accZ : Z),
  Forall2 readsAs matches scores ->
  acc == inject_Z accZ ->
  exists q : Q,
    foldM
      (fun acc m =>
         bindR (reduce1 nadd (map Number (split "-" (Result m))))
           (fun pointsInMatch => Ok (acc + Math_floor (pointsInMatch / Num 2))%js))
      matches (Num acc)
    = Ok (Num q)
    /\ q == inject_Z (fold_left (fun acc s => (acc + (fst s + snd s) / 2)%Z) scores accZ).
Proof.
  induction matches as [|m matches IH]; intros scores acc accZ HF Hacc.
  - inversion HF; subst. exists acc. split; [reflexivity | exact Hacc].
  - inversion HF as [|m' s ms ss Hm Hrest]; subst.
    simpl foldM. unfold readsAs in Hm. rewrite Hm. simpl bindR.
    cbn [fold_left].
    apply (IH ss _ (accZ + (fst s + snd s) / 2)%Z Hrest).
    rewrite !Z.mul_1_r. change (Z.pos (1 * 1 * 2)) with 2%Z.
    rewrite inject_Z_plus, Hacc. reflexivity.
Qed.

Lemma getTotalPointsForTeam_half_totals
  (exhibitions : object (list ExhibitionMatch)) (team : string)
  (matches : list ExhibitionMatch) (scores : list (Z * Z)) :
  obj_get exhibitions team = Some matches ->
  Forall2 readsAs matches scores ->
  exists q : Q,
    getTotalPointsForTeam exhibitions team = Ok (Num q)
    /\ q == inject_Z (halfTotals scores).
Proof.
  intros Hget HF. unfold getTotalPointsForTeam. rewrite Hget. simpl bindR.
  apply (totalPoints_fold matches scores 0 0%Z HF). reflexivity.
Qed.

(** C3, as the code has it.  [getBaseScore(team1, team2)] is
    [floor((T1 + T2) / 4) - 6] where [Ti] is the sum, over the exhibition
    matches of the team, of [floor((score1 + score2) / 2)]: each match is
    floored, and the per-match values are added, not averaged. *)
Theorem getBaseScore_half_totals
  (exhibitions : object (list ExhibitionMatch)) (team1 team2 : string)
  (matches1 matches2 : list ExhibitionMatch) (scores1 scores2 : list (Z * Z)) :
  obj_get exhibitions team1 = Some matches1 ->
  obj_get exhibitions team2 = Some matches2 ->
  Forall2 readsAs matches1 scores1 ->
  Forall2 readsAs matches2 scores2 ->
  exists q : Q,
    getBaseScore exhibitions team1 team2 = Ok (Num q)
    /\ q == inject_Z ((halfTotals scores1 + halfTotals scores2) / 4 - 6).
Proof.
  intros H1 H2 F1 F2.
  destruct (getTotalPointsForTeam_half_totals exhibitions team1 matches1 scores1 H1 F1)
    as (q1 & E1 & Q1).
  destruct (getTotalPointsForTeam_half_totals exhibitions team2 matches2 scores2 H2 F2)
    as (q2 & E2 & Q2).
  unfold getBaseScore. rewrite E1, E2.
  exists (inject_Z (Qfloor ((q1 + q2) / 4)) - 6). split; [reflexivity|].
  assert (E : (q1 + q2) / 4 == inject_Z (halfTotals scores1 + halfTotals scores2) / inject_Z 4).
  { rewrite inject_Z_plus, Q1, Q2. reflexivity. }
  rewrite (Qfloor_comp _ _ E), <- Zdiv_Qdiv.
  unfold Z.sub. rewrite inject_Z_plus. reflexivity.
Qed.

(** Canada and Australia on the sample histories. *)
Lemma getBaseScore_half_totals_witness :
  exists q : Q,
    getBaseScore sampleExhibitions "CAN" "AUS" = Ok (Num q)
    /\ q == inject_Z ((halfTotals [(72, 86); (85, 73)] + halfTotals [(84, 73); (92, 98)]) / 4
                      - 6)%Z.
Proof.
  refine (getBaseScore_half_totals sampleExhibitions "CAN" "AUS"
            [played "USA" "72-86"; played "FRA" "85-73"]
            [played "SRB" "84-73"; played "USA" "92-98"]
            [(72, 86); (85, 73)]%Z [(84, 73); (92, 98)]%Z _ _ _ _).
  - reflexivity.
  - reflexivity.
  - repeat constructor.
  - repeat constructor.
Defined.

(** C3, as the specification has it, fails: on the sample histories of
    Canada and Australia, two matches each, the code returns 76, and the
    average per-game totals give 35, whether or not each match is floored. *)
Lemma getBaseScore_is_not_the_average :
  getBaseScore sampleExhibitions "CAN" "AUS" = Ok (Num 76)
  /\ specBaseScore (fun x => x) sampleExhibitions "CAN" "AUS" = Ok (Num 35)
  /\ specBaseScore Math_floor sampleExhibitions "CAN" "AUS" = Ok (Num 35)
  /\ ~ 76 == 35.
Proof. repeat split; try (vm_compute; reflexivity). discriminate. Qed.

(** ** Exceptions and loops *)

(** A loop whose body keeps an invariant returns, and keeps it. *)
Lemma foldM_returns {A B : Type} (P : B -> Prop) (body : B -> A -> result B)
  (arr : list A) :
  (forall a b, In a arr -> P b -> exists b', body b a = Ok b' /\ P b') ->
  forall b, P b -> exists b', foldM body arr b = Ok b' /\ P b'.
Proof.
  induction arr as [|a arr IH]; intros Hbody b Hb.
  - exists b. split; [reflexivity | exact Hb].
  - destruct (Hbody a b (or_introl eq_refl) Hb) as (b1 & E1 & P1).
    simpl. rewrite E1. simpl.
    apply IH; [|exact P1].
    intros a' b' Hin. apply Hbody. right. exact Hin.
Qed.

(** A loop with one iteration that throws under the invariant throws. *)
Lemma foldM_throws {A B : Type} (P : B -> Prop) (body : B -> A -> result B)
  (arr : list A) :
  (forall a b, In a arr -> P b ->
     (exists b', body b a = Ok b' /\ P b') \/ body b a = Throw TypeError) ->
  (exists a, In a arr /\ forall b, P b -> body b a = Throw TypeError) ->
  forall b, P b -> foldM body arr b = Throw TypeError.
Proof.
  induction arr as [|a arr IH]; intros Hbody (bad & Hin & Hbad) b Hb.
  - destruct Hin.
  - simpl. destruct (Hbody a b (or_introl eq_refl) Hb) as [(b1 & E1 & P1)|E1].
    + rewrite E1. simpl. apply IH; [| |exact P1].
      * intros a' b' Hin'. apply Hbody. right. exact Hin'.
      * destruct Hin as [->|Hin].
        -- rewrite (Hbad b Hb) in E1. discriminate.
        -- exists bad. split; assumption.
    + rewrite E1. reflexivity.
Qed.

Lemma obj_get_of_key {A : Type} (o : object A) (k : string) :
  In k (map fst o) -> exists v, obj_get o k = Some v.
Proof.
  induction o as [|[k0 v0] o IH]; simpl; intros Hin; [destruct Hin|].
  destruct (String.eqb k0 k) eqn:E; [eexists; reflexivity|].
  destruct Hin as [->|Hin]; [rewrite String.eqb_refl in E; discriminate|].
  apply IH. exact Hin.
Qed.

Lemma findIndex_Some {A : Type} (p : A -> bool) (arr : list A) (i : nat) :
  findIndex p arr = Some i -> exists x, arr !! i = Some x /\ p x = true.
Proof.
  revert i. induction arr as [|y arr IH]; intros i H; simpl in H.
  - discriminate.
  - destruct (p y) eqn:E.
    + injection H as <-. exists y. split; [reflexivity | exact E].
    + destruct (findIndex p arr) as [j|]; simpl in H; [|discriminate].
      injection H as <-. apply (IH j). reflexivity.
Qed.

Lemma findIndex_None {A : Type} (p : A -> bool) (arr : list A) :
  findIndex p arr = None <-> (forall x, In x arr -> p x = false).
Proof.
  induction arr as [|y arr IH]; simpl.
  - split; [intros _ x [] | reflexivity].
  - destruct (p y) eqn:E.
    + split; [discriminate|]. intros H. rewrite (H y (or_introl eq_refl)) in E.
      discriminate.
    + destruct (findIndex p arr) as [j|]; simpl.
      * split; [discriminate|]. intros H.
        assert (Hn : @None nat = None) by reflexivity.
        destruct IH as [_ IH]. discriminate IH. intros x Hx. apply H. right. exact Hx.
      * split; [|reflexivity]. intros _ x [<-|Hx]; [exact E|].
        destruct IH as [IH _]. apply IH; [reflexivity | exact Hx].
Qed.

(** ** Seeding the form table *)

Lemma addForm_codes (i : nat) (x : number) (teamRankings : list TeamRanking) :
  codes (addForm i x teamRankings) = codes teamRankings.
Proof.
  unfold codes, addForm. revert i.
  induction teamRankings as [|t ts IH]; intros [|i]; simpl; try reflexivity.
  f_equal. apply IH.
Qed.

Lemma hasCode_found (code : string) (teamRankings : list TeamRanking) :
  In code (codes teamRankings) ->
  exists i t, findIndex (hasCode code) teamRankings = Some i /\ teamRankings !! i = Some t.
Proof.
  intros Hin. destruct (findIndex (hasCode code) teamRankings) as [i|] eqn:E.
  - destruct (findIndex_Some _ _ _ E) as (t & Ht & _). exists i, t. split; auto.
  - exfalso. unfold codes in Hin. apply in_map_iff in Hin. destruct Hin as (t & Ht & Hin).
    pose proof (proj1 (findIndex_None _ _) E t Hin) as Hf.
    unfold hasCode in Hf. rewrite Ht, String.eqb_refl in Hf. discriminate.
Qed.

Lemma hasCode_missing (code : string) (teamRankings : list TeamRanking) :
  ~ In code (codes teamRankings) -> findIndex (hasCode code) teamRankings = None.
Proof.
  intros Hnin. apply findIndex_None. intros t Ht. unfold hasCode.
  destruct (String.eqb (ISOCode t) code) eqn:E; [|reflexivity].
  apply String.eqb_eq in E. exfalso. apply Hnin. unfold codes.
  apply in_map_iff. exists t. split; assumption.
Qed.

Section Seeding.

Variable Math_pow : number -> number -> number.

Lemma seedMatch_known (rankHome : number) (home : nat) (teamRankings : list TeamRanking)
  (m : ExhibitionMatch) :
  In (Opponent m) (codes teamRankings) ->
  exists teamRankings',
    seedMatch Math_pow rankHome home teamRankings m = Ok teamRankings'
    /\ codes teamRankings' = codes teamRankings.
Proof.
  intros Hin. destruct (hasCode_found _ _ Hin) as (i & t & Ei & Et).
  unfold seedMatch. rewrite Ei. simpl. rewrite Et. simpl.
  eexists. split; [reflexivity|].
  destruct (rankHome <? FIBARanking t)%js; apply addForm_codes.
Qed.

Lemma seedMatch_stranger (rankHome : number) (home : nat)
  (teamRankings : list TeamRanking) (m : ExhibitionMatch) :
  ~ In (Opponent m) (codes teamRankings) ->
  seedMatch Math_pow rankHome home teamRankings m = Throw TypeError.
Proof.
  intros Hnin. unfold seedMatch. rewrite (hasCode_missing _ _ Hnin). reflexivity.
Qed.

Lemma seedTeam_known (exhibitions : object (list ExhibitionMatch))
  (teamRankings : list TeamRanking) (team : string) (matches : list ExhibitionMatch)
  (cs : list string) :
  codes teamRankings = cs ->
  In team cs ->
  obj_get exhibitions team = Some matches ->
  (forall m, In m matches -> In (Opponent m) cs) ->
  exists teamRankings',
    seedTeam Math_pow exhibitions teamRankings team = Ok teamRankings'
    /\ codes teamRankings' = cs.
Proof.
  intros Hcs Hteam Hget Hopp. subst cs.
  destruct (hasCode_found _ _ Hteam) as (i & t & Ei & Et).
  unfold seedTeam. rewrite Ei. simpl. rewrite Et. simpl. rewrite Hget. simpl.
  apply (foldM_returns (fun s => codes s = codes teamRankings)); [|reflexivity].
  intros m s Hm Hs.
  destruct (seedMatch_known (FIBARanking t) i s m) as (s' & E & Hs').
  - rewrite Hs. apply Hopp. exact Hm.
  - exists s'. split; [exact E | congruence].
Qed.

Lemma seedTeam_stranger (exhibitions : object (list ExhibitionMatch))
  (teamRankings : list TeamRanking) (team : string) (matches : list ExhibitionMatch)
  (code : string) :
  obj_get exhibitions team = Some matches ->
  (code = team \/ exists m, In m matches /\ Opponent m = code) ->
  ~ In code (codes teamRankings) ->
  seedTeam Math_pow exhibitions teamRankings team = Throw TypeError.
Proof.
  intros Hget Href Hnin. unfold seedTeam.
  destruct (findIndex (hasCode team) teamRankings) as [i|] eqn:Ei; [|reflexivity].
  simpl. destruct (teamRankings !! i) as [t|]; [|reflexivity]. simpl.
  rewrite Hget. simpl.
  destruct Href as [->|(m & Hm & Hopp)].
  - exfalso. destruct (findIndex_Some _ _ _ Ei) as (x & Hx & Hp).
    apply Hnin. unfold codes. apply in_map_iff. exists x. split.
    + unfold hasCode in Hp. apply String.eqb_eq in Hp. exact Hp.
    + apply list_elem_of_In. apply (list_elem_of_lookup_2 _ _ _ Hx).
  - apply (foldM_throws (fun s => codes s = codes teamRankings)); [| |reflexivity].
    + intros m' s Hm' Hs.
      destruct (in_dec string_dec (Opponent m') (codes s)) as [Hin|Hout].
      * left. destruct (seedMatch_known (FIBARanking t) i s m' Hin) as (s' & E & Hs').
        exists s'. split; [exact E | congruence].
      * right. apply seedMatch_stranger. exact Hout.
    + exists m. split; [exact Hm|]. intros s Hs. apply seedMatch_stranger.
      rewrite Hs, Hopp. exact Hnin.
Qed.

Lemma seedMatches_either (rankHome : number) (home : nat)
  (matches : list ExhibitionMatch) (teamRankings : list TeamRanking) :
  (exists teamRankings',
     foldM (seedMatch Math_pow rankHome home) matches teamRankings = Ok teamRankings'
     /\ codes teamRankings' = codes teamRankings)
  \/ foldM (seedMatch Math_pow rankHome home) matches teamRankings = Throw TypeError.
Proof.
  revert teamRankings. induction matches as [|m matches IH]; intros s.
  - left. exists s. split; reflexivity.
  - simpl. destruct (in_dec string_dec (Opponent m) (codes s)) as [Hin|Hout].
    + destruct (seedMatch_known rankHome home s m Hin) as (s' & E & Hs').
      rewrite E. simpl. destruct (IH s') as [(s'' & E' & Hs'')|E'].
      * left. exists s''. split; [exact E' | congruence].
      * right. exact E'.
    + rewrite (seedMatch_stranger _ _ _ _ Hout). right. reflexivity.
Qed.

Lemma seedTeam_either (exhibitions : object (list ExhibitionMatch))
  (teamRankings : list TeamRanking) (team : string) :
  (exists teamRankings',
     seedTeam Math_pow exhibitions teamRankings team = Ok teamRankings'
     /\ codes teamRankings' = codes teamRankings)
  \/ seedTeam Math_pow exhibitions teamRankings team = Throw TypeError.
Proof.
  unfold seedTeam.
  destruct (findIndex (hasCode team) teamRankings) as [i|]; [|right; reflexivity].
  simpl. destruct (teamRankings !! i) as [t|]; [|right; reflexivity]. simpl.
  destruct (obj_get exhibitions team) as [matches|]; [|right; reflexivity]. simpl.
  apply seedMatches_either.
Qed.

Lemma initial_teamRankings (groups : object (list TeamRecord)) :
  codes
    (fold_left
       (fun acc groupTeams =>
          acc ++ map (fun groupTeam => {| ranked := groupTeam; form := Num 0 |}) groupTeams)
       (map snd groups) [])
  = groupCodes groups.
Proof.
  unfold groupCodes.
  assert (H : forall (gs : list (list TeamRecord)) (acc : list TeamRanking),
             codes
               (fold_left
                  (fun acc groupTeams =>
                     acc ++
                     map (fun groupTeam => {| ranked := groupTeam; form := Num 0 |})
                       groupTeams) gs acc)
             = codes acc ++ map ISOCode (concat gs)).
  { induction gs as [|g gs IH]; intros acc; simpl.
    - rewrite app_nil_r. reflexivity.
    - rewrite IH. unfold codes. rewrite !map_app, map_map. simpl.
      rewrite <- app_assoc. reflexivity. }
  rewrite H. reflexivity.
Qed.

(** [getInitialForms] aborts exactly when the exhibition data refers to a
    team that is in no group. *)
Lemma getInitialForms_stranger (groups : object (list TeamRecord))
  (exhibitions : object (list ExhibitionMatch)) (code : string) :
  referenced exhibitions code ->
  ~ In code (groupCodes groups) ->
  getInitialForms Math_pow groups exhibitions = Throw TypeError.
Proof.
  intros (team & matches & Hkey & Hget & Href) Hnin.
  unfold getInitialForms. cbv zeta.
  rewrite (foldM_throws (fun s => codes s = groupCodes groups) _ _); [reflexivity| | |].
  - intros t s _ Hs. destruct (seedTeam_either exhibitions s t) as [(s' & E & Hs')|E].
    + left. exists s'. split; [exact E | congruence].
    + right. exact E.
  - exists team. split; [exact Hkey|]. intros s Hs.
    apply (seedTeam_stranger exhibitions s team matches code Hget Href).
    rewrite Hs. exact Hnin.
  - apply initial_teamRankings.
Qed.

Lemma getInitialForms_known (groups : object (list TeamRecord))
  (exhibitions : object (list ExhibitionMatch)) :
  (forall code, referenced exhibitions code -> In code (groupCodes groups)) ->
  exists form, getInitialForms Math_pow groups exhibitions = Ok form.
Proof.
  intros Hall. unfold getInitialForms. cbv zeta.
  destruct (foldM_returns (fun s => codes s = groupCodes groups)
              (seedTeam Math_pow exhibitions) (map fst exhibitions)) with
    (b := fold_left
            (fun acc groupTeams =>
               acc ++ map (fun groupTeam => {| ranked := groupTeam; form := Num 0 |})
                 groupTeams) (map snd groups) []) as (s' & E & _).
  - intros team s Hkey Hs.
    destruct (obj_get_of_key exhibitions team Hkey) as (matches & Hget).
    apply (seedTeam_known exhibitions s team matches (groupCodes groups) Hs).
    + apply Hall. exists team, matches. auto.
    + exact Hget.
    + intros m Hm. apply Hall. exists team, matches. repeat split; auto.
      right. exists m. auto.
  - apply initial_teamRankings.
  - rewrite E. simpl. eexists. reflexivity.
Qed.

End Seeding.

(** ** Scores that are not numbers *)

Lemma split_nonempty (sep : ascii) (s : string) : split sep s <> [].
Proof.
  induction s as [|c s IH]; simpl.
  - discriminate.
  - destruct (Ascii.eqb c sep); [discriminate|].
    destruct (split sep s); [contradiction | discriminate].
Qed.

Lemma nadd_NaN_r (x : number) : (x + NaN)%js = NaN.
Proof. destruct x; reflexivity. Qed.

Lemma fold_nadd_NaN (xs : list number) : fold_left nadd xs NaN = NaN.
Proof. induction xs as [|x xs IH]; [reflexivity | exact IH]. Qed.

Lemma fold_nadd_with_NaN (xs : list number) (x : number) :
  In NaN (x :: xs) -> fold_left nadd xs x = NaN.
Proof.
  revert x. induction xs as [|y xs IH]; intros x Hin.
  - destruct Hin as [->|[]]. reflexivity.
  - simpl. destruct Hin as [->|Hin].
    + apply fold_nadd_NaN.
    + destruct Hin as [->|Hin].
      * rewrite nadd_NaN_r. apply fold_nadd_NaN.
      * apply IH. right. exact Hin.
Qed.

(** The points of a match, as [getTotalPointsForTeam] reads them. *)
Lemma pointsInMatch_returns (m : ExhibitionMatch) :
  exists x, reduce1 nadd (map Number (split "-" (Result m))) = Ok x
            /\ (In NaN (map Number (split "-" (Result m))) -> x = NaN).
Proof.
  pose proof (split_nonempty "-" (Result m)) as Hne.
  destruct (split "-" (Result m)) as [|p ps]; [contradiction|].
  simpl. eexists. split; [reflexivity|]. intros Hin. apply fold_nadd_with_NaN. exact Hin.
Qed.

Lemma totalPoints_returns (matches : list ExhibitionMatch) :
  forall acc : number,
  exists total,
    foldM
      (fun acc m =>
         bindR (reduce1 nadd (map Number (split "-" (Result m))))
           (fun pointsInMatch => Ok (acc + Math_floor (pointsInMatch / Num 2))%js))
      matches acc
    = Ok total
    /\ (acc = NaN
        \/ (exists m, In m matches /\ In NaN (map Number (split "-" (Result m)))) ->
        total = NaN).
Proof.
  induction matches as [|m matches IH]; intros acc.
  - exists acc. split; [reflexivity|]. intros [H|(m & [] & _)]. exact H.
  - destruct (pointsInMatch_returns m) as (x & Ex & Hx).
    simpl. rewrite Ex. simpl.
    destruct (IH (acc + Math_floor (x / Num 2))%js) as (total & Et & Ht).
    exists total. split; [exact Et|].
    intros [Hacc|(m' & [<-|Hin] & Hnan)]; apply Ht.
    + left. rewrite Hacc. reflexivity.
    + left. rewrite (Hx Hnan). apply nadd_NaN_r.
    + right. exists m'. split; assumption.
Qed.

Lemma getTotalPointsForTeam_returns (exhibitions : object (list ExhibitionMatch))
  (team : string) (matches : list ExhibitionMatch) :
  obj_get exhibitions team = Some matches ->
  exists total,
    getTotalPointsForTeam exhibitions team = Ok total
    /\ ((exists m, In m matches /\ In NaN (map Number (split "-" (Result m)))) ->
        total = NaN).
Proof.
  intros Hget. unfold getTotalPointsForTeam. rewrite Hget. simpl bindR.
  destruct (totalPoints_returns matches (Num 0)) as (total & E & H).
  exists total. split; [exact E|]. intros Hm. apply H. right. exact Hm.
Qed.

Lemma getBaseScore_NaN (exhibitions : object (list ExhibitionMatch))
  (team1 team2 : string) (matches1 matches2 : list ExhibitionMatch) (m : ExhibitionMatch) :
  obj_get exhibitions team1 = Some matches1 ->
  obj_get exhibitions team2 = Some matches2 ->
  In m (matches1 ++ matches2) ->
  In NaN (map Number (split "-" (Result m))) ->
  getBaseScore exhibitions team1 team2 = Ok NaN.
Proof.
  intros H1 H2 Hin Hnan.
  destruct (getTotalPointsForTeam_returns exhibitions team1 matches1 H1) as (t1 & E1 & N1).
  destruct (getTotalPointsForTeam_returns exhibitions team2 matches2 H2) as (t2 & E2 & N2).
  unfold getBaseScore. rewrite E1, E2. simpl bindR.
  apply in_app_or in Hin. destruct Hin as [Hin|Hin].
  - rewrite N1 by (exists m; split; assumption). reflexivity.
  - rewrite N2 by (exists m; split; assumption). rewrite nadd_NaN_r. reflexivity.
Qed.

Lemma simulateMatch_NaN (exhibitions : object (list ExhibitionMatch)) (random : nat -> Q)
  (team1 team2 : TeamRecord) (st : State) :
  getBaseScore exhibitions (ISOCode team1) (ISOCode team2) = Ok NaN ->
  exists st',
    simulateMatch exhibitions random (Some team1) (Some team2) st
    = Ok ({| MatchScore.team1 := NaN; MatchScore.team2 := NaN |}, st').
Proof.
  intros Hbase.
  unfold simulateMatch, unroundedScores, bind, liftR, readForm, Math_random,
    modifyForm, ret. simpl. rewrite Hbase. simpl.
  eexists. reflexivity.
Qed.





(** ** Objects *)

Lemma obj_get_set_eq {A : Type} (o : object A) (k : string) (v : A) :
  obj_get (obj_set o k v) k = Some v.
Proof.
  induction o as [|[k' v'] o IH]; simpl.
  - rewrite String.eqb_refl. reflexivity.
  - destruct (String.eqb k' k) eqn:E; simpl; rewrite E; [reflexivity | exact IH].
Qed.

Lemma obj_get_set_ne {A : Type} (o : object A) (k k' : string) (v : A) :
  k <> k' -> obj_get (obj_set o k v) k' = obj_get o k'.
Proof.
  intros Hne. induction o as [|[k0 v0] o IH]; simpl.
  - destruct (String.eqb k k') eqn:E; [|reflexivity].
    apply String.eqb_eq in E. contradiction.
  - destruct (String.eqb k0 k) eqn:E; simpl.
    + apply String.eqb_eq in E. subst k0.
      replace (String.eqb k k') with false
        by (symmetry; apply String.eqb_neq; exact Hne).
      reflexivity.
    + rewrite IH. reflexivity.
Qed.

Lemma obj_set_set {A : Type} (o : object A) (k : string) (v v' : A) :
  obj_set (obj_set o k v) k v' = obj_set o k v'.
Proof.
  induction o as [|[k0 v0] o IH]; simpl.
  - rewrite String.eqb_refl. reflexivity.
  - destruct (String.eqb k0 k) eqn:E; simpl; rewrite E; [reflexivity|].
    rewrite IH. reflexivity.
Qed.

Lemma obj_set_fresh {A : Type} (o : object A) (k : string) (v : A) :
  ~ In k (map fst o) -> obj_set o k v = o ++ [(k, v)].
Proof.
  induction o as [|[k0 v0] o IH]; simpl; intros Hnin; [reflexivity|].
  destruct (String.eqb k0 k) eqn:E.
  - apply String.eqb_eq in E. exfalso. apply Hnin. left. exact E.
  - f_equal. apply IH. intros Hin. apply Hnin. right. exact Hin.
Qed.

(** ** The state monad *)

Lemma bind_Ok {A B : Type} (c : M A) (k : A -> M B) (st st' : State) (a : A) :
  c st = Ok (a, st') -> bind c k st = k a st'.
Proof. intros H. unfold bind. rewrite H. reflexivity. Qed.

(** ** Matches return *)

Lemma simulateMatch_returns (exhibitions : object (list ExhibitionMatch))
  (random : nat -> Q) (team1 team2 : TeamRecord) (h1 h2 : list ExhibitionMatch) (st : State) :
  obj_get exhibitions (ISOCode team1) = Some h1 ->
  obj_get exhibitions (ISOCode team2) = Some h2 ->
  exists (r : MatchScore) (st' : State),
    simulateMatch exhibitions random (Some team1) (Some team2) st = Ok (r, st').
Proof.
  intros H1 H2.
  destruct (getTotalPointsForTeam_returns exhibitions _ _ H1) as (t1 & E1 & _).
  destruct (getTotalPointsForTeam_returns exhibitions _ _ H2) as (t2 & E2 & _).
  unfold simulateMatch, bind, liftR, readForm, Math_random, modifyForm, ret,
    getBaseScore. simpl. rewrite E1, E2. simpl.
  eexists _, _. reflexivity.
Qed.

Lemma playMatch_Ok (exhibitions : object (list ExhibitionMatch)) (random : nat -> Q)
  (group : string) (results : object (list GroupMatch)) (t1 t2 : TeamRecord)
  (played : list GroupMatch) (r : MatchScore) (st st' : State) :
  simulateMatch exhibitions random (Some t1) (Some t2) st = Ok (r, st') ->
  obj_get results group = Some played ->
  playMatch exhibitions random group results (Some t1, Some t2) st
  = Ok (obj_set results group (played ++ [groupMatch t1 t2 r]), st').
Proof.
  intros Hsim Hget. unfold playMatch. rewrite (bind_Ok _ _ _ _ _ Hsim).
  unfold bind, liftR, ret. simpl. rewrite Hget. reflexivity.
Qed.

(** ** The round-robin schedule *)

Section RoundRobin.

Variable exhibitions : object (list ExhibitionMatch).
Variable random : nat -> Q.

Lemma roundRobinGroup_four (groups : object (list TeamRecord)) (group : string)
  (A B C D : TeamRecord) (results : object (list GroupMatch)) (st : State) :
  obj_get groups group = Some [A; B; C; D] ->
  hasHistory exhibitions A -> hasHistory exhibitions B -> hasHistory exhibitions C -> hasHistory exhibitions D ->
  exists (ms : list GroupMatch) (st' : State),
    roundRobinGroup exhibitions random groups results group st
    = Ok (obj_set results group ms, st')
    /\ sixMatches exhibitions random A B C D st st' ms.
Proof.
  intros Hget [hA HA] [hB HB] [hC HC] [hD HD].
  destruct (simulateMatch_returns exhibitions random A B hA hB st HA HB) as (r1 & s1 & E1).
  destruct (simulateMatch_returns exhibitions random C D hC hD s1 HC HD) as (r2 & s2 & E2).
  destruct (simulateMatch_returns exhibitions random A C hA hC s2 HA HC) as (r3 & s3 & E3).
  destruct (simulateMatch_returns exhibitions random B D hB hD s3 HB HD) as (r4 & s4 & E4).
  destruct (simulateMatch_returns exhibitions random A D hA hD s4 HA HD) as (r5 & s5 & E5).
  destruct (simulateMatch_returns exhibitions random B C hB hC s5 HB HC) as (r6 & s6 & E6).
  eexists _, s6. split.
  2:{ exists r1, r2, r3, r4, r5, r6, s1, s2, s3, s4, s5.
      split; [reflexivity|]. repeat split; eassumption. }
  unfold roundRobinGroup. cbv zeta.
  unfold bind at 1. unfold liftR at 1. rewrite Hget. cbn [defined].
  cbn [forM lookup list_lookup]. unfold bind.
  rewrite (playMatch_Ok _ _ _ _ _ _ _ _ _ _ E1 (obj_get_set_eq _ _ _)), obj_set_set.
  rewrite (playMatch_Ok _ _ _ _ _ _ _ _ _ _ E2 (obj_get_set_eq _ _ _)), obj_set_set.
  cbn [ret].
  rewrite (playMatch_Ok _ _ _ _ _ _ _ _ _ _ E3 (obj_get_set_eq _ _ _)), obj_set_set.
  rewrite (playMatch_Ok _ _ _ _ _ _ _ _ _ _ E4 (obj_get_set_eq _ _ _)), obj_set_set.
  cbn [ret].
  rewrite (playMatch_Ok _ _ _ _ _ _ _ _ _ _ E5 (obj_get_set_eq _ _ _)), obj_set_set.
  rewrite (playMatch_Ok _ _ _ _ _ _ _ _ _ _ E6 (obj_get_set_eq _ _ _)), obj_set_set.
  reflexivity.
Qed.

Lemma createRoundRobin_loop (groups : object (list TeamRecord)) (keys : list string) :
  NoDup keys ->
  (forall g, In g keys ->
     exists A B C D, obj_get groups g = Some [A; B; C; D]
                     /\ hasHistory exhibitions A /\ hasHistory exhibitions B /\ hasHistory exhibitions C /\ hasHistory exhibitions D) ->
  forall (results : object (list GroupMatch)) (st : State),
  (forall g, In g keys -> ~ In g (map fst results)) ->
  exists (results' : object (list GroupMatch)) (st' : State),
    forM (roundRobinGroup exhibitions random groups) keys results st = Ok (results', st')
    /\ map fst results' = map fst results ++ keys
    /\ (forall g, ~ In g keys -> obj_get results' g = obj_get results g)
    /\ (forall g A B C D, In g keys -> obj_get groups g = Some [A; B; C; D] ->
        exists (s0 s6 : State) (ms : list GroupMatch),
          obj_get results' g = Some ms /\ sixMatches exhibitions random A B C D s0 s6 ms).
Proof.
  intros Hnd. induction Hnd as [|g keys Hg Hnd IH]; intros Hfour results st Hfresh.
  - exists results, st. split; [reflexivity|]. split; [rewrite app_nil_r; reflexivity|].
    split; [reflexivity|]. intros g A B C D [].
  - destruct (Hfour g (or_introl eq_refl)) as (A & B & C & D & Hget & HA & HB & HC & HD).
    destruct (roundRobinGroup_four groups g A B C D results st Hget HA HB HC HD)
      as (ms & s6 & Estep & Hsix).
    assert (Hgfresh : ~ In g (map fst results)) by (apply Hfresh; left; reflexivity).
    rewrite (obj_set_fresh results g ms Hgfresh) in Estep.
    destruct (IH (fun g' Hin => Hfour g' (or_intror Hin)) (results ++ [(g, ms)]) s6)
      as (results' & st' & Eloop & Hkeys & Hold & Hnew).
    { intros g' Hin. rewrite map_app. simpl. intros Hin'. apply in_app_or in Hin'.
      destruct Hin' as [Hin'|[<-|[]]].
      - apply (Hfresh g' (or_intror Hin)). exact Hin'.
      - apply Hg. apply list_elem_of_In. exact Hin. }
    exists results', st'. split.
    { cbn [forM]. rewrite (bind_Ok _ _ _ _ _ Estep). exact Eloop. }
    split.
    { rewrite Hkeys, map_app. simpl. rewrite <- app_assoc. reflexivity. }
    split.
    { intros g' Hnin. rewrite Hold by (intros Hin; apply Hnin; right; exact Hin).
      rewrite <- (obj_set_fresh results g ms Hgfresh).
      apply obj_get_set_ne. intros ->. apply Hnin. left. reflexivity. }
    intros g' A' B' C' D' [<-|Hin] Hget'.
    + rewrite Hget in Hget'. injection Hget' as <- <- <- <-.
      exists st, s6, ms. split; [|exact Hsix].
      rewrite Hold by (intros Hin; apply Hg; apply list_elem_of_In; exact Hin).
      rewrite <- (obj_set_fresh results g ms Hgfresh). apply obj_get_set_eq.
    + apply (Hnew g' A' B' C' D' Hin Hget').
Qed.

Lemma sixMatches_cover (A B C D : TeamRecord) (s0 s6 : State) (ms : list GroupMatch) :
  sixMatches exhibitions random A B C D s0 s6 ms ->
  NoDup [Team A; Team B; Team C; Team D] ->
  forall x y : string,
    In x [Team A; Team B; Team C; Team D] ->
    In y [Team A; Team B; Team C; Team D] ->
    x <> y ->
    length (List.filter (betweenTeams x y) ms) = 1%nat.
Proof.
  intros (r1 & r2 & r3 & r4 & r5 & r6 & s1 & s2 & s3 & s4 & s5 & -> & _) Hnd x y Hx Hy Hxy.
  apply NoDup_cons in Hnd. destruct Hnd as [HA Hnd].
  apply NoDup_cons in Hnd. destruct Hnd as [HB Hnd].
  apply NoDup_cons in Hnd. destruct Hnd as [HC _].
  rewrite list_elem_of_In in HA. rewrite list_elem_of_In in HB.
  rewrite list_elem_of_In in HC.
  assert (AB : Team A <> Team B) by (intros E; apply HA; rewrite E; simpl; auto).
  assert (AC : Team A <> Team C) by (intros E; apply HA; rewrite E; simpl; auto).
  assert (AD : Team A <> Team D) by (intros E; apply HA; rewrite E; simpl; auto).
  assert (BC : Team B <> Team C) by (intros E; apply HB; rewrite E; simpl; auto).
  assert (BD : Team B <> Team D) by (intros E; apply HB; rewrite E; simpl; auto).
  assert (CD : Team C <> Team D) by (intros E; apply HC; rewrite E; simpl; auto).
  pose proof (proj2 (String.eqb_neq _ _) AB) as AB1.
  pose proof (proj2 (String.eqb_neq _ _) AC) as AC1.
  pose proof (proj2 (String.eqb_neq _ _) AD) as AD1.
  pose proof (proj2 (String.eqb_neq _ _) BC) as BC1.
  pose proof (proj2 (String.eqb_neq _ _) BD) as BD1.
  pose proof (proj2 (String.eqb_neq _ _) CD) as CD1.
  pose proof (proj2 (String.eqb_neq _ _) (not_eq_sym AB)) as AB2.
  pose proof (proj2 (String.eqb_neq _ _) (not_eq_sym AC)) as AC2.
  pose proof (proj2 (String.eqb_neq _ _) (not_eq_sym AD)) as AD2.
  pose proof (proj2 (String.eqb_neq _ _) (not_eq_sym BC)) as BC2.
  pose proof (proj2 (String.eqb_neq _ _) (not_eq_sym BD)) as BD2.
  pose proof (proj2 (String.eqb_neq _ _) (not_eq_sym CD)) as CD2.
  simpl in Hx, Hy.
  destruct Hx as [<-|[<-|[<-|[<-|[]]]]]; destruct Hy as [<-|[<-|[<-|[<-|[]]]]];
    try contradiction;
    unfold betweenTeams, groupMatch; cbn [List.filter name1 name2];
    rewrite ?String.eqb_refl, ?AB1, ?AC1, ?AD1, ?BC1, ?BD1, ?CD1,
      ?AB2, ?AC2, ?AD2, ?BC2, ?BD2, ?CD2;
    reflexivity.
Qed.

End RoundRobin.

Lemma obj_get_key {A : Type} (o : object A) (k : string) (v : A) :
  obj_get o k = Some v -> In k (map fst o).
Proof.
  induction o as [|[k0 v0] o IH]; simpl; [discriminate|].
  destruct (String.eqb k0 k) eqn:E.
  - intros _. left. apply String.eqb_eq. exact E.
  - intros H. right. apply IH. exact H.
Qed.

(** C5.  For groups of four teams [A, B, C, D] with exhibition histories,
    [createRoundRobin] returns, and the result list of every group is six
    matches, simulated one after the other and pushed in the order A-B,
    C-D, A-C, B-D, A-D, B-C; when the four names differ, each pair of them
    meets in exactly one of the six. *)
Theorem createRoundRobin_schedule
  (exhibitions : object (list ExhibitionMatch)) (random : nat -> Q)
  (groups : object (list TeamRecord)) (st : State) :
  NoDup (map fst groups) ->
  (forall g, In g (map fst groups) ->
     exists A B C D, obj_get groups g = Some [A; B; C; D]) ->
  (forall g teams t, obj_get groups g = Some teams -> In t teams ->
     hasHistory exhibitions t) ->
  exists (results : object (list GroupMatch)) (st' : State),
    createRoundRobin exhibitions random groups st = Ok (results, st')
    /\ map fst results = map fst groups
    /\ forall g A B C D, obj_get groups g = Some [A; B; C; D] ->
       exists (s0 s6 : State) (ms : list GroupMatch),
         obj_get results g = Some ms
         /\ sixMatches exhibitions random A B C D s0 s6 ms
         /\ length ms = 6%nat
         /\ (NoDup [Team A; Team B; Team C; Team D] ->
             forall x y : string,
               In x [Team A; Team B; Team C; Team D] ->
               In y [Team A; Team B; Team C; Team D] ->
               x <> y ->
               length (List.filter (betweenTeams x y) ms) = 1%nat).
Proof.
  intros Hnd Hfour Hhist.
  destruct (createRoundRobin_loop exhibitions random groups (map fst groups) Hnd)
    with (results := @nil (string * list GroupMatch)) (st := st)
    as (results & st' & Eloop & Hkeys & _ & Hnew).
  - intros g Hin. destruct (Hfour g Hin) as (A & B & C & D & Hget).
    exists A, B, C, D. split; [exact Hget|].
    repeat split; apply (Hhist g _ _ Hget); simpl; auto.
  - intros g _ [].
  - exists results, st'. split; [exact Eloop|]. split; [exact Hkeys|].
    intros g A B C D Hget.
    destruct (Hnew g A B C D (obj_get_key _ _ _ Hget) Hget) as (s0 & s6 & ms & Hms & Hsix).
    exists s0, s6, ms. split; [exact Hms|]. split; [exact Hsix|]. split.
    + destruct Hsix as (r1 & r2 & r3 & r4 & r5 & r6 & s1 & s2 & s3 & s4 & s5 & -> & _).
      reflexivity.
    + apply (sixMatches_cover exhibitions random A B C D s0 s6 ms Hsix).
Qed.

Lemma sampleGroups_have_histories (g : string) (teams : list TeamRecord) (t : TeamRecord) :
  obj_get sampleGroups g = Some teams -> In t teams -> hasHistory sampleExhibitions t.
Proof.
  unfold sampleGroups. cbn [obj_get].
  destruct (String.eqb "A" g);
    [|destruct (String.eqb "B" g); [|destruct (String.eqb "C" g); [|discriminate]]];
    intros [= <-] Hin; simpl in Hin;
    repeat (destruct Hin as [<-|Hin]; [eexists; vm_compute; reflexivity|]);
    destruct Hin.
Qed.

(** The three sample groups. *)
Lemma createRoundRobin_schedule_witness :
  exists (results : object (list GroupMatch)) (st' : State),
    createRoundRobin sampleExhibitions sampleRandom sampleGroups
      sampleState = Ok (results, st')
    /\ map fst results = ["A"; "B"; "C"].
Proof.
  destruct (createRoundRobin_schedule sampleExhibitions sampleRandom sampleGroups
              sampleState) as (results & st' & E & K & _).
  - apply (bool_decide_unpack _). vm_compute. reflexivity.
  - intros g Hin. simpl in Hin.
    destruct Hin as [<-|[<-|[<-|[]]]]; eexists _, _, _, _; reflexivity.
  - exact sampleGroups_have_histories.
  - exists results, st'. split; [exact E | exact K].
Defined.

(** ** Counting a match *)

Lemma alter_found {A : Type} (f : A -> A) (i : nat) (l : list A) (x : A) :
  l !! i = Some x -> alter f i l = <[i := f x]> l.
Proof.
  revert i. induction l as [|y l IH]; intros [|i] H; simpl in *; try discriminate.
  - injection H as ->. reflexivity.
  - f_equal. apply IH. exact H.
Qed.

Lemma alter_first {A : Type} (f : A -> A) (i1 i2 : nat) (l : list A) (x y : A) :
  i1 <> i2 -> (i1 < length l)%nat ->
  alter f i1 (<[i2 := y]> (<[i1 := x]> l)) = <[i2 := y]> (<[i1 := f x]> l).
Proof.
  intros Hne Hlen.
  rewrite (alter_found f i1 _ x).
  - rewrite list_insert_insert_ne by exact Hne. rewrite list_insert_insert_eq.
    reflexivity.
  - rewrite list_lookup_insert_ne by congruence.
    apply list_lookup_insert_eq. exact Hlen.
Qed.

Lemma alter_second {A : Type} (f : A -> A) (i1 i2 : nat) (l : list A) (x y : A) :
  (i2 < length l)%nat ->
  alter f i2 (<[i2 := y]> (<[i1 := x]> l)) = <[i2 := f y]> (<[i1 := x]> l).
Proof.
  intros Hlen.
  rewrite (alter_found f i2 _ y).
  - apply list_insert_insert_eq.
  - apply list_lookup_insert_eq. rewrite length_insert. exact Hlen.
Qed.

Lemma countMatch_tallied (teams : list Standing) (m : GroupMatch) (i1 i2 : nat)
  (a b : Standing) :
  findIndex (named (name1 m)) teams = Some i1 ->
  findIndex (named (name2 m)) teams = Some i2 ->
  i1 <> i2 ->
  teams !! i1 = Some a ->
  teams !! i2 = Some b ->
  let tie := (scored a + score1 m === scored b + score2 m)%js in
  let lower := (FIBARanking a <? FIBARanking b)%js in
  let won := (score1 m >? score2 m)%js in
  countMatch teams m
  = Ok (<[i2 := tallied b (score2 m) (score1 m) (tie && negb lower) (negb won)]>
        (<[i1 := tallied a (score1 m) (score2 m) (tie && lower) won]> teams)).
Proof.
  intros E1 E2 Hne Ha Hb tie lower won.
  assert (L1 : (i1 < length teams)%nat) by (apply lookup_lt_is_Some; eauto).
  assert (L2 : (i2 < length teams)%nat) by (apply lookup_lt_is_Some; eauto).
  unfold countMatch. rewrite E1, E2. cbn [bindR defined].
  assert (E4 : alter (addAllowed (score1 m)) i2
                 (alter (addScored (score2 m)) i2
                    (alter (addAllowed (score2 m)) i1
                       (alter (addScored (score1 m)) i1 teams)))
               = <[i2 := addAllowed (score1 m) (addScored (score2 m) b)]>
                   (<[i1 := addAllowed (score2 m) (addScored (score1 m) a)]> teams)).
  { assert (E0 : teams = <[i2 := b]> (<[i1 := a]> teams)).
    { rewrite (list_insert_id teams i1 a Ha). rewrite (list_insert_id teams i2 b Hb).
      reflexivity. }
    rewrite E0 at 1.
    rewrite (alter_first _ i1 i2 teams _ _ Hne L1).
    rewrite (alter_first _ i1 i2 teams _ _ Hne L1).
    rewrite (alter_second _ i1 i2 teams _ _ L2).
    rewrite (alter_second _ i1 i2 teams _ _ L2).
    reflexivity. }
  rewrite !E4.
  rewrite list_lookup_insert_ne by congruence.
  rewrite (list_lookup_insert_eq teams i1 _ L1).
  cbn [bindR defined].
  rewrite list_lookup_insert_eq by (rewrite length_insert; exact L2).
  cbn [bindR defined].
  change (scored (addAllowed (score2 m) (addScored (score1 m) a))
          === scored (addAllowed (score1 m) (addScored (score2 m) b)))%js with tie.
  change (FIBARanking (entry (addAllowed (score2 m) (addScored (score1 m) a)))
          <? FIBARanking (entry (addAllowed (score1 m) (addScored (score2 m) b))))%js
    with lower.
  fold won.
  unfold processTeamOneWin, processTeamTwoWin.
  destruct tie, lower, won; cbn [andb negb];
    rewrite ?(alter_first _ i1 i2 teams _ _ Hne L1), ?(alter_second _ i1 i2 teams _ _ L2),
      ?(alter_first _ i1 i2 teams _ _ Hne L1), ?(alter_second _ i1 i2 teams _ _ L2),
      ?(alter_first _ i1 i2 teams _ _ Hne L1);
    reflexivity.
Qed.

Lemma named_found (teams : list Standing) (name : string) :
  In name (map (fun t : Standing => Team t) teams) ->
  exists (i : nat) (a : Standing),
    findIndex (named name) teams = Some i /\ teams !! i = Some a /\ Team a = name.
Proof.
  intros Hin. destruct (findIndex (named name) teams) as [i|] eqn:E.
  - destruct (findIndex_Some _ _ _ E) as (a & Ha & Hn). exists i, a.
    repeat split; [exact Ha|]. apply String.eqb_eq. exact Hn.
  - exfalso. apply in_map_iff in Hin. destruct Hin as (t & Ht & Hin).
    pose proof (proj1 (findIndex_None _ _) E t Hin) as Hf.
    unfold named in Hf. rewrite Ht, String.eqb_refl in Hf. discriminate.
Qed.

Lemma tallied_finite (t : Standing) (for_ against : number) (bonus won : bool) :
  finiteStanding t -> isFinite for_ = true -> isFinite against = true ->
  finiteStanding (tallied t for_ against bonus won).
Proof.
  intros (Hp & Hs & Ha) Hf Hg. destruct t as [e p s a w l]. simpl in *.
  destruct p, s, a, for_, against; try discriminate.
  destruct bonus, won; repeat split.
Qed.

(** Counting a playable match returns, and keeps the teams and the
    finiteness of the entries. *)
Lemma countMatch_returns (groupTeams : list TeamRecord) (teams : list Standing)
  (m : GroupMatch) :
  map entry teams = groupTeams ->
  Forall finiteStanding teams ->
  playable groupTeams m ->
  exists teams',
    countMatch teams m = Ok teams'
    /\ map entry teams' = groupTeams
    /\ Forall finiteStanding teams'.
Proof.
  intros Hent Hfin (H1 & H2 & Hne & Hs1 & Hs2).
  assert (Hnames : map (fun t : Standing => Team t) teams = map Team groupTeams).
  { rewrite <- Hent, map_map. reflexivity. }
  rewrite <- Hnames in H1, H2.
  destruct (named_found teams _ H1) as (i1 & a & E1 & Ha & Na).
  destruct (named_found teams _ H2) as (i2 & b & E2 & Hb & Nb).
  assert (Hi : i1 <> i2).
  { intros ->. rewrite Ha in Hb. injection Hb as ->. apply Hne. congruence. }
  rewrite (countMatch_tallied teams m i1 i2 a b E1 E2 Hi Ha Hb).
  eexists. split; [reflexivity|]. split.
  - change (map entry ?l) with (entry <$> l).
    rewrite !list_fmap_insert. cbn [tallied entry].
    change (entry <$> teams) with (map entry teams).
    rewrite (list_insert_id (map entry teams) i1 (entry a)).
    2:{ change (map entry teams) with (entry <$> teams).
        rewrite list_lookup_fmap, Ha. reflexivity. }
    rewrite (list_insert_id (map entry teams) i2 (entry b)).
    2:{ change (map entry teams) with (entry <$> teams).
        rewrite list_lookup_fmap, Hb. reflexivity. }
    exact Hent.
  - pose proof (proj1 (Forall_forall _ _) Hfin) as Hall.
    assert (Fa : finiteStanding a)
      by (apply Hall; apply (list_elem_of_lookup_2 _ _ _ Ha)).
    assert (Fb : finiteStanding b)
      by (apply Hall; apply (list_elem_of_lookup_2 _ _ _ Hb)).
    apply Forall_insert; [apply Forall_insert; [exact Hfin|]|];
      apply tallied_finite; assumption.
Qed.

(** ** Sorting *)

Lemma insertSorted_perm {A : Type} (cmp : A -> A -> Q) (x : A) (arr : list A) :
  Permutation (x :: arr) (insertSorted cmp x arr).
Proof.
  induction arr as [|y arr IH]; simpl; [reflexivity|].
  destruct (Qle_bool (cmp x y) 0); [reflexivity|].
  rewrite perm_swap. apply perm_skip. exact IH.
Qed.

Lemma stableSort_perm {A : Type} (cmp : A -> A -> Q) (arr : list A) :
  Permutation arr (stableSort cmp arr).
Proof.
  induction arr as [|x arr IH]; simpl; [reflexivity|].
  rewrite <- insertSorted_perm. apply perm_skip. exact IH.
Qed.

Lemma insertSorted_sorted {A : Type} (R : A -> A -> Prop) (cmp : A -> A -> Q)
  (x : A) (arr : list A) :
  (forall y, In y arr ->
     (cmp x y <= 0 -> R x y) /\ (~ cmp x y <= 0 -> R y x)) ->
  Sorted R arr -> Sorted R (insertSorted cmp x arr).
Proof.
  intros Hcmp Hs. induction Hs as [|y arr Hs IH Hd]; simpl.
  - repeat constructor.
  - destruct (Qle_bool (cmp x y) 0) eqn:E.
    + constructor; [constructor; assumption|]. constructor.
      apply (Hcmp y (or_introl eq_refl)). apply Qle_bool_iff. exact E.
    + assert (Hyx : R y x).
      { apply (Hcmp y (or_introl eq_refl)). intros Hle.
        apply Qle_bool_iff in Hle. congruence. }
      constructor.
      * apply IH. intros z Hz. apply Hcmp. right. exact Hz.
      * destruct arr as [|z arr]; simpl; [constructor; exact Hyx|].
        destruct (Qle_bool (cmp x z) 0); constructor; [exact Hyx|].
        inversion Hd; assumption.
Qed.

Lemma stableSort_sorted {A : Type} (R : A -> A -> Prop) (cmp : A -> A -> Q)
  (arr : list A) :
  (forall x y, In x arr -> In y arr ->
     (cmp x y <= 0 -> R x y) /\ (~ cmp x y <= 0 -> R y x)) ->
  Sorted R (stableSort cmp arr).
Proof.
  induction arr as [|x arr IH]; intros Hcmp; simpl; [constructor|].
  apply insertSorted_sorted.
  - intros y Hy. apply Hcmp; [left; reflexivity|]. right.
    apply (Permutation_in y (Permutation_sym (stableSort_perm cmp arr))). exact Hy.
  - apply IH. intros a b Ha Hb. apply Hcmp; right; assumption.
Qed.

Lemma byPointsThenDifference_order (a b : Standing) :
  finiteStanding a -> finiteStanding b ->
  (compareValue byPointsThenDifference a b <= 0 -> inOrder a b)
  /\ (~ compareValue byPointsThenDifference a b <= 0 -> inOrder b a).
Proof.
  intros (Pa & Sa & Aa) (Pb & Sb & Ab).
  unfold compareValue, byPointsThenDifference, inOrder, pointsOf, differential.
  destruct a as [ea pa sa aa wa la], b as [eb pb sb ab wb lb]. simpl in *.
  destruct pa as [pa|], sa as [sa|], aa as [aa|], pb as [pb|], sb as [sb|], ab as [ab|];
    try discriminate.
  unfold nor, truthy. simpl.
  destruct (Qeq_bool (pb - pa) 0) eqn:E; simpl.
  - apply Qeq_bool_iff in E. split; intros H.
    + right. split; lra.
    + right. split; lra.
  - apply Qeq_bool_neq in E. split; intros H.
    + left. lra.
    + left. lra.
Qed.

Lemma inOrder_transitive (a b c : Standing) : inOrder a b -> inOrder b c -> inOrder a c.
Proof.
  unfold inOrder. intros [H1|[H1 H1']] [H2|[H2 H2']].
  - left. lra.
  - left. lra.
  - left. lra.
  - right. split; lra.
Qed.

Lemma newStanding_finite (groupTeams : list TeamRecord) :
  Forall finiteStanding (map newStanding groupTeams).
Proof.
  induction groupTeams as [|t ts IH]; simpl; constructor; [|exact IH].
  repeat split.
Qed.

Lemma rankGroup_standings (groups : object (list TeamRecord))
  (results : object (list GroupMatch)) (rankings : object (list Standing))
  (g : string) (groupTeams : list TeamRecord) (played : list GroupMatch) :
  obj_get groups g = Some groupTeams ->
  obj_get results g = Some played ->
  Forall (playable groupTeams) played ->
  exists tallies standings : list Standing,
    foldM countMatch played (map newStanding groupTeams) = Ok tallies
    /\ rankGroup groups results rankings g = Ok (obj_set rankings g standings)
    /\ Permutation tallies standings
    /\ StronglySorted inOrder standings
    /\ Forall finiteStanding standings.
Proof.
  intros Hg Hr Hplay.
  destruct (foldM_returns
              (fun teams => map entry teams = groupTeams /\ Forall finiteStanding teams)
              countMatch played) with (b := map newStanding groupTeams)
    as (tallies & Efold & Hent & Hfin).
  - intros m teams Hm [He Hf].
    rewrite Forall_forall in Hplay.
    destruct (countMatch_returns groupTeams teams m He Hf) as (teams' & E & He' & Hf').
    + apply Hplay. apply list_elem_of_In. exact Hm.
    + exists teams'. auto.
  - split; [|apply newStanding_finite].
    rewrite map_map. simpl. apply map_id.
  - exists tallies, (sort byPointsThenDifference tallies).
    split; [exact Efold|]. split.
    + unfold rankGroup. rewrite Hg. cbn [bindR defined]. rewrite Hr. cbn [bindR defined].
      rewrite Efold. reflexivity.
    + split; [apply stableSort_perm|]. split.
      * apply Sorted_StronglySorted; [intros a b c; apply inOrder_transitive|].
        apply stableSort_sorted. intros a b Ha Hb.
        rewrite Forall_forall in Hfin.
        apply byPointsThenDifference_order; apply Hfin; apply list_elem_of_In; assumption.
      * apply (Permutation_Forall (stableSort_perm _ tallies)). exact Hfin.
Qed.

Lemma rankTeams_loop (groups : object (list TeamRecord))
  (results : object (list GroupMatch)) (keys : list string) :
  NoDup keys ->
  (forall g, In g keys ->
     exists groupTeams played,
       obj_get groups g = Some groupTeams
       /\ obj_get results g = Some played
       /\ Forall (playable groupTeams) played) ->
  forall rankings : object (list Standing),
  (forall g, In g keys -> ~ In g (map fst rankings)) ->
  exists rankings' : object (list Standing),
    foldM (rankGroup groups results) keys rankings = Ok rankings'
    /\ map fst rankings' = map fst rankings ++ keys
    /\ (forall g, ~ In g keys -> obj_get rankings' g = obj_get rankings g)
    /\ (forall g groupTeams played,
          In g keys ->
          obj_get groups g = Some groupTeams ->
          obj_get results g = Some played ->
          exists tallies standings : list Standing,
            foldM countMatch played (map newStanding groupTeams) = Ok tallies
            /\ obj_get rankings' g = Some standings
            /\ Permutation tallies standings
            /\ StronglySorted inOrder standings
            /\ Forall finiteStanding standings).
Proof.
  intros Hnd. induction Hnd as [|g keys Hg Hnd IH]; intros Hok rankings Hfresh.
  - exists rankings. split; [reflexivity|]. split; [rewrite app_nil_r; reflexivity|].
    split; [reflexivity|]. intros g groupTeams played [].
  - destruct (Hok g (or_introl eq_refl)) as (groupTeams & played & Hgt & Hpl & Hplay).
    destruct (rankGroup_standings groups results rankings g groupTeams played Hgt Hpl Hplay)
      as (tallies & standings & Efold & Estep & Hperm & Hsorted & Hfinite).
    assert (Hgfresh : ~ In g (map fst rankings)) by (apply Hfresh; left; reflexivity).
    rewrite (obj_set_fresh rankings g standings Hgfresh) in Estep.
    destruct (IH (fun g' Hin => Hok g' (or_intror Hin)) (rankings ++ [(g, standings)]))
      as (rankings' & Eloop & Hkeys & Hold & Hnew).
    { intros g' Hin. rewrite map_app. simpl. intros Hin'. apply in_app_or in Hin'.
      destruct Hin' as [Hin'|[<-|[]]].
      - apply (Hfresh g' (or_intror Hin)). exact Hin'.
      - apply Hg. apply list_elem_of_In. exact Hin. }
    exists rankings'. split.
    { cbn [foldM]. rewrite Estep. exact Eloop. }
    split.
    { rewrite Hkeys, map_app. simpl. rewrite <- app_assoc. reflexivity. }
    split.
    { intros g' Hnin. rewrite Hold by (intros Hin; apply Hnin; right; exact Hin).
      rewrite <- (obj_set_fresh rankings g standings Hgfresh).
      apply obj_get_set_ne. intros ->. apply Hnin. left. reflexivity. }
    intros g' groupTeams' played' [<-|Hin] Hgt' Hpl'.
    + rewrite Hgt in Hgt'. injection Hgt' as <-. rewrite Hpl in Hpl'. injection Hpl' as <-.
      exists tallies, standings. split; [exact Efold|].
      split; [|split; [|split]; assumption].
      rewrite Hold by (intros Hin; apply Hg; apply list_elem_of_In; exact Hin).
      rewrite <- (obj_set_fresh rankings g standings Hgfresh). apply obj_get_set_eq.
    + apply (Hnew g' groupTeams' played' Hin Hgt' Hpl').
Qed.

(** C4.  [rankTeams] counts a match between two different teams [a], at
    position [i1], and [b], at position [i2], as follows: the scores go to
    scored and allowed of both; when the two scored totals are then equal,
    1 goes to scored of [a] if its FIBA ranking is the lower number, of
    [b] if not; then [a] gets 2 points and a win and [b] a loss if
    [score1 > score2], and [b] the 2 points and the win and [a] the loss
    if not, on the scores of the match.  For the matches of every group
    it returns the counted entries, all finite, ordered by points, then
    by scored minus allowed, both descending. *)
Theorem rankTeams_standings
  (groups : object (list TeamRecord)) (results : object (list GroupMatch)) :
  NoDup (map fst groups) ->
  (forall g groupTeams, obj_get groups g = Some groupTeams ->
     exists played, obj_get results g = Some played
                    /\ Forall (playable groupTeams) played) ->
  (forall (teams : list Standing) (m : GroupMatch) (i1 i2 : nat) (a b : Standing),
     findIndex (named (name1 m)) teams = Some i1 ->
     findIndex (named (name2 m)) teams = Some i2 ->
     i1 <> i2 ->
     teams !! i1 = Some a ->
     teams !! i2 = Some b ->
     let tie := (scored a + score1 m === scored b + score2 m)%js in
     let lower := (FIBARanking a <? FIBARanking b)%js in
     let won := (score1 m >? score2 m)%js in
     countMatch teams m
     = Ok (<[i2 := tallied b (score2 m) (score1 m) (tie && negb lower) (negb won)]>
           (<[i1 := tallied a (score1 m) (score2 m) (tie && lower) won]> teams)))
  /\ exists rankings : object (list Standing),
       rankTeams groups results = Ok rankings
       /\ map fst rankings = map fst groups
       /\ forall g groupTeams played,
            obj_get groups g = Some groupTeams ->
            obj_get results g = Some played ->
            exists tallies standings : list Standing,
              foldM countMatch played (map newStanding groupTeams) = Ok tallies
              /\ obj_get rankings g = Some standings
              /\ Permutation tallies standings
              /\ StronglySorted inOrder standings
              /\ Forall finiteStanding standings.
Proof.
  intros Hnd Hok. split; [exact countMatch_tallied|].
  destruct (rankTeams_loop groups results (map fst groups) Hnd) with
    (rankings := @nil (string * list Standing))
    as (rankings & Eloop & Hkeys & _ & Hnew).
  - intros g Hin.
    destruct (obj_get_of_key groups g Hin) as (groupTeams & Hget).
    destruct (Hok g groupTeams Hget) as (played & Hp).
    exists groupTeams, played. tauto.
  - intros g _ [].
  - exists rankings. split; [exact Eloop|]. split; [exact Hkeys|].
    intros g groupTeams played Hget Hpl.
    apply (Hnew g groupTeams played (obj_get_key _ _ _ Hget) Hget Hpl).
Qed.

(** The group and the results of the documented example. *)
Lemma rankTeams_standings_witness :
  exists rankings : object (list Standing),
    rankTeams sampleGroupA sampleResultsA = Ok rankings
    /\ map fst rankings = ["A"].
Proof.
  destruct (rankTeams_standings sampleGroupA sampleResultsA) as (_ & rankings & E & K & _).
  - apply (bool_decide_unpack _). vm_compute. reflexivity.
  - intros g groupTeams. unfold sampleGroupA. cbn [obj_get].
    destruct (String.eqb "A" g) eqn:Eg; [|discriminate].
    apply String.eqb_eq in Eg. subst g. intros [= <-].
    eexists. split; [reflexivity|].
    repeat (constructor;
            [unfold playable, finalScore; cbn; repeat split; try discriminate; auto 10|]).
    constructor.
  - exists rankings. split; [exact E | exact K].
Defined.

(** ** The bracket seeder *)

Lemma insertSorted_defined {A : Type} (comparefn : A -> A -> number) (x : A) (arr : list A) :
  insertSorted (SortCompare comparefn) (Some x) (map Some arr)
  = map Some (insertSorted (compareValue comparefn) x arr).
Proof.
  induction arr as [|y arr IH]; simpl; [reflexivity|].
  destruct (Qle_bool (compareValue comparefn x y) 0); simpl; [reflexivity|].
  rewrite IH. reflexivity.
Qed.

(** Sorting defined elements is sorting the objects. *)
Lemma sortValues_defined {A : Type} (comparefn : A -> A -> number) (arr : list A) :
  sortValues comparefn (map Some arr) = map Some (sort comparefn arr).
Proof.
  unfold sortValues, sort, stableSort.
  induction arr as [|x arr IH]; simpl; [reflexivity|].
  rewrite IH. apply insertSorted_defined.
Qed.

(** A pool of three finite entries comes out as the three in order. *)
Lemma rankGroups_three (a b c : Standing) :
  finiteStanding a -> finiteStanding b -> finiteStanding c ->
  exists x y z : Standing,
    sortValues byPointsThenDifference [Some a; Some b; Some c] = [Some x; Some y; Some z]
    /\ Permutation [a; b; c] [x; y; z]
    /\ StronglySorted inOrder [x; y; z].
Proof.
  intros Fa Fb Fc.
  change [Some a; Some b; Some c] with (map Some [a; b; c]).
  rewrite sortValues_defined.
  pose proof (stableSort_perm (compareValue byPointsThenDifference) [a; b; c]) as Hperm.
  assert (Hsorted : StronglySorted inOrder (sort byPointsThenDifference [a; b; c])).
  { apply Sorted_StronglySorted; [intros p q r; apply inOrder_transitive|].
    apply stableSort_sorted. intros p q Hp Hq.
    apply byPointsThenDifference_order.
    - simpl in Hp. destruct Hp as [<-|[<-|[<-|[]]]]; assumption.
    - simpl in Hq. destruct Hq as [<-|[<-|[<-|[]]]]; assumption. }
  fold (sort byPointsThenDifference [a; b; c]) in Hperm.
  pose proof (Permutation_length Hperm) as Hlen.
  destruct (sort byPointsThenDifference [a; b; c]) as [|x [|y [|z [|w l]]]];
    try discriminate Hlen.
  exists x, y, z. split; [reflexivity|]. split; assumption.
Qed.

(** C6.  From the standings of three groups with finite entries,
    [getTopEightTeams] returns eight teams: the three group winners in
    order of points then differential, the three runners-up in that order,
    and the first two of the three third-placed teams in that order.
    [getEliminationMatches] puts eight teams two by two into four pots and
    pairs the first of pot [i] with the second of pot [3 - i]. *)
Theorem bracket_seeding
  (rankings : object (list Standing))
  (a0 a1 a2 b0 b1 b2 c0 c1 c2 : Standing) (restA restB restC : list Standing) :
  obj_get rankings "A" = Some (a0 :: a1 :: a2 :: restA) ->
  obj_get rankings "B" = Some (b0 :: b1 :: b2 :: restB) ->
  obj_get rankings "C" = Some (c0 :: c1 :: c2 :: restC) ->
  Forall finiteStanding [a0; a1; a2; b0; b1; b2; c0; c1; c2] ->
  (exists f0 f1 f2 s0 s1 s2 t0 t1 t2 : Standing,
     getTopEightTeams rankings
     = Ok [Some f0; Some f1; Some f2; Some s0; Some s1; Some s2; Some t0; Some t1]
     /\ Permutation [a0; b0; c0] [f0; f1; f2]
     /\ StronglySorted inOrder [f0; f1; f2]
     /\ Permutation [a1; b1; c1] [s0; s1; s2]
     /\ StronglySorted inOrder [s0; s1; s2]
     /\ Permutation [a2; b2; c2] [t0; t1; t2]
     /\ StronglySorted inOrder [t0; t1; t2])
  /\ (forall x0 x1 x2 x3 x4 x5 x6 x7 : option Standing,
        let teams := [x0; x1; x2; x3; x4; x5; x6; x7] in
        let pot := fun i : nat => [mjoin (teams !! (2 * i)%nat);
                                  mjoin (teams !! (2 * i + 1)%nat)] in
        getEliminationMatches teams = Ok [(x0, x7); (x2, x5); (x4, x3); (x6, x1)]
        /\ forall i : nat, (i < 4)%nat ->
             [(x0, x7); (x2, x5); (x4, x3); (x6, x1)] !! i
             = Some (mjoin (pot i !! 0%nat), mjoin (pot (3 - i)%nat !! 1%nat))).
Proof.
  intros HA HB HC Hfin.
  repeat match goal with
         | H : Forall _ (_ :: _) |- _ =>
             apply Forall_cons in H; destruct H as [? H]
         end.
  split.
  - destruct (rankGroups_three a0 b0 c0) as (f0 & f1 & f2 & E1 & P1 & S1); try assumption.
    destruct (rankGroups_three a1 b1 c1) as (s0 & s1 & s2 & E2 & P2 & S2); try assumption.
    destruct (rankGroups_three a2 b2 c2) as (t0 & t1 & t2 & E3 & P3 & S3); try assumption.
    exists f0, f1, f2, s0, s1, s2, t0, t1, t2.
    split; [|repeat split; assumption].
    unfold getTopEightTeams. rewrite HA, HB, HC. cbn [bindR defined].
    cbn [lookup list_lookup]. rewrite E1, E2, E3. reflexivity.
  - intros x0 x1 x2 x3 x4 x5 x6 x7 teams pot. split; [reflexivity|].
    intros i Hi.
    destruct i as [|[|[|[|i]]]]; [reflexivity | reflexivity | reflexivity | reflexivity | lia].
Qed.

(** The sample standings. *)
Lemma bracket_seeding_witness :
  exists f0 f1 f2 s0 s1 s2 t0 t1 t2 : Standing,
    getTopEightTeams sampleRankings
    = Ok [Some f0; Some f1; Some f2; Some s0; Some s1; Some s2; Some t0; Some t1]
    /\ Permutation
         [mkStanding "Spanija" "ESP" 2 2 261 272 1 2;
          mkStanding "Brazil" "BRA" 12 2 260 249 1 2;
          mkStanding "Puerto Riko" "PRI" 16 2 258 289 1 2] [t0; t1; t2].
Proof.
  destruct (bracket_seeding sampleRankings
              (mkStanding "Australija" "AUS" 5 6 267 246 3 0)
              (mkStanding "Kanada" "CAN" 7 4 258 247 2 1)
              (mkStanding "Spanija" "ESP" 2 2 261 272 1 2)
              (mkStanding "Francuska" "FRA" 9 6 265 239 3 0)
              (mkStanding "Nemacka" "GER" 3 4 268 258 2 1)
              (mkStanding "Brazil" "BRA" 12 2 260 249 1 2)
              (mkStanding "Sjedinjene Drzave" "USA" 1 6 317 216 3 0)
              (mkStanding "Srbija" "SRB" 4 4 294 259 2 1)
              (mkStanding "Puerto Riko" "PRI" 16 2 258 289 1 2)
              [mkStanding "Grcka" "GRE" 14 0 243 264 0 3]
              [mkStanding "Japan" "JPN" 26 0 258 305 0 3]
              [mkStanding "Juzni Sudan" "SSD" 34 0 224 329 0 3])
    as ((f0 & f1 & f2 & s0 & s1 & s2 & t0 & t1 & t2 & E & _ & _ & _ & _ & P & _) & _).
  - reflexivity.
  - reflexivity.
  - reflexivity.
  - repeat constructor.
  - exists f0, f1, f2, s0, s1, s2, t0, t1, t2. split; [exact E | exact P].
Defined.

(** ** The knockout stage *)

Lemma simulateMatch_updates_form (exhibitions : object (list ExhibitionMatch))
  (random : nat -> Q) (t1 t2 : TeamRecord) (st st' : State) (r : MatchScore) :
  simulateMatch exhibitions random (Some t1) (Some t2) st = Ok (r, st') ->
  teamForm st'
  = updateTeamForm t1 t2 (MatchScore.team1 r) (MatchScore.team2 r) (teamForm st)
  /\ draws st' = (draws st + 3)%nat.
Proof.
  unfold simulateMatch, bind, liftR, readForm, Math_random, modifyForm, ret. simpl.
  destruct (getBaseScore exhibitions (ISOCode t1) (ISOCode t2)) as [base|]; [|discriminate].
  simpl. intros [= <- <-]. simpl. split; [reflexivity | lia].
Qed.

Lemma level_score_second (r : MatchScore) :
  MatchScore.team1 r = MatchScore.team2 r -> firstWins r = false.
Proof.
  unfold firstWins, ngt, nlt. intros ->.
  destruct (MatchScore.team2 r) as [q|]; [|reflexivity].
  apply Qltb_ge. apply Qle_refl.
Qed.

Lemma played_returns (exhibitions : object (list ExhibitionMatch)) (random : nat -> Q)
  (x y : Standing) (st : State) :
  hasHistory exhibitions x -> hasHistory exhibitions y ->
  exists (r : MatchScore) (st' : State),
    simulateMatch exhibitions random (teamOf (Some x)) (teamOf (Some y)) st = Ok (r, st').
Proof.
  intros [hx Hx] [hy Hy]. apply (simulateMatch_returns _ _ _ _ hx hy); assumption.
Qed.

Lemma winner_defined (exhibitions : object (list ExhibitionMatch)) (r : MatchScore)
  (x y : Standing) :
  hasHistory exhibitions x -> hasHistory exhibitions y ->
  exists w l : Standing,
    winner r (Some x) (Some y) = Some w /\ loser r (Some x) (Some y) = Some l
    /\ hasHistory exhibitions w /\ hasHistory exhibitions l.
Proof.
  intros Hx Hy. unfold winner, loser.
  destruct (firstWins r); [exists x, y | exists y, x]; auto.
Qed.



(** ** More on the base score *)

Lemma getTotalPointsForTeam_missing (exhibitions : object (list ExhibitionMatch))
  (team : string) :
  obj_get exhibitions team = None ->
  getTotalPointsForTeam exhibitions team = Throw TypeError.
Proof. intros H. unfold getTotalPointsForTeam. rewrite H. reflexivity. Qed.

Lemma getBaseScore_cases (exhibitions : object (list ExhibitionMatch))
  (team1 team2 : string) :
  (exists h1 h2 base,
     obj_get exhibitions team1 = Some h1 /\ obj_get exhibitions team2 = Some h2
     /\ getBaseScore exhibitions team1 team2 = Ok base)
  \/ ((obj_get exhibitions team1 = None \/ obj_get exhibitions team2 = None)
      /\ getBaseScore exhibitions team1 team2 = Throw TypeError).
Proof.
  unfold getBaseScore.
  destruct (obj_get exhibitions team1) as [h1|] eqn:E1.
  - destruct (getTotalPointsForTeam_returns exhibitions team1 h1 E1) as (t1 & T1 & _).
    rewrite T1. cbn [bindR].
    destruct (obj_get exhibitions team2) as [h2|] eqn:E2.
    + destruct (getTotalPointsForTeam_returns exhibitions team2 h2 E2) as (t2 & T2 & _).
      rewrite T2. cbn [bindR]. left. eexists h1, h2, _. repeat split.
    + rewrite (getTotalPointsForTeam_missing exhibitions team2 E2). cbn [bindR].
      right. split; [right|]; reflexivity.
  - rewrite (getTotalPointsForTeam_missing exhibitions team1 E1). cbn [bindR].
    right. split; [left|]; reflexivity.
Qed.

(** X1.  [getBaseScore] throws exactly when one of the two teams has no
    entry in the exhibition data; otherwise it returns, whatever the score
    strings are. *)
Theorem getBaseScore_throws_iff (exhibitions : object (list ExhibitionMatch))
  (team1 team2 : string) :
  (getBaseScore exhibitions team1 team2 = Throw TypeError
   <-> obj_get exhibitions team1 = None \/ obj_get exhibitions team2 = None)
  /\ ((exists base, getBaseScore exhibitions team1 team2 = Ok base)
      <-> (exists h1 h2, obj_get exhibitions team1 = Some h1
                         /\ obj_get exhibitions team2 = Some h2)).
Proof.
  destruct (getBaseScore_cases exhibitions team1 team2)
    as [(h1 & h2 & base & H1 & H2 & E)|[Hnone E]]; rewrite E; split; split.
  - discriminate.
  - rewrite H1, H2. intros [H|H]; discriminate H.
  - intros _. exists h1, h2. split; assumption.
  - intros _. exists base. reflexivity.
  - intros _. exact Hnone.
  - reflexivity.
  - intros [base H]. discriminate H.
  - intros (h1 & h2 & H1 & H2). destruct Hnone as [H|H]; congruence.
Qed.

(** X2.  The base score does not depend on the order of the two teams. *)
Theorem getBaseScore_symmetric (exhibitions : object (list ExhibitionMatch))
  (team1 team2 : string) :
  sameResult (getBaseScore exhibitions team1 team2) (getBaseScore exhibitions team2 team1).
Proof.
  unfold getBaseScore.
  destruct (getTotalPointsForTeam exhibitions team1) as [t1|e1];
    destruct (getTotalPointsForTeam exhibitions team2) as [t2|e2]; cbn [bindR sameResult];
    try exact I.
  destruct t1 as [q1|], t2 as [q2|]; try exact I.
  change (inject_Z (Qfloor ((q1 + q2) / 4)) - 6 == inject_Z (Qfloor ((q2 + q1) / 4)) - 6).
  assert (E : (q1 + q2) / 4 == (q2 + q1) / 4) by field.
  rewrite (Qfloor_comp _ _ E). reflexivity.
Qed.

(** ** More on the match simulator *)

(** X3.  [simulateMatch] returns exactly when both teams are defined and
    both have an entry in the exhibition data. *)
Theorem simulateMatch_returns_iff (exhibitions : object (list ExhibitionMatch))
  (random : nat -> Q) (team1 team2 : option TeamRecord) (st : State) :
  (exists r st', simulateMatch exhibitions random team1 team2 st = Ok (r, st'))
  <-> (exists a b, team1 = Some a /\ team2 = Some b
                   /\ hasHistory exhibitions a /\ hasHistory exhibitions b).
Proof.
  split.
  - intros (r & st' & H).
    destruct team2 as [b|]; [|discriminate H].
    destruct team1 as [a|]; [|discriminate H].
    exists a, b. split; [reflexivity|]. split; [reflexivity|].
    unfold simulateMatch, bind, liftR, readForm in H. simpl in H.
    destruct (getBaseScore_cases exhibitions (ISOCode a) (ISOCode b))
      as [(h1 & h2 & base & H1 & H2 & E)|[_ E]]; rewrite E in H; [|discriminate H].
    split; [exists h1 | exists h2]; assumption.
  - intros (a & b & -> & -> & [h1 H1] & [h2 H2]).
    apply (simulateMatch_returns exhibitions random a b h1 h2 st H1 H2).
Qed.

(** A match changes the form of the two teams only, and takes three
    values of [Math.random()]. *)
Lemma simulateMatch_frame (exhibitions : object (list ExhibitionMatch))
  (random : nat -> Q) (a b : TeamRecord) (st st' : State) (r : MatchScore) :
  simulateMatch exhibitions random (Some a) (Some b) st = Ok (r, st') ->
  draws st' = (draws st + 3)%nat
  /\ (forall code, code <> ISOCode a -> code <> ISOCode b ->
        teamForm st' !! code = teamForm st !! code).
Proof.
  intros H. destruct (simulateMatch_updates_form _ _ _ _ _ _ _ H) as [Hform Hdraws].
  split; [exact Hdraws|]. intros code Ha Hb. rewrite Hform. unfold updateTeamForm.
  cbv zeta. rewrite !lookup_insert_ne by congruence. reflexivity.
Qed.

Lemma getBaseScore_integer (exhibitions : object (list ExhibitionMatch))
  (team1 team2 : string) (base : Q) :
  getBaseScore exhibitions team1 team2 = Ok (Num base) ->
  exists b : Z, base == inject_Z b.
Proof.
  unfold getBaseScore.
  destruct (getTotalPointsForTeam exhibitions team1) as [t1|]; [|discriminate].
  destruct (getTotalPointsForTeam exhibitions team2) as [t2|]; [|discriminate].
  cbn [bindR]. destruct t1 as [q1|], t2 as [q2|]; try discriminate.
  intros [= <-]. exists (Qfloor ((q1 + q2) / 4) - 6)%Z.
  unfold Z.sub. rewrite inject_Z_plus. reflexivity.
Qed.

Lemma round_pair_total (x y : Q) (n : Z) :
  x + y == inject_Z n ->
  (Qfloor (x + (1 # 2)) + Qfloor (y + (1 # 2)) = n
   \/ Qfloor (x + (1 # 2)) + Qfloor (y + (1 # 2)) = n + 1)%Z.
Proof.
  intros Hsum.
  pose proof (Qfloor_le (x + (1 # 2))) as Lx.
  pose proof (Qlt_floor (x + (1 # 2))) as Ux.
  pose proof (Qfloor_le (y + (1 # 2))) as Ly.
  pose proof (Qlt_floor (y + (1 # 2))) as Uy.
  rewrite inject_Z_plus in Ux, Uy. change (inject_Z 1) with 1 in Ux, Uy.
  set (a := Qfloor (x + (1 # 2))) in *. set (b := Qfloor (y + (1 # 2))) in *.
  assert (H1 : inject_Z (a + b) <= inject_Z (n + 1)).
  { rewrite !inject_Z_plus. change (inject_Z 1) with 1. lra. }
  assert (H2 : inject_Z (n - 1) < inject_Z (a + b)).
  { replace (n - 1)%Z with (n + -1)%Z by lia.
    rewrite !inject_Z_plus. change (inject_Z (-1)) with (-1). lra. }
  rewrite <- Zle_Qle in H1. rewrite <- Zlt_Qlt in H2. lia.
Qed.


Lemma sampleRandom_range (i : nat) : 0 <= sampleRandom i < 1.
Proof.
  unfold sampleRandom.
  pose proof (Z.mod_pos_bound (Z.of_nat i * 37 + 11) 100 eq_refl) as [H0 H1].
  rewrite Zle_Qle in H0. rewrite Zlt_Qlt in H1.
  change (inject_Z 0) with 0 in H0. change (inject_Z 100) with 100 in H1.
  set (z := inject_Z ((Z.of_nat i * 37 + 11) mod 100)) in *.
  split.
  - apply Qle_shift_div_l; [reflexivity | lra].
  - apply Qlt_shift_div_r; [reflexivity | lra].
Qed.


(** ** More on the standings *)

Lemma entry_alter (f : Standing -> Standing) (i : nat) (teams : list Standing) :
  (forall t, entry (f t) = entry t) ->
  map entry (alter f i teams) = map entry teams.
Proof.
  intros Hf. revert i. induction teams as [|t teams IH]; intros [|i]; simpl;
    try reflexivity.
  - rewrite Hf. reflexivity.
  - f_equal. apply IH.
Qed.

Lemma named_missing (teams : list Standing) (name : string) :
  ~ In name (map Team (map entry teams)) -> findIndex (named name) teams = None.
Proof.
  intros Hnin. apply findIndex_None. intros t Ht. unfold named.
  destruct (String.eqb (Team t) name) eqn:E; [|reflexivity].
  apply String.eqb_eq in E. exfalso. apply Hnin. rewrite map_map.
  apply in_map_iff. exists t. split; assumption.
Qed.

Lemma named_known (teams : list Standing) (name : string) :
  In name (map Team (map entry teams)) ->
  exists i, findIndex (named name) teams = Some i /\ (i < length teams)%nat.
Proof.
  intros Hin. rewrite map_map in Hin.
  destruct (named_found teams name Hin) as (i & a & E & Ha & _).
  exists i. split; [exact E|]. apply lookup_lt_is_Some. eauto.
Qed.

(** Counting a match returns when both names are names of the teams, and
    keeps the teams; it throws when one is not. *)
Lemma countMatch_known (teams : list Standing) (m : GroupMatch) :
  In (name1 m) (map Team (map entry teams)) ->
  In (name2 m) (map Team (map entry teams)) ->
  exists teams', countMatch teams m = Ok teams' /\ map entry teams' = map entry teams.
Proof.
  intros H1 H2.
  destruct (named_known teams _ H1) as (i1 & E1 & L1).
  destruct (named_known teams _ H2) as (i2 & E2 & L2).
  unfold countMatch. rewrite E1, E2. cbn [bindR defined].
  set (counted := alter (addAllowed (score1 m)) i2
                    (alter (addScored (score2 m)) i2
                       (alter (addAllowed (score2 m)) i1
                          (alter (addScored (score1 m)) i1 teams)))).
  assert (Hlen : length counted = length teams).
  { unfold counted. rewrite !length_alter. reflexivity. }
  assert (Hent : map entry counted = map entry teams).
  { unfold counted. rewrite !entry_alter by reflexivity. reflexivity. }
  destruct (counted !! i1) as [a|] eqn:Ea.
  2:{ apply lookup_ge_None in Ea. lia. }
  destruct (counted !! i2) as [b|] eqn:Eb.
  2:{ apply lookup_ge_None in Eb. lia. }
  cbn [bindR defined]. eexists. split; [reflexivity|].
  unfold processTeamOneWin, processTeamTwoWin.
  destruct (scored a === scored b)%js, (FIBARanking a <? FIBARanking b)%js,
    (score1 m >? score2 m)%js;
    rewrite !entry_alter by reflexivity; exact Hent.
Qed.

Lemma countMatch_unknown (teams : list Standing) (m : GroupMatch) :
  ~ In (name1 m) (map Team (map entry teams))
  \/ ~ In (name2 m) (map Team (map entry teams)) ->
  countMatch teams m = Throw TypeError.
Proof.
  intros [H|H]; unfold countMatch.
  - rewrite (named_missing teams _ H). reflexivity.
  - rewrite (named_missing teams _ H).
    destruct (findIndex (named (name1 m)) teams); reflexivity.
Qed.

Lemma countMatches_cases (groupTeams : list TeamRecord) (played : list GroupMatch) :
  forall teams : list Standing,
  map entry teams = groupTeams ->
  (Forall (knownTeams groupTeams) played
   /\ exists teams', foldM countMatch played teams = Ok teams'
                     /\ map entry teams' = groupTeams)
  \/ (~ Forall (knownTeams groupTeams) played
      /\ foldM countMatch played teams = Throw TypeError).
Proof.
  induction played as [|m played IH]; intros teams Hent.
  - left. split; [constructor|]. exists teams. split; [reflexivity | exact Hent].
  - cbn [foldM].
    destruct (in_dec string_dec (name1 m) (map Team groupTeams)) as [H1|H1].
    + destruct (in_dec string_dec (name2 m) (map Team groupTeams)) as [H2|H2].
      * destruct (countMatch_known teams m) as (teams1 & E & Hent1);
          [rewrite Hent; exact H1 | rewrite Hent; exact H2 |].
        rewrite E. cbn [bindR].
        destruct (IH teams1 (eq_trans Hent1 Hent)) as [[Hall Hok]|[Hbad Hthrow]].
        -- left. split; [constructor; [split; assumption | exact Hall] | exact Hok].
        -- right. split; [|exact Hthrow].
           intros Hall. apply Hbad. apply Forall_cons in Hall. tauto.
      * right. split.
        -- intros Hall. apply Forall_cons in Hall. destruct Hall as [[_ Hk] _]. tauto.
        -- rewrite countMatch_unknown; [reflexivity|]. right. rewrite Hent. exact H2.
    + right. split.
      * intros Hall. apply Forall_cons in Hall. destruct Hall as [[Hk _] _]. tauto.
      * rewrite countMatch_unknown; [reflexivity|]. left. rewrite Hent. exact H1.
Qed.

Lemma newStanding_entries (groupTeams : list TeamRecord) :
  map entry (map newStanding groupTeams) = groupTeams.
Proof. rewrite map_map. simpl. apply map_id. Qed.

(** What [rankGroup] does with a group: it throws when the group has no
    result list or a match names a team that is not of the group, and
    otherwise stores the counted entries, sorted. *)
Lemma rankGroup_cases (groups : object (list TeamRecord))
  (results : object (list GroupMatch)) (rankings : object (list Standing))
  (g : string) (groupTeams : list TeamRecord) :
  obj_get groups g = Some groupTeams ->
  (exists played tallies,
     obj_get results g = Some played
     /\ Forall (knownTeams groupTeams) played
     /\ foldM countMatch played (map newStanding groupTeams) = Ok tallies
     /\ map entry tallies = groupTeams
     /\ rankGroup groups results rankings g
        = Ok (obj_set rankings g (sort byPointsThenDifference tallies)))
  \/ ((obj_get results g = None
       \/ exists played, obj_get results g = Some played
                         /\ ~ Forall (knownTeams groupTeams) played)
      /\ rankGroup groups results rankings g = Throw TypeError).
Proof.
  intros Hg. unfold rankGroup. rewrite Hg. cbn [bindR defined].
  destruct (obj_get results g) as [played|] eqn:Hr; cbn [bindR defined].
  - destruct (countMatches_cases groupTeams played (map newStanding groupTeams)
                (newStanding_entries groupTeams)) as [[Hall (tallies & E & Hent)]|[Hbad E]].
    + left. exists played, tallies. rewrite E. cbn [bindR]. repeat split; assumption.
    + right. rewrite E. split; [|reflexivity]. right. exists played. split; [reflexivity|].
      exact Hbad.
  - right. split; [left|]; reflexivity.
Qed.

Lemma rankTeams_loop_cases (groups : object (list TeamRecord))
  (results : object (list GroupMatch)) (keys : list string) :
  (forall g, In g keys -> exists groupTeams, obj_get groups g = Some groupTeams) ->
  forall rankings : object (list Standing),
  ((forall g, In g keys -> countable groups results g)
   /\ exists rankings',
        foldM (rankGroup groups results) keys rankings = Ok rankings'
        /\ (forall g groupTeams played,
              In g keys ->
              obj_get groups g = Some groupTeams ->
              obj_get results g = Some played ->
              exists standings,
                obj_get rankings' g = Some standings
                /\ rankedFrom groupTeams played standings)
        /\ (forall g, ~ In g keys -> obj_get rankings' g = obj_get rankings g))
  \/ ((exists g, In g keys /\ ~ countable groups results g)
      /\ foldM (rankGroup groups results) keys rankings = Throw TypeError).
Proof.
  induction keys as [|k keys IH]; intros Hkeys rankings.
  - left. split; [intros g []|]. exists rankings. split; [reflexivity|].
    split; [intros g groupTeams played []|]. reflexivity.
  - destruct (Hkeys k (or_introl eq_refl)) as (groupTeams & Hg).
    cbn [foldM].
    destruct (rankGroup_cases groups results rankings k groupTeams Hg)
      as [(played & tallies & Hr & Hall & Efold & Hent & Estep)|[Hbad Estep]];
      rewrite Estep; cbn [bindR].
    + destruct (IH (fun g Hin => Hkeys g (or_intror Hin))
                  (obj_set rankings k (sort byPointsThenDifference tallies)))
        as [(Hok & rankings' & Eloop & Hnew & Hold)|[(g & Hin & Hbad) Eloop]].
      * left. split.
        { intros g [<-|Hin]; [|apply Hok; exact Hin].
          exists groupTeams, played. repeat split; assumption. }
        exists rankings'. split; [exact Eloop|]. split.
        { intros g groupTeams' played' Hin Hg' Hr'.
          destruct (in_dec string_dec g keys) as [Hin'|Hnin].
          - apply (Hnew g groupTeams' played' Hin' Hg' Hr').
          - destruct Hin as [<-|Hin]; [|contradiction].
            rewrite Hg in Hg'. injection Hg' as <-. rewrite Hr in Hr'. injection Hr' as <-.
            exists (sort byPointsThenDifference tallies). split.
            + rewrite (Hold k Hnin). apply obj_get_set_eq.
            + exists tallies. repeat split; assumption. }
        { intros g Hnin. rewrite Hold by (intros Hin; apply Hnin; right; exact Hin).
          apply obj_get_set_ne. intros ->. apply Hnin. left. reflexivity. }
      * right. split; [|exact Eloop]. exists g. split; [right; exact Hin | exact Hbad].
    + right. split; [|reflexivity]. exists k. split; [left; reflexivity|].
      intros (groupTeams' & played' & Hg' & Hr' & Hall).
      rewrite Hg in Hg'. injection Hg' as <-.
      destruct Hbad as [Hnone|(played & Hr & Hbad)].
      * rewrite Hnone in Hr'. discriminate Hr'.
      * rewrite Hr in Hr'. injection Hr' as <-. contradiction.
Qed.

Lemma rankTeams_cases (groups : object (list TeamRecord))
  (results : object (list GroupMatch)) :
  ((forall g, In g (map fst groups) -> countable groups results g)
   /\ exists rankings,
        rankTeams groups results = Ok rankings
        /\ forall g groupTeams played,
             obj_get groups g = Some groupTeams ->
             obj_get results g = Some played ->
             exists standings,
               obj_get rankings g = Some standings
               /\ rankedFrom groupTeams played standings)
  \/ ((exists g, In g (map fst groups) /\ ~ countable groups results g)
      /\ rankTeams groups results = Throw TypeError).
Proof.
  destruct (rankTeams_loop_cases groups results (map fst groups)
              (obj_get_of_key groups) [])
    as [(Hok & rankings & E & Hnew & _)|[Hbad E]].
  - left. split; [exact Hok|]. exists rankings. split; [exact E|].
    intros g groupTeams played Hg Hr.
    apply (Hnew g groupTeams played (obj_get_key _ _ _ Hg) Hg Hr).
  - right. split; assumption.
Qed.

(** X5.  [rankTeams] returns exactly when every group has a result list
    whose matches are all between teams of the group; it throws
    [TypeError] as soon as a group has none or a match names a team that
    is not of the group. *)
Theorem rankTeams_returns_iff (groups : object (list TeamRecord))
  (results : object (list GroupMatch)) :
  ((exists rankings, rankTeams groups results = Ok rankings)
   <-> (forall g, In g (map fst groups) -> countable groups results g))
  /\ (rankTeams groups results = Throw TypeError
      <-> (exists g, In g (map fst groups) /\ ~ countable groups results g)).
Proof.
  destruct (rankTeams_cases groups results)
    as [(Hok & rankings & E & _)|[(g & Hin & Hbad) E]]; rewrite E; split; split.
  - intros _. exact Hok.
  - intros _. exists rankings. reflexivity.
  - discriminate.
  - intros (g & Hin & Hbad). exfalso. apply Hbad. apply Hok. exact Hin.
  - intros [rankings H]. discriminate H.
  - intros Hok. exfalso. apply Hbad. apply Hok. exact Hin.
  - intros _. exists g. split; assumption.
  - reflexivity.
Qed.

Lemma rankedFrom_teams (groupTeams : list TeamRecord) (played : list GroupMatch)
  (standings : list Standing) :
  rankedFrom groupTeams played standings ->
  Permutation groupTeams (map entry standings).
Proof.
  intros (tallies & _ & Hent & ->). rewrite <- Hent.
  apply Permutation_map. apply stableSort_perm.
Qed.

(** X6.  Whenever [rankTeams] returns, the standings of every group are
    the teams of the group, each once, in some order: no team is lost,
    added or repeated by the counting and the sorting. *)
Theorem rankTeams_keeps_teams (groups : object (list TeamRecord))
  (results : object (list GroupMatch)) (rankings : object (list Standing))
  (g : string) (groupTeams : list TeamRecord) :
  rankTeams groups results = Ok rankings ->
  obj_get groups g = Some groupTeams ->
  exists standings,
    obj_get rankings g = Some standings
    /\ Permutation groupTeams (map entry standings)
    /\ length standings = length groupTeams.
Proof.
  intros E Hg.
  destruct (rankTeams_cases groups results)
    as [(Hok & rankings' & E' & Hnew)|[_ E']]; rewrite E' in E; [|discriminate E].
  injection E as <-.
  destruct (Hok g (obj_get_key _ _ _ Hg)) as (groupTeams' & played & Hg' & Hr & _).
  destruct (Hnew g groupTeams played Hg Hr) as (standings & Hs & Hranked).
  exists standings. split; [exact Hs|].
  pose proof (rankedFrom_teams _ _ _ Hranked) as Hperm.
  split; [exact Hperm|].
  apply Permutation_length in Hperm. rewrite length_map in Hperm. symmetry. exact Hperm.
Qed.

(** The group and the results of the documented example. *)
Lemma rankTeams_keeps_teams_witness :
  exists rankings standings,
    rankTeams sampleGroupA sampleResultsA = Ok rankings
    /\ obj_get rankings "A" = Some standings
    /\ length standings = 4%nat.
Proof.
  destruct (rankTeams sampleGroupA sampleResultsA) as [rankings|] eqn:E;
    [|vm_compute in E; discriminate E].
  destruct (rankTeams_keeps_teams sampleGroupA sampleResultsA rankings "A"
              [ mkTeam "Kanada" "CAN" 7; mkTeam "Australija" "AUS" 5;
                mkTeam "Grcka" "GRE" 14; mkTeam "Spanija" "ESP" 2 ] E eq_refl)
    as (standings & Hs & _ & Hlen).
  exists rankings, standings. split; [reflexivity|]. split; [exact Hs | exact Hlen].
Defined.

(** ** What the counting keeps *)

Lemma total_insert (column : Standing -> number) (teams : list Standing) (i : nat)
  (x y : Standing) :
  teams !! i = Some x ->
  total column (<[i := y]> teams)
  == total column teams - value (column x) + value (column y).
Proof.
  revert i. induction teams as [|t teams IH]; intros [|i] H; simpl in *; try discriminate.
  - injection H as ->. ring.
  - rewrite (IH i H). ring.
Qed.

Lemma total_perm (column : Standing -> number) (l1 l2 : list Standing) :
  Permutation l1 l2 -> total column l1 == total column l2.
Proof.
  intros H. induction H; simpl.
  - reflexivity.
  - rewrite IHPermutation. reflexivity.
  - ring.
  - rewrite IHPermutation1. exact IHPermutation2.
Qed.

Lemma tallied_values (t : Standing) (for_ against : number) (bonus won : bool) :
  finiteTally t -> isFinite for_ = true -> isFinite against = true ->
  finiteTally (tallied t for_ against bonus won)
  /\ value (points (tallied t for_ against bonus won))
     == value (points t) + 2 * one_if won
  /\ value (wins (tallied t for_ against bonus won)) == value (wins t) + one_if won
  /\ value (losses (tallied t for_ against bonus won))
     == value (losses t) + one_if (negb won)
  /\ value (scored (tallied t for_ against bonus won))
     == value (scored t) + value for_ + one_if bonus
  /\ value (allowed (tallied t for_ against bonus won))
     == value (allowed t) + value against.
Proof.
  intros ((Hp & Hs & Ha) & Hw & Hl) Hf Hg.
  destruct t as [e p s a w l]. simpl in *.
  destruct p, s, a, w, l, for_, against; try discriminate.
  destruct bonus, won; unfold finiteTally, finiteStanding, one_if; simpl;
    repeat split; ring.
Qed.

Lemma countMatch_keeps_invariant (groupTeams : list TeamRecord) (teams : list Standing)
  (m : GroupMatch) (n : Q) :
  map entry teams = groupTeams ->
  playable groupTeams m ->
  tallyInvariant teams n ->
  exists teams',
    countMatch teams m = Ok teams'
    /\ map entry teams' = groupTeams
    /\ tallyInvariant teams' (n + 1).
Proof.
  intros Hent Hplay (Hfin & Hpts & Hwins & Hlosses & Hdiff).
  pose proof Hplay as (H1 & H2 & Hne & Hs1 & Hs2).
  assert (Hnames : map (fun t : Standing => Team t) teams = map Team groupTeams).
  { rewrite <- Hent, map_map. reflexivity. }
  rewrite <- Hnames in H1, H2.
  destruct (named_found teams _ H1) as (i1 & a & E1 & Ha & Na).
  destruct (named_found teams _ H2) as (i2 & b & E2 & Hb & Nb).
  assert (Hi : i1 <> i2).
  { intros ->. rewrite Ha in Hb. injection Hb as ->. apply Hne. congruence. }
  pose proof (countMatch_tallied teams m i1 i2 a b E1 E2 Hi Ha Hb) as Ecount.
  cbv zeta in Ecount.
  set (tie := (scored a + score1 m === scored b + score2 m)%js) in *.
  set (lower := (FIBARanking a <? FIBARanking b)%js) in *.
  set (won := (score1 m >? score2 m)%js) in *.
  set (a' := tallied a (score1 m) (score2 m) (tie && lower) won) in *.
  set (b' := tallied b (score2 m) (score1 m) (tie && negb lower) (negb won)) in *.
  pose proof (proj1 (Forall_forall _ _) Hfin) as Hall.
  assert (Fa : finiteTally a) by (apply Hall; apply (list_elem_of_lookup_2 _ _ _ Ha)).
  assert (Fb : finiteTally b) by (apply Hall; apply (list_elem_of_lookup_2 _ _ _ Hb)).
  pose proof (proj1 (Forall_forall _ _) Hpts) as Hallp.
  assert (Pa : pointsOf a == 2 * value (wins a))
    by (apply Hallp; apply (list_elem_of_lookup_2 _ _ _ Ha)).
  assert (Pb : pointsOf b == 2 * value (wins b))
    by (apply Hallp; apply (list_elem_of_lookup_2 _ _ _ Hb)).
  destruct (tallied_values a (score1 m) (score2 m) (tie && lower) won Fa Hs1 Hs2)
    as (Fa' & Ap & Aw & Al & As & Aa).
  destruct (tallied_values b (score2 m) (score1 m) (tie && negb lower) (negb won)
              Fb Hs2 Hs1) as (Fb' & Bp & Bw & Bl & Bs & Ba).
  fold a' in Fa', Ap, Aw, Al, As, Aa. fold b' in Fb', Bp, Bw, Bl, Bs, Ba.
  assert (Hb1 : <[i1 := a']> teams !! i2 = Some b)
    by (rewrite list_lookup_insert_ne by exact Hi; exact Hb).
  exists (<[i2 := b']> (<[i1 := a']> teams)). split; [exact Ecount|]. split.
  { destruct (countMatch_returns groupTeams teams m Hent) as (teams' & E & He & _).
    - apply (Forall_impl _ _ _ Hfin). intros t Ht. apply Ht.
    - exact Hplay.
    - rewrite Ecount in E. injection E as <-. exact He. }
  assert (T : forall column,
             total column (<[i2 := b']> (<[i1 := a']> teams))
             == total column teams - value (column a) + value (column a')
                - value (column b) + value (column b')).
  { intros column. rewrite (total_insert column _ i2 b b' Hb1).
    rewrite (total_insert column teams i1 a a' Ha). reflexivity. }
  assert (Hone : one_if won + one_if (negb won) == 1) by (destruct won; reflexivity).
  assert (Hbonus : 0 <= one_if (tie && lower) + one_if (tie && negb lower) <= 1).
  { destruct tie, lower; simpl; split; discriminate. }
  repeat split.
  - apply Forall_insert; [apply Forall_insert; [exact Hfin | exact Fa'] | exact Fb'].
  - apply Forall_insert; [apply Forall_insert; [exact Hpts|]|]; unfold pointsOf.
    + rewrite Ap, Aw. unfold pointsOf in Pa. rewrite Pa. ring.
    + rewrite Bp, Bw. unfold pointsOf in Pb. rewrite Pb. ring.
  - rewrite T, Aw, Bw, Hwins. lra.
  - rewrite T, Al, Bl, Hlosses. rewrite Bool.negb_involutive. lra.
  - rewrite (T scored), (T allowed), As, Bs, Aa, Ba. lra.
  - rewrite (T scored), (T allowed), As, Bs, Aa, Ba. lra.
Qed.

Lemma countMatches_keep_invariant (groupTeams : list TeamRecord)
  (played : list GroupMatch) :
  Forall (playable groupTeams) played ->
  forall (teams : list Standing) (n : Q),
  map entry teams = groupTeams ->
  tallyInvariant teams n ->
  exists tallies,
    foldM countMatch played teams = Ok tallies
    /\ tallyInvariant tallies (n + inject_Z (Z.of_nat (length played))).
Proof.
  induction 1 as [|m played Hm Hplay IH]; intros teams n Hent Hinv.
  - exists teams. split; [reflexivity|].
    destruct Hinv as (A & B & C & D & E). unfold tallyInvariant.
    change (inject_Z (Z.of_nat (length (@nil GroupMatch)))) with 0.
    repeat split; try assumption; try (rewrite Qplus_0_r; assumption).
    + destruct E as [E _]. exact E.
    + destruct E as [_ E]. rewrite Qplus_0_r. exact E.
  - destruct (countMatch_keeps_invariant groupTeams teams m n Hent Hm Hinv)
      as (teams1 & E1 & Hent1 & Hinv1).
    destruct (IH teams1 (n + 1) Hent1 Hinv1) as (tallies & E & Htallies).
    exists tallies. split; [cbn [foldM]; rewrite E1; exact E|].
    assert (En : n + 1 + inject_Z (Z.of_nat (length played))
                 == n + inject_Z (Z.of_nat (length (m :: played)))).
    { change (length (m :: played)) with (S (length played)).
      rewrite Nat2Z.inj_succ. unfold Z.succ. rewrite inject_Z_plus.
      change (inject_Z 1) with 1. ring. }
    destruct Htallies as (A & B & C & D & E').
    unfold tallyInvariant. rewrite <- En. repeat split; try assumption.
    + destruct E' as [E' _]. exact E'.
    + destruct E' as [_ E']. exact E'.
Qed.

Lemma newStanding_invariant (groupTeams : list TeamRecord) :
  tallyInvariant (map newStanding groupTeams) 0.
Proof.
  unfold tallyInvariant.
  induction groupTeams as [|t ts (A & B & C & D & E)]; simpl.
  - repeat split; try constructor; try reflexivity; discriminate.
  - repeat split.
    + constructor; [repeat split | exact A].
    + constructor; [reflexivity | exact B].
    + rewrite C. reflexivity.
    + rewrite D. reflexivity.
    + destruct E as [E _]. lra.
    + destruct E as [_ E]. lra.
Qed.

Lemma total_points (teams : list Standing) :
  Forall (fun t => pointsOf t == 2 * value (wins t)) teams ->
  total points teams == 2 * total wins teams.
Proof.
  induction 1 as [|t teams Ht _ IH]; simpl; [reflexivity|].
  unfold pointsOf in Ht. rewrite Ht, IH. ring.
Qed.

(** X7.  When the matches of a group are between different teams of the
    group and have finite scores, the standings [rankTeams] returns for it
    balance: every team has two points a win; over the group, wins and
    losses each add up to the number of matches and points to twice that;
    scored exceeds allowed by the tie-break points given, at least none
    and at most one a match, so the point differentials of a group need
    not add up to zero. *)
Theorem rankTeams_balance (groups : object (list TeamRecord))
  (results : object (list GroupMatch)) (rankings : object (list Standing))
  (g : string) (groupTeams : list TeamRecord) (played : list GroupMatch) :
  rankTeams groups results = Ok rankings ->
  obj_get groups g = Some groupTeams ->
  obj_get results g = Some played ->
  Forall (playable groupTeams) played ->
  let n := inject_Z (Z.of_nat (length played)) in
  exists standings,
    obj_get rankings g = Some standings
    /\ Forall (fun t => pointsOf t == 2 * value (wins t)) standings
    /\ total wins standings == n
    /\ total losses standings == n
    /\ total points standings == 2 * n
    /\ 0 <= total scored standings - total allowed standings <= n.
Proof.
  intros E Hg Hr Hplay n.
  destruct (rankTeams_cases groups results)
    as [(_ & rankings' & E' & Hnew)|[_ E']]; rewrite E' in E; [|discriminate E].
  injection E as <-.
  destruct (Hnew g groupTeams played Hg Hr) as (standings & Hs & tallies & Ef & _ & ->).
  destruct (countMatches_keep_invariant groupTeams played Hplay
              (map newStanding groupTeams) 0 (newStanding_entries groupTeams)
              (newStanding_invariant groupTeams)) as (tallies' & Ef' & Hinv).
  rewrite Ef in Ef'. injection Ef' as <-.
  destruct Hinv as (_ & Hpts & Hw & Hl & Hd).
  rewrite Qplus_0_l in Hw, Hl, Hd. fold n in Hw, Hl, Hd.
  pose proof (stableSort_perm (compareValue byPointsThenDifference) tallies) as Hperm.
  fold (sort byPointsThenDifference tallies) in Hperm.
  exists (sort byPointsThenDifference tallies). split; [exact Hs|].
  assert (Hpts' : Forall (fun t => pointsOf t == 2 * value (wins t))
                    (sort byPointsThenDifference tallies))
    by (apply (Permutation_Forall Hperm); exact Hpts).
  split; [exact Hpts'|].
  rewrite (total_points _ Hpts').
  rewrite <- !(total_perm _ _ _ Hperm). rewrite Hw, Hl.
  repeat split; try reflexivity; apply Hd.
Qed.

(** The group and the results of the documented example. *)
Lemma rankTeams_balance_witness :
  exists rankings standings,
    rankTeams sampleGroupA sampleResultsA = Ok rankings
    /\ obj_get rankings "A" = Some standings
    /\ total wins standings == 6
    /\ total points standings == 2 * 6.
Proof.
  destruct (rankTeams sampleGroupA sampleResultsA) as [rankings|] eqn:E;
    [|vm_compute in E; discriminate E].
  destruct (rankTeams_balance sampleGroupA sampleResultsA rankings "A"
              [ mkTeam "Kanada" "CAN" 7; mkTeam "Australija" "AUS" 5;
                mkTeam "Grcka" "GRE" 14; mkTeam "Spanija" "ESP" 2 ]
              [ finalScore "Kanada" "Australija" 74 83;
                finalScore "Grcka" "Spanija" 71 100;
                finalScore "Kanada" "Grcka" 84 77;
                finalScore "Australija" "Spanija" 80 78;
                finalScore "Kanada" "Spanija" 77 83;
                finalScore "Australija" "Grcka" 92 69 ] E eq_refl eq_refl)
    as (standings & Hs & _ & Hw & _ & Hp & _).
  - repeat (constructor;
            [unfold playable, finalScore; cbn; repeat split; try discriminate; auto 10|]).
    constructor.
  - exists rankings, standings. split; [reflexivity|]. split; [exact Hs|].
    split; [exact Hw | exact Hp].
Defined.

(** ** More on the bracket seeder *)

Lemma sortValues_perm {A : Type} (comparefn : A -> A -> number) (arr : list (option A)) :
  Permutation arr (sortValues comparefn arr).
Proof. apply stableSort_perm. Qed.

Lemma getTopEightTeams_cases (rankings : object (list Standing)) :
  (exists A B C top,
     obj_get rankings "A" = Some A /\ obj_get rankings "B" = Some B
     /\ obj_get rankings "C" = Some C
     /\ getTopEightTeams rankings = Ok top
     /\ length top = 8%nat
     /\ forall x, In (Some x) top -> topThree A x \/ topThree B x \/ topThree C x)
  \/ ((obj_get rankings "A" = None \/ obj_get rankings "B" = None
       \/ obj_get rankings "C" = None)
      /\ getTopEightTeams rankings = Throw TypeError).
Proof.
  unfold getTopEightTeams. cbv zeta.
  destruct (obj_get rankings "A") as [A|]; [|right; split; [left|]; reflexivity].
  destruct (obj_get rankings "B") as [B|]; [|right; split; [right; left|]; reflexivity].
  destruct (obj_get rankings "C") as [C|]; [|right; split; [right; right|]; reflexivity].
  left. exists A, B, C. cbn [bindR defined]. eexists. repeat split.
  - rewrite length_take, !length_app.
    rewrite <- !(Permutation_length (sortValues_perm byPointsThenDifference _)).
    reflexivity.
  - intros x Hin.
    assert (Hin' : In (Some x)
                     (sortValues byPointsThenDifference [A !! 0%nat; B !! 0%nat; C !! 0%nat]
                      ++ sortValues byPointsThenDifference
                           [A !! 1%nat; B !! 1%nat; C !! 1%nat]
                      ++ sortValues byPointsThenDifference
                           [A !! 2%nat; B !! 2%nat; C !! 2%nat])).
    { apply list_elem_of_In. apply list_elem_of_In in Hin.
      apply (subseteq_take 8 _ _ Hin). }
    rewrite !in_app_iff in Hin'.
    destruct Hin' as [H|[H|H]];
      apply (Permutation_in _ (Permutation_sym (sortValues_perm _ _))) in H;
      simpl in H; destruct H as [H|[H|[H|[]]]];
      first [ left; eexists; split; [|exact H]; lia
            | right; left; eexists; split; [|exact H]; lia
            | right; right; eexists; split; [|exact H]; lia ].
Qed.

(** X8.  [getTopEightTeams] reads the groups A, B and C only: it throws
    exactly when one of them is missing from the rankings; when it
    returns, the list has eight elements, whatever the sizes of the
    groups, and every team in it stands in one of the first three places
    of A, B or C. *)
Theorem getTopEightTeams_reads_three_groups (rankings : object (list Standing)) :
  (getTopEightTeams rankings = Throw TypeError
   <-> obj_get rankings "A" = None \/ obj_get rankings "B" = None
       \/ obj_get rankings "C" = None)
  /\ (forall top, getTopEightTeams rankings = Ok top ->
        length top = 8%nat
        /\ forall x, In (Some x) top ->
             exists g standings,
               In g ["A"; "B"; "C"]%string
               /\ obj_get rankings g = Some standings
               /\ topThree standings x).
Proof.
  destruct (getTopEightTeams_cases rankings)
    as [(A & B & C & top & HA & HB & HC & E & Hlen & Hin)|[Hnone E]]; rewrite E; split.
  - split; [discriminate|]. rewrite HA, HB, HC. intros [H|[H|H]]; discriminate H.
  - intros top' [= <-]. split; [exact Hlen|]. intros x Hx.
    destruct (Hin x Hx) as [H|[H|H]].
    + exists "A"%string, A. split; [simpl; auto|]. split; assumption.
    + exists "B"%string, B. split; [simpl; auto|]. split; assumption.
    + exists "C"%string, C. split; [simpl; auto|]. split; assumption.
  - split; [intros _; exact Hnone | reflexivity].
  - intros top H. discriminate H.
Qed.

(** The sample standings. *)
Lemma getTopEightTeams_reads_three_groups_witness :
  exists top, getTopEightTeams sampleRankings = Ok top /\ length top = 8%nat.
Proof.
  destruct (getTopEightTeams sampleRankings) as [top|] eqn:E;
    [|vm_compute in E; discriminate E].
  exists top. split; [reflexivity|].
  apply (proj2 (getTopEightTeams_reads_three_groups sampleRankings) top E).
Defined.

(** X9.  [getEliminationMatches] has four pots of two: for at most eight
    teams it returns four pairings, the first team of pot [i] against the
    second of pot [3 - i], a place that no team fills being [undefined];
    for more than eight it throws [TypeError] on the ninth. *)
Theorem getEliminationMatches_bounds (teams : list (option Standing)) :
  ((length teams <= 8)%nat ->
   let at_ := fun i : nat => mjoin (teams !! i) in
   getEliminationMatches teams
   = Ok [(at_ 0%nat, at_ 7%nat); (at_ 2%nat, at_ 5%nat);
         (at_ 4%nat, at_ 3%nat); (at_ 6%nat, at_ 1%nat)])
  /\ ((8 < length teams)%nat -> getEliminationMatches teams = Throw TypeError).
Proof.
  split.
  - intros Hlen at_. unfold at_.
    destruct teams as [|x0 [|x1 [|x2 [|x3 [|x4 [|x5 [|x6 [|x7 [|x8 rest]]]]]]]]];
      try reflexivity.
    simpl in Hlen. lia.
  - intros Hlen.
    destruct teams as [|x0 [|x1 [|x2 [|x3 [|x4 [|x5 [|x6 [|x7 [|x8 rest]]]]]]]]];
      simpl in Hlen; try lia.
    reflexivity.
Qed.

(** Three teams, and nine. *)
Lemma getEliminationMatches_bounds_witness :
  (forall x0 x1 x2 : option Standing,
     getEliminationMatches [x0; x1; x2]
     = Ok [(x0, None); (x2, None); (None, None); (None, x1)])
  /\ getEliminationMatches (replicate 9 None) = Throw TypeError.
Proof.
  split.
  - intros x0 x1 x2.
    refine (proj1 (getEliminationMatches_bounds [x0; x1; x2]) _). simpl. lia.
  - refine (proj2 (getEliminationMatches_bounds (replicate 9 None)) _). simpl. lia.
Defined.

(** ** The elimination stage returns or throws *)

Lemma bind_Throw {A B : Type} (c : M A) (k : A -> M B) (st : State) (e : error) :
  c st = Throw e -> bind c k st = Throw e.
Proof. intros H. unfold bind. rewrite H. reflexivity. Qed.

(** A loop whose iterations either keep the invariant or throw: it
    returns when every element is good, and throws at the first that is
    not. *)
Lemma forM_cases {A B : Type} (body : B -> A -> M B) (good : A -> Prop)
  (Inv : list A -> B -> State -> Prop) :
  (forall pre a b st, Inv pre b st ->
     (good a /\ exists b' st', body b a st = Ok (b', st') /\ Inv (pre ++ [a]) b' st')
     \/ (~ good a /\ body b a st = Throw TypeError)) ->
  forall arr pre b st, Inv pre b st ->
    (Forall good arr
     /\ exists b' st', forM body arr b st = Ok (b', st') /\ Inv (pre ++ arr) b' st')
    \/ (~ Forall good arr /\ forM body arr b st = Throw TypeError).
Proof.
  intros Hstep. induction arr as [|a arr IH]; intros pre b st HInv.
  - left. split; [constructor|]. exists b, st. rewrite app_nil_r. split; [reflexivity|].
    exact HInv.
  - cbn [forM].
    destruct (Hstep pre a b st HInv) as [(Ha & b1 & st1 & E & HInv1)|[Ha E]].
    + rewrite (bind_Ok _ _ _ _ _ E).
      destruct (IH (pre ++ [a]) b1 st1 HInv1) as [(Hall & b2 & st2 & E2 & HInv2)|[Hbad E2]].
      * left. split; [constructor; assumption|]. exists b2, st2. split; [exact E2|].
        rewrite <- app_assoc in HInv2. exact HInv2.
      * right. split; [|exact E2]. intros Hall. apply Hbad.
        apply Forall_cons in Hall. tauto.
    + right. split; [|apply bind_Throw; exact E]. intros Hall.
      apply Forall_cons in Hall. tauto.
Qed.

Lemma played_cases (exhibitions : object (list ExhibitionMatch)) (random : nat -> Q)
  (m : option Standing * option Standing) (st : State) :
  (pairingPlays exhibitions m
   /\ exists r st',
        simulateMatch exhibitions random (teamOf (fst m)) (teamOf (snd m)) st = Ok (r, st')
        /\ draws st' = (draws st + 3)%nat)
  \/ (~ pairingPlays exhibitions m
      /\ simulateMatch exhibitions random (teamOf (fst m)) (teamOf (snd m)) st
         = Throw TypeError).
Proof.
  destruct m as [[x|] [y|]]; cbn [fst snd];
    try (right; split; [intros (x' & y' & [=] & _) | reflexivity]).
  destruct (getBaseScore_cases exhibitions (ISOCode x) (ISOCode y))
    as [(h1 & h2 & base & H1 & H2 & E)|[Hnone E]].
  - left. split; [exists x, y; split; [reflexivity|]; split; [exists h1|exists h2]; assumption|].
    destruct (played_returns exhibitions random x y st) as (r & st' & Er);
      [exists h1; exact H1 | exists h2; exact H2 |].
    exists r, st'. split; [exact Er|].
    apply (simulateMatch_updates_form exhibitions random x y st st' r Er).
  - right. split.
    + intros (x' & y' & [= <- <-] & [h1 H1] & [h2 H2]).
      destruct Hnone as [H|H]; congruence.
    + unfold simulateMatch, bind, liftR, readForm. simpl. rewrite E. reflexivity.
Qed.

Lemma advances_winner (exhibitions : object (list ExhibitionMatch)) (b : bool)
  (x y : option Standing) :
  advances exhibitions x -> advances exhibitions y ->
  advances exhibitions (if b then x else y).
Proof. destruct b; auto. Qed.

Lemma getEliminationResults_cases (exhibitions : object (list ExhibitionMatch))
  (random : nat -> Q) (qf : list (option Standing * option Standing)) (st : State) :
  ((4 <= length qf)%nat
   /\ Forall (pairingPlays exhibitions) qf
   /\ exists res st',
        getEliminationResults exhibitions random qf st = Ok (res, st')
        /\ map pairing (quarterfinals res) = qf
        /\ length (semifinals res) = 2%nat
        /\ length (finals res) = 1%nat
        /\ length (bronze res) = 1%nat
        /\ draws st' = (draws st + 3 * (length qf + 4))%nat)
  \/ (((length qf < 4)%nat \/ ~ Forall (pairingPlays exhibitions) qf)
      /\ getEliminationResults exhibitions random qf st = Throw TypeError).
Proof.
  unfold getEliminationResults.
  match goal with
  | |- context [forM ?body qf ([], [])] =>
      destruct (forM_cases body (pairingPlays exhibitions)
                  (fun pre b st' =>
                     map pairing (fst b) = pre
                     /\ length (snd b) = length pre
                     /\ Forall (advances exhibitions) (snd b)
                     /\ draws st' = (draws st + 3 * length pre)%nat))
        with (arr := qf) (pre := @nil (option Standing * option Standing))
             (b := (@nil EliminationMatch, @nil (option Standing))) (st := st)
        as [(Hall & [p s] & st1 & E & Hmap & Hlen & Hadv & Hdraws)|[Hbad E]]
  end.
  - intros pre m [p s] st0 (Hmap & Hlen & Hadv & Hdraws). cbn [fst snd] in *.
    destruct (played_cases exhibitions random m st0)
      as [[Hm (r & st1 & E & Hd)]|[Hm E]].
    + left. split; [exact Hm|]. rewrite (bind_Ok _ _ _ _ _ E).
      eexists _, st1. split; [reflexivity|]. cbn [fst snd].
      split; [rewrite map_app, Hmap; reflexivity|].
      split; [rewrite !length_app, Hlen; reflexivity|].
      split.
      * apply Forall_app. split; [exact Hadv|]. constructor; [|constructor].
        destruct Hm as (x & y & -> & Hx & Hy). cbn [fst snd].
        apply advances_winner; eexists; split; try reflexivity; assumption.
      * rewrite length_app. simpl. lia.
    + right. split; [exact Hm|]. apply bind_Throw. exact E.
  - cbn [fst snd]. repeat split; [constructor | simpl; lia].
  - cbn [fst snd app] in *. rewrite (bind_Ok _ _ _ _ _ E). cbv beta iota.
    remember (simulateMatch exhibitions random) as sim eqn:Hsim.
    destruct s as [|w0 [|w1 [|w2 [|w3 rest]]]]; simpl in Hlen.
    1-4: right; split; [left; lia|].
    + subst sim. reflexivity.
    + subst sim. reflexivity.
    + apply Forall_cons in Hadv. destruct Hadv as [(x0 & -> & H0) Hadv].
      apply Forall_cons in Hadv. destruct Hadv as [(x1 & -> & H1) _].
      destruct (played_returns exhibitions random x0 x1 st1 H0 H1) as (h0 & st2 & E0).
      rewrite <- Hsim in E0. simpl. unfold bind. simpl in E0. rewrite E0.
      subst sim. reflexivity.
    + apply Forall_cons in Hadv. destruct Hadv as [(x0 & -> & H0) Hadv].
      apply Forall_cons in Hadv. destruct Hadv as [(x1 & -> & H1) _].
      destruct (played_returns exhibitions random x0 x1 st1 H0 H1) as (h0 & st2 & E0).
      rewrite <- Hsim in E0. simpl. unfold bind. simpl in E0. rewrite E0.
      subst sim. reflexivity.
    + left. split; [lia|]. split; [exact Hall|].
      apply Forall_cons in Hadv. destruct Hadv as [(x0 & -> & H0) Hadv].
      apply Forall_cons in Hadv. destruct Hadv as [(x1 & -> & H1) Hadv].
      apply Forall_cons in Hadv. destruct Hadv as [(x2 & -> & H2) Hadv].
      apply Forall_cons in Hadv. destruct Hadv as [(x3 & -> & H3) _].
      destruct (played_returns exhibitions random x0 x1 st1 H0 H1) as (h0 & st2 & E0).
      destruct (played_returns exhibitions random x2 x3 st2 H2 H3) as (h1 & st3 & E1).
      destruct (winner_defined exhibitions h0 x0 x1 H0 H1)
        as (f0 & g0 & F0 & G0 & Hf0 & Hg0).
      destruct (winner_defined exhibitions h1 x2 x3 H2 H3)
        as (f1 & g1 & F1 & G1 & Hf1 & Hg1).
      destruct (played_returns exhibitions random f0 f1 st3 Hf0 Hf1) as (fr & st4 & E2).
      destruct (played_returns exhibitions random g0 g1 st4 Hg0 Hg1) as (br & st5 & E3).
      pose proof (simulateMatch_updates_form _ _ _ _ _ _ _ E0) as [_ D0].
      pose proof (simulateMatch_updates_form _ _ _ _ _ _ _ E1) as [_ D1].
      pose proof (simulateMatch_updates_form _ _ _ _ _ _ _ E2) as [_ D2].
      pose proof (simulateMatch_updates_form _ _ _ _ _ _ _ E3) as [_ D3].
      unfold winner, loser, firstWins in F0, G0, F1, G1.
      rewrite <- Hsim in E0, E1, E2, E3. simpl in E0, E1, E2, E3.
      simpl. unfold bind. rewrite E0. simpl. rewrite E1. simpl.
      rewrite F0, F1, G0, G1. simpl. rewrite E2, E3.
      eexists _, st5. split; [reflexivity|]. simpl.
      split; [exact Hmap|]. repeat split. simpl in Hdraws. lia.
  - right. split; [right; exact Hbad|]. apply bind_Throw. exact E.
Qed.

(** X10.  [getEliminationResults] returns exactly when it is given at
    least four pairings and every pairing, one after the fourth included,
    is of two teams with an exhibition history; otherwise it throws
    [TypeError].  When it returns, every pairing given was played as a
    quarterfinal, in order, there are two semifinals, one final and one
    match for bronze, and each of these matches took three values of
    [Math.random()]. *)
Theorem getEliminationResults_returns_iff
  (exhibitions : object (list ExhibitionMatch)) (random : nat -> Q)
  (qf : list (option Standing * option Standing)) (st : State) :
  ((exists res st', getEliminationResults exhibitions random qf st = Ok (res, st'))
   <-> (4 <= length qf)%nat /\ Forall (pairingPlays exhibitions) qf)
  /\ (getEliminationResults exhibitions random qf st = Throw TypeError
      <-> (length qf < 4)%nat \/ ~ Forall (pairingPlays exhibitions) qf)
  /\ (forall res st',
        getEliminationResults exhibitions random qf st = Ok (res, st') ->
        map pairing (quarterfinals res) = qf
        /\ length (semifinals res) = 2%nat
        /\ length (finals res) = 1%nat
        /\ length (bronze res) = 1%nat
        /\ draws st' = (draws st + 3 * (length qf + 4))%nat).
Proof.
  destruct (getEliminationResults_cases exhibitions random qf st)
    as [(Hlen & Hall & res & st' & E & Hres)|[Hbad E]]; rewrite E.
  - split; [|split].
    + split; [intros _; split; assumption | intros _; exists res, st'; reflexivity].
    + split; [discriminate|]. intros [H|H]; [lia | contradiction].
    + intros res' st'' [= <- <-]. exact Hres.
  - split; [|split].
    + split; [intros (res & st' & H); discriminate H|].
      intros [Hlen Hall]. destruct Hbad as [H|H]; [lia | contradiction].
    + split; [intros _; exact Hbad | reflexivity].
    + intros res st' H. discriminate H.
Qed.

(** Three quarterfinals are not enough. *)
Lemma getEliminationResults_returns_iff_witness :
  getEliminationResults sampleExhibitions sampleRandom
    [ (Some (mkStanding "Sjedinjene Drzave" "USA" 1 6 317 216 3 0),
       Some (mkStanding "Spanija" "ESP" 2 2 261 272 1 2));
      (Some (mkStanding "Australija" "AUS" 5 6 267 246 3 0),
       Some (mkStanding "Nemacka" "GER" 3 4 268 258 2 1));
      (Some (mkStanding "Kanada" "CAN" 7 4 258 247 2 1),
       Some (mkStanding "Srbija" "SRB" 4 4 294 259 2 1)) ]
    sampleState = Throw TypeError.
Proof.
  apply (proj1 (proj2 (getEliminationResults_returns_iff sampleExhibitions sampleRandom
                         _ sampleState))).
  left. simpl. lia.
Defined.

(** ** The group stage returns or throws *)

Lemma simulateMatch_cases (exhibitions : object (list ExhibitionMatch))
  (random : nat -> Q) (team1 team2 : option TeamRecord) (st : State) :
  (exists a b r st',
     team1 = Some a /\ team2 = Some b
     /\ hasHistory exhibitions a /\ hasHistory exhibitions b
     /\ simulateMatch exhibitions random team1 team2 st = Ok (r, st')
     /\ draws st' = (draws st + 3)%nat)
  \/ ((~ playsIn exhibitions team1 \/ ~ playsIn exhibitions team2)
      /\ simulateMatch exhibitions random team1 team2 st = Throw TypeError).
Proof.
  destruct team2 as [b|];
    [|right; split; [right; intros (x & [=] & _) | reflexivity]].
  destruct team1 as [a|];
    [|right; split; [left; intros (x & [=] & _) | reflexivity]].
  destruct (getBaseScore_cases exhibitions (ISOCode a) (ISOCode b))
    as [(h1 & h2 & base & H1 & H2 & E)|[Hnone E]].
  - left. destruct (simulateMatch_returns exhibitions random a b h1 h2 st H1 H2)
      as (r & st' & Er).
    exists a, b, r, st'. split; [reflexivity|]. split; [reflexivity|].
    split; [exists h1; exact H1|]. split; [exists h2; exact H2|].
    split; [exact Er|].
    apply (simulateMatch_updates_form exhibitions random a b st st' r Er).
  - right. split.
    + destruct Hnone as [H|H]; [left|right]; intros (x & [= <-] & [h Hh]); congruence.
    + unfold simulateMatch, bind, liftR, readForm. simpl. rewrite E. reflexivity.
Qed.

Lemma playMatch_cases (exhibitions : object (list ExhibitionMatch)) (random : nat -> Q)
  (group : string) (results : object (list GroupMatch))
  (match_ : option TeamRecord * option TeamRecord) (played : list GroupMatch)
  (st : State) :
  obj_get results group = Some played ->
  (exists t1 t2 r st',
     match_ = (Some t1, Some t2)
     /\ hasHistory exhibitions t1 /\ hasHistory exhibitions t2
     /\ playMatch exhibitions random group results match_ st
        = Ok (obj_set results group (played ++ [groupMatch t1 t2 r]), st')
     /\ draws st' = (draws st + 3)%nat)
  \/ ((~ playsIn exhibitions (fst match_) \/ ~ playsIn exhibitions (snd match_))
      /\ playMatch exhibitions random group results match_ st = Throw TypeError).
Proof.
  intros Hget. destruct match_ as [m1 m2]. cbn [fst snd].
  destruct (simulateMatch_cases exhibitions random m1 m2 st)
    as [(a & b & r & st' & -> & -> & Ha & Hb & E & Hd)|[Hbad E]].
  - left. exists a, b, r, st'. split; [reflexivity|]. split; [exact Ha|].
    split; [exact Hb|]. split; [|exact Hd].
    apply (playMatch_Ok exhibitions random group results a b played r st st' E Hget).
  - right. split; [exact Hbad|]. unfold playMatch. cbn [fst snd].
    apply bind_Throw. exact E.
Qed.

Lemma groupMatch_known (teams : list TeamRecord) (i j : nat) (t1 t2 : TeamRecord)
  (r : MatchScore) :
  teams !! i = Some t1 -> teams !! j = Some t2 ->
  knownTeams teams (groupMatch t1 t2 r).
Proof.
  intros H1 H2. split; cbn [groupMatch name1 name2]; apply in_map;
    apply list_elem_of_In; eapply list_elem_of_lookup_2; eassumption.
Qed.

(** A match of the schedule throws: a place of the group holds no team
    that can play. *)
Ltac roundRobin_throws Hnot Hbad E :=
  right; rewrite E; split; [|reflexivity];
  cbn [fst snd] in Hbad; destruct Hbad as [Hbad|Hbad];
  refine (Hnot _ _ Hbad); simpl; auto.

Lemma roundRobinGroup_cases (exhibitions : object (list ExhibitionMatch))
  (random : nat -> Q) (groups : object (list TeamRecord))
  (results : object (list GroupMatch)) (g : string) (st : State) :
  (fourPlay exhibitions groups g
   /\ exists teams ms st',
        obj_get groups g = Some teams
        /\ roundRobinGroup exhibitions random groups results g st
           = Ok (obj_set results g ms, st')
        /\ length ms = 6%nat
        /\ Forall (knownTeams teams) ms
        /\ draws st' = (draws st + 18)%nat)
  \/ (~ fourPlay exhibitions groups g
      /\ roundRobinGroup exhibitions random groups results g st = Throw TypeError).
Proof.
  unfold roundRobinGroup. cbv zeta.
  destruct (obj_get groups g) as [teams|] eqn:Hg.
  2:{ right. split; [intros (teams & H & _); rewrite Hg in H; discriminate H|].
      reflexivity. }
  cbn [forM]. unfold bind, liftR. cbn [defined].
  assert (Hnot : forall i : nat, In i [0; 1; 2; 3]%nat ->
                 ~ playsIn exhibitions (teams !! i) -> ~ fourPlay exhibitions groups g).
  { intros i Hi Hn (teams' & Hg' & Hall). rewrite Hg in Hg'. injection Hg' as <-.
    apply Hn. rewrite Forall_forall in Hall. apply Hall. apply list_elem_of_In. exact Hi. }
  destruct (playMatch_cases exhibitions random g (obj_set results g [])
              (teams !! 0%nat, teams !! 1%nat) [] st (obj_get_set_eq _ _ _))
    as [(a1 & b1 & r1 & s1 & [= Ha1 Hb1] & HA & HB & E1 & D1)|[Hbad E1]];
    [|roundRobin_throws Hnot Hbad E1].
  rewrite E1, obj_set_set.
  destruct (playMatch_cases exhibitions random g (obj_set results g ([] ++ [groupMatch a1 b1 r1]))
              (teams !! 2%nat, teams !! 3%nat) _ s1 (obj_get_set_eq _ _ _))
    as [(a2 & b2 & r2 & s2 & [= Ha2 Hb2] & HC & HD & E2 & D2)|[Hbad E2]];
    [|roundRobin_throws Hnot Hbad E2].
  rewrite E2, obj_set_set. cbn [ret].
  destruct (playMatch_cases exhibitions random g
              (obj_set results g (([] ++ [groupMatch a1 b1 r1]) ++ [groupMatch a2 b2 r2]))
              (teams !! 0%nat, teams !! 2%nat) _ s2 (obj_get_set_eq _ _ _))
    as [(a3 & b3 & r3 & s3 & [= Ha3 Hb3] & _ & _ & E3 & D3)|[Hbad E3]];
    [|roundRobin_throws Hnot Hbad E3].
  rewrite E3, obj_set_set.
  destruct (playMatch_cases exhibitions random g
              (obj_set results g
                 ((([] ++ [groupMatch a1 b1 r1]) ++ [groupMatch a2 b2 r2])
                  ++ [groupMatch a3 b3 r3]))
              (teams !! 1%nat, teams !! 3%nat) _ s3 (obj_get_set_eq _ _ _))
    as [(a4 & b4 & r4 & s4 & [= Ha4 Hb4] & _ & _ & E4 & D4)|[Hbad E4]];
    [|roundRobin_throws Hnot Hbad E4].
  rewrite E4, obj_set_set. cbn [ret].
  destruct (playMatch_cases exhibitions random g
              (obj_set results g
                 (((([] ++ [groupMatch a1 b1 r1]) ++ [groupMatch a2 b2 r2])
                   ++ [groupMatch a3 b3 r3]) ++ [groupMatch a4 b4 r4]))
              (teams !! 0%nat, teams !! 3%nat) _ s4 (obj_get_set_eq _ _ _))
    as [(a5 & b5 & r5 & s5 & [= Ha5 Hb5] & _ & _ & E5 & D5)|[Hbad E5]];
    [|roundRobin_throws Hnot Hbad E5].
  rewrite E5, obj_set_set.
  destruct (playMatch_cases exhibitions random g
              (obj_set results g
                 ((((([] ++ [groupMatch a1 b1 r1]) ++ [groupMatch a2 b2 r2])
                    ++ [groupMatch a3 b3 r3]) ++ [groupMatch a4 b4 r4])
                  ++ [groupMatch a5 b5 r5]))
              (teams !! 1%nat, teams !! 2%nat) _ s5 (obj_get_set_eq _ _ _))
    as [(a6 & b6 & r6 & s6 & [= Ha6 Hb6] & _ & _ & E6 & D6)|[Hbad E6]];
    [|roundRobin_throws Hnot Hbad E6].
  rewrite E6, obj_set_set. cbn [ret].
  left. split.
  - exists teams. split; [exact Hg|].
    constructor; [exists a1; split; assumption|].
    constructor; [exists b1; split; assumption|].
    constructor; [exists a2; split; assumption|].
    constructor; [exists b2; split; assumption|]. constructor.
  - eexists teams, _, s6. split; [reflexivity|]. split; [reflexivity|].
    split; [reflexivity|]. split; [|lia].
    cbn [app]. repeat (constructor; [eapply groupMatch_known; eassumption|]).
    constructor.
Qed.

Lemma createRoundRobin_cases (exhibitions : object (list ExhibitionMatch))
  (random : nat -> Q) (groups : object (list TeamRecord)) (st : State) :
  (Forall (fourPlay exhibitions groups) (map fst groups)
   /\ exists results st',
        createRoundRobin exhibitions random groups st = Ok (results, st')
        /\ draws st' = (draws st + 18 * length groups)%nat
        /\ (forall g teams, obj_get groups g = Some teams ->
              exists ms, obj_get results g = Some ms
                         /\ length ms = 6%nat
                         /\ Forall (knownTeams teams) ms)
        /\ (forall g, obj_get groups g = None -> obj_get results g = None))
  \/ (~ Forall (fourPlay exhibitions groups) (map fst groups)
      /\ createRoundRobin exhibitions random groups st = Throw TypeError).
Proof.
  unfold createRoundRobin.
  destruct (forM_cases (roundRobinGroup exhibitions random groups)
              (fourPlay exhibitions groups)
              (fun pre results st' =>
                 draws st' = (draws st + 18 * length pre)%nat
                 /\ (forall g, In g pre ->
                       exists teams ms,
                         obj_get groups g = Some teams
                         /\ obj_get results g = Some ms
                         /\ length ms = 6%nat
                         /\ Forall (knownTeams teams) ms)
                 /\ (forall g, ~ In g pre -> obj_get results g = None)))
    with (arr := map fst groups) (pre := @nil string)
         (b := @nil (string * list GroupMatch)) (st := st)
    as [(Hall & results & st' & E & Hd & Hin & Hout)|[Hbad E]].
  - intros pre g results st0 (Hd & Hin & Hout).
    destruct (roundRobinGroup_cases exhibitions random groups results g st0)
      as [(Hg & teams & ms & st1 & Hget & E & Hlen & Hknown & D)|[Hg E]].
    + left. split; [exact Hg|]. exists (obj_set results g ms), st1.
      split; [exact E|]. split; [rewrite length_app; simpl; lia|]. split.
      * intros g' Hg'. destruct (string_dec g g') as [<-|Hne].
        -- exists teams, ms. rewrite obj_get_set_eq. auto.
        -- apply in_app_or in Hg'. destruct Hg' as [Hg'|[Hg'|[]]]; [|contradiction].
           destruct (Hin g' Hg') as (teams' & ms' & H1 & H2 & H3 & H4).
           exists teams', ms'. rewrite obj_get_set_ne by exact Hne. auto.
      * intros g' Hg'. rewrite obj_get_set_ne.
        -- apply Hout. intros H. apply Hg'. apply in_or_app. left. exact H.
        -- intros ->. apply Hg'. apply in_or_app. right. left. reflexivity.
    + right. split; assumption.
  - split; [simpl; lia|]. split; [intros g []|]. reflexivity.
  - left. split; [exact Hall|]. exists results, st'. split; [exact E|].
    cbn [app] in *. rewrite length_map in Hd. split; [exact Hd|]. split.
    + intros g teams Hg. destruct (Hin g (obj_get_key _ _ _ Hg)) as (teams' & ms & H1 & H2).
      rewrite Hg in H1. injection H1 as <-. exists ms. exact H2.
    + intros g Hg. apply Hout. intros Hin'.
      destruct (obj_get_of_key groups g Hin') as (teams & H). congruence.
  - right. split; assumption.
Qed.

(** X11.  [createRoundRobin] returns exactly when the first four places of
    every group hold teams with an exhibition history, and throws
    [TypeError] otherwise; a fifth team never plays.  When it returns,
    every group has six results, each between two teams of the group, no
    other key has a result list, and eighteen values of [Math.random()]
    were taken for each group. *)
Theorem createRoundRobin_returns_iff (exhibitions : object (list ExhibitionMatch))
  (random : nat -> Q) (groups : object (list TeamRecord)) (st : State) :
  ((exists results st', createRoundRobin exhibitions random groups st = Ok (results, st'))
   <-> Forall (fourPlay exhibitions groups) (map fst groups))
  /\ (createRoundRobin exhibitions random groups st = Throw TypeError
      <-> ~ Forall (fourPlay exhibitions groups) (map fst groups))
  /\ (forall results st',
        createRoundRobin exhibitions random groups st = Ok (results, st') ->
        draws st' = (draws st + 18 * length groups)%nat
        /\ (forall g teams, obj_get groups g = Some teams ->
              exists ms, obj_get results g = Some ms
                         /\ length ms = 6%nat
                         /\ Forall (knownTeams teams) ms)
        /\ (forall g, obj_get groups g = None -> obj_get results g = None)).
Proof.
  destruct (createRoundRobin_cases exhibitions random groups st)
    as [(Hall & results & st' & E & Hres)|[Hbad E]]; rewrite E.
  - split; [|split].
    + split; [intros _; exact Hall | intros _; exists results, st'; reflexivity].
    + split; [discriminate | intros H; contradiction].
    + intros results' st'' [= <- <-]. exact Hres.
  - split; [|split].
    + split; [intros (results & st' & H); discriminate H | intros H; contradiction].
    + split; [intros _; exact Hbad | reflexivity].
    + intros results st' H. discriminate H.
Qed.

(** A group of three teams. *)
Lemma createRoundRobin_returns_iff_witness :
  createRoundRobin sampleExhibitions sampleRandom
    [ ("A"%string, [ mkTeam "Kanada" "CAN" 7; mkTeam "Australija" "AUS" 5;
                     mkTeam "Grcka" "GRE" 14 ]) ]
    sampleState = Throw TypeError.
Proof.
  apply (proj1 (proj2 (createRoundRobin_returns_iff sampleExhibitions sampleRandom
                         _ sampleState))).
  intros Hall. apply Forall_cons in Hall. destruct Hall as [(teams & Hg & Hfour) _].
  injection Hg as <-.
  rewrite Forall_forall in Hfour.
  destruct (Hfour 3%nat) as (x & Hx & _); [repeat constructor|]. discriminate Hx.
Defined.

(** ** The whole tournament *)

Lemma bind_liftR_Ok {A B : Type} (r : result A) (k : A -> M B) (st : State) (a : A) :
  r = Ok a -> bind (liftR r) k st = k a st.
Proof. intros ->. reflexivity. Qed.

Lemma getEliminationMatches_pairs (teams : list (option Standing)) :
  (length teams <= 8)%nat ->
  getEliminationMatches teams
  = Ok [(mjoin (teams !! 0%nat), mjoin (teams !! 7%nat));
        (mjoin (teams !! 2%nat), mjoin (teams !! 5%nat));
        (mjoin (teams !! 4%nat), mjoin (teams !! 3%nat));
        (mjoin (teams !! 6%nat), mjoin (teams !! 1%nat))].
Proof.
  intros Hlen.
  destruct teams as [|x0 [|x1 [|x2 [|x3 [|x4 [|x5 [|x6 [|x7 [|x8 rest]]]]]]]]];
    try reflexivity.
  simpl in Hlen. lia.
Qed.

(** The standings of a group of at least three teams with histories fill
    the first three places with such teams. *)
Lemma standings_advance (exhibitions : object (list ExhibitionMatch))
  (teams : list TeamRecord) (standings : list Standing) (i : nat) :
  Permutation teams (map entry standings) ->
  Forall (hasHistory exhibitions) teams ->
  (i < length teams)%nat ->
  advances exhibitions (standings !! i).
Proof.
  intros Hperm Hhist Hi.
  assert (Hlen : (i < length standings)%nat).
  { rewrite <- (length_map entry), <- (Permutation_length Hperm). exact Hi. }
  destruct (lookup_lt_is_Some_2 standings i Hlen) as [x Hx].
  exists x. split; [exact Hx|].
  rewrite Forall_forall in Hhist. apply Hhist.
  apply list_elem_of_In. apply (Permutation_in _ (Permutation_sym Hperm)).
  apply in_map. apply list_elem_of_In. apply (list_elem_of_lookup_2 _ _ _ Hx).
Qed.

Lemma getTopEightTeams_advance (exhibitions : object (list ExhibitionMatch))
  (rankings : object (list Standing)) (A B C : list Standing) :
  obj_get rankings "A" = Some A ->
  obj_get rankings "B" = Some B ->
  obj_get rankings "C" = Some C ->
  Forall (fun i : nat => advances exhibitions (A !! i)) [0; 1; 2]%nat ->
  Forall (fun i : nat => advances exhibitions (B !! i)) [0; 1; 2]%nat ->
  Forall (fun i : nat => advances exhibitions (C !! i)) [0; 1; 2]%nat ->
  exists top,
    getTopEightTeams rankings = Ok top
    /\ length top = 8%nat
    /\ Forall (advances exhibitions) top.
Proof.
  intros HA HB HC FA FB FC.
  unfold getTopEightTeams. cbv zeta. rewrite HA, HB, HC. cbn [bindR defined].
  eexists. split; [reflexivity|].
  apply Forall_cons in FA. destruct FA as [A0 FA].
  apply Forall_cons in FA. destruct FA as [A1 FA].
  apply Forall_cons in FA. destruct FA as [A2 _].
  apply Forall_cons in FB. destruct FB as [B0 FB].
  apply Forall_cons in FB. destruct FB as [B1 FB].
  apply Forall_cons in FB. destruct FB as [B2 _].
  apply Forall_cons in FC. destruct FC as [C0 FC].
  apply Forall_cons in FC. destruct FC as [C1 FC].
  apply Forall_cons in FC. destruct FC as [C2 _].
  split.
  - rewrite length_take, !length_app.
    rewrite <- !(Permutation_length (sortValues_perm byPointsThenDifference _)).
    reflexivity.
  - apply Forall_take. rewrite !Forall_app.
    repeat split;
      apply (Permutation_Forall (sortValues_perm byPointsThenDifference _));
      repeat (constructor; [assumption|]); constructor.
Qed.

(** The run of [main] on groups that can all play. *)
Lemma main_cases (exhibitions : object (list ExhibitionMatch)) (random : nat -> Q)
  (groups : object (list TeamRecord)) (st : State) :
  Forall (fun g : string => In g (map fst groups)) ["A"; "B"; "C"]%string ->
  (forall g teams, obj_get groups g = Some teams ->
     (4 <= length teams)%nat /\ Forall (hasHistory exhibitions) teams) ->
  exists groupResults groupRankings eliminationResults rankedTeams st',
    main exhibitions random groups st
    = Ok ((groupResults, groupRankings, eliminationResults, rankedTeams), st')
    /\ draws st' = (draws st + 18 * length groups + 24)%nat
    /\ (forall g teams, obj_get groups g = Some teams ->
          exists played standings,
            obj_get groupResults g = Some played
            /\ length played = 6%nat
            /\ obj_get groupRankings g = Some standings
            /\ Permutation teams (map entry standings))
    /\ length rankedTeams = 8%nat
    /\ Forall (advances exhibitions) rankedTeams
    /\ map pairing (quarterfinals eliminationResults)
       = [(mjoin (rankedTeams !! 0%nat), mjoin (rankedTeams !! 7%nat));
          (mjoin (rankedTeams !! 2%nat), mjoin (rankedTeams !! 5%nat));
          (mjoin (rankedTeams !! 4%nat), mjoin (rankedTeams !! 3%nat));
          (mjoin (rankedTeams !! 6%nat), mjoin (rankedTeams !! 1%nat))]
    /\ length (semifinals eliminationResults) = 2%nat
    /\ length (finals eliminationResults) = 1%nat
    /\ length (bronze eliminationResults) = 1%nat.
Proof.
  intros Hkeys Hgroups.
  (* the group stage *)
  destruct (createRoundRobin_cases exhibitions random groups st)
    as [(_ & results & st1 & E1 & D1 & Hplayed & _)|[Hbad _]].
  2:{ exfalso. apply Hbad. apply Forall_forall. intros g Hg.
      apply list_elem_of_In in Hg.
      destruct (obj_get_of_key groups g Hg) as (teams & Hget).
      destruct (Hgroups g teams Hget) as [Hlen Hhist].
      exists teams. split; [exact Hget|].
      apply Forall_forall. intros i Hi.
      assert (Hlt : (i < length teams)%nat).
      { apply list_elem_of_In in Hi. simpl in Hi. lia. }
      destruct (lookup_lt_is_Some_2 teams i Hlt) as [x Hx].
      exists x. split; [exact Hx|].
      rewrite Forall_forall in Hhist. apply Hhist.
      apply (list_elem_of_lookup_2 _ _ _ Hx). }
  (* the standings *)
  destruct (rankTeams_cases groups results)
    as [(_ & rankings & E2 & Hranked)|[(g & Hg & Hbad) _]].
  2:{ exfalso. apply Hbad. destruct (obj_get_of_key groups g Hg) as (teams & Hget).
      destruct (Hplayed g teams Hget) as (ms & Hms & _ & Hknown).
      exists teams, ms. auto. }
  assert (Hstand : forall g teams, obj_get groups g = Some teams ->
            exists played standings,
              obj_get results g = Some played
              /\ length played = 6%nat
              /\ obj_get rankings g = Some standings
              /\ Permutation teams (map entry standings)).
  { intros g teams Hget. destruct (Hplayed g teams Hget) as (ms & Hms & Hlen & _).
    destruct (Hranked g teams ms Hget Hms) as (standings & Hs & Hfrom).
    exists ms, standings. repeat split; try assumption.
    apply (rankedFrom_teams _ _ _ Hfrom). }
  (* the top eight *)
  assert (Hthree : forall g, In g ["A"; "B"; "C"]%string ->
            exists standings,
              obj_get rankings g = Some standings
              /\ Forall (fun i : nat => advances exhibitions (standings !! i))
                   [0; 1; 2]%nat).
  { intros g Hg. rewrite Forall_forall in Hkeys.
    destruct (obj_get_of_key groups g (Hkeys g (proj2 (list_elem_of_In _ _) Hg)))
      as (teams & Hget).
    destruct (Hstand g teams Hget) as (ms & standings & _ & _ & Hs & Hperm).
    destruct (Hgroups g teams Hget) as [Hlen Hhist].
    exists standings. split; [exact Hs|].
    apply Forall_forall. intros i Hi. apply list_elem_of_In in Hi.
    apply (standings_advance exhibitions teams standings i Hperm Hhist).
    simpl in Hi. lia. }
  destruct (Hthree "A"%string) as (A & HA & FA); [simpl; auto|].
  destruct (Hthree "B"%string) as (B & HB & FB); [simpl; auto|].
  destruct (Hthree "C"%string) as (C & HC & FC); [simpl; auto|].
  destruct (getTopEightTeams_advance exhibitions rankings A B C HA HB HC FA FB FC)
    as (top & E3 & Hlen & Hadv).
  (* the bracket *)
  pose proof (getEliminationMatches_pairs top) as E4.
  rewrite Hlen in E4. specialize (E4 (le_n 8)).
  assert (Hat : forall i : nat, (i < 8)%nat ->
            exists x : Standing, mjoin (top !! i) = Some x /\ hasHistory exhibitions x).
  { intros i Hi. rewrite <- Hlen in Hi.
    destruct (lookup_lt_is_Some_2 top i Hi) as [w Hw].
    rewrite Forall_forall in Hadv. destruct (Hadv w (list_elem_of_lookup_2 _ _ _ Hw))
      as (x & -> & Hx).
    exists x. rewrite Hw. split; [reflexivity | exact Hx]. }
  assert (Hpair : forall i j : nat, (i < 8)%nat -> (j < 8)%nat ->
            pairingPlays exhibitions (mjoin (top !! i), mjoin (top !! j))).
  { intros i j Hi Hj. destruct (Hat i Hi) as (x & -> & Hx).
    destruct (Hat j Hj) as (y & -> & Hy). exists x, y. auto. }
  destruct (getEliminationResults_cases exhibitions random
              [(mjoin (top !! 0%nat), mjoin (top !! 7%nat));
               (mjoin (top !! 2%nat), mjoin (top !! 5%nat));
               (mjoin (top !! 4%nat), mjoin (top !! 3%nat));
               (mjoin (top !! 6%nat), mjoin (top !! 1%nat))] st1)
    as [(_ & _ & res & st2 & E5 & Hq & Hs & Hf & Hb & D5)|[[Hbad|Hbad] _]].
  - exists results, rankings, res, top, st2. split.
    + unfold main. rewrite (bind_Ok _ _ _ _ _ E1).
      rewrite (bind_liftR_Ok _ _ _ _ E2), (bind_liftR_Ok _ _ _ _ E3),
        (bind_liftR_Ok _ _ _ _ E4), (bind_Ok _ _ _ _ _ E5).
      reflexivity.
    + split; [simpl in D5; lia|]. split; [exact Hstand|]. auto 10.
  - simpl in Hbad. lia.
  - exfalso. apply Hbad. repeat (constructor; [apply Hpair; lia|]). constructor.
Qed.

(** X12.  On three or more groups, A, B and C among them, each of at
    least four teams that all have an exhibition history, [main] runs
    through to the call of [outputResults] without an exception: every
    group gets its six results and standings that hold each of its teams
    once, eight teams are seeded, all eight places filled, the
    quarterfinals are the four pairings of the pots, two semifinals, one
    final and one match for bronze follow, and [Math.random()] was called
    three times for each of the matches. *)
Theorem main_returns (exhibitions : object (list ExhibitionMatch)) (random : nat -> Q)
  (groups : object (list TeamRecord)) (st : State) :
  Forall (fun g : string => In g (map fst groups)) ["A"; "B"; "C"]%string ->
  (forall g teams, obj_get groups g = Some teams ->
     (4 <= length teams)%nat /\ Forall (hasHistory exhibitions) teams) ->
  exists groupResults groupRankings eliminationResults rankedTeams st',
    main exhibitions random groups st
    = Ok ((groupResults, groupRankings, eliminationResults, rankedTeams), st')
    /\ draws st' = (draws st + 18 * length groups + 24)%nat
    /\ (forall g teams, obj_get groups g = Some teams ->
          exists played standings,
            obj_get groupResults g = Some played
            /\ length played = 6%nat
            /\ obj_get groupRankings g = Some standings
            /\ Permutation teams (map entry standings))
    /\ length rankedTeams = 8%nat
    /\ Forall (advances exhibitions) rankedTeams
    /\ map pairing (quarterfinals eliminationResults)
       = [(mjoin (rankedTeams !! 0%nat), mjoin (rankedTeams !! 7%nat));
          (mjoin (rankedTeams !! 2%nat), mjoin (rankedTeams !! 5%nat));
          (mjoin (rankedTeams !! 4%nat), mjoin (rankedTeams !! 3%nat));
          (mjoin (rankedTeams !! 6%nat), mjoin (rankedTeams !! 1%nat))]
    /\ length (semifinals eliminationResults) = 2%nat
    /\ length (finals eliminationResults) = 1%nat
    /\ length (bronze eliminationResults) = 1%nat.
Proof. apply main_cases. Qed.

(** The three sample groups: 26 matches, 78 values of [Math.random()]. *)
Lemma main_returns_witness :
  exists out st',
    main sampleExhibitions sampleRandom sampleGroups sampleState = Ok (out, st')
    /\ draws st' = 78%nat.
Proof.
  destruct (main_returns sampleExhibitions sampleRandom sampleGroups sampleState)
    as (a & b & c & d & st' & E & D & _).
  - repeat (constructor; [simpl; auto|]). constructor.
  - intros g teams Hg. split.
    + revert Hg. unfold sampleGroups. cbn [obj_get].
      destruct (String.eqb "A" g);
        [|destruct (String.eqb "B" g); [|destruct (String.eqb "C" g); [|discriminate]]];
        intros [= <-]; simpl; lia.
    + apply Forall_forall. intros t Ht. apply list_elem_of_In in Ht.
      apply (sampleGroups_have_histories g teams t Hg Ht).
  - exists (a, b, c, d), st'. split; [exact E | exact D].
Defined.

(** ** The seeded form table *)

(** What holds before a loop and is kept by every iteration that returns
    holds when the loop returns. *)
Lemma foldM_invariant {A B : Type} (P : B -> Prop) (body : B -> A -> result B)
  (arr : list A) :
  (forall a b b', In a arr -> P b -> body b a = Ok b' -> P b') ->
  forall b b', P b -> foldM body arr b = Ok b' -> P b'.
Proof.
  induction arr as [|a arr IH]; intros Hbody b b' Hb H; simpl in H.
  - injection H as <-. exact Hb.
  - destruct (body b a) as [b1|] eqn:E; [|discriminate H]. simpl in H.
    apply (IH (fun a' b0 b0' Hin => Hbody a' b0 b0' (or_intror Hin)) b1 b'); [|exact H].
    apply (Hbody a b b1 (or_introl eq_refl) Hb E).
Qed.

Lemma expectedPointDiff_finite (Math_pow : number -> number -> number)
  (rankHome rankAway score1 score2 : Q) :
  powDefined Math_pow ->
  isFinite (expectedPointDiff Math_pow (Num rankHome) (Num rankAway)
              (Num score1) (Num score2)) = true.
Proof.
  intros Hpow. unfold expectedPointDiff. cbv zeta.
  change (Num rankHome - Num rankAway)%js with (Num (rankHome - rankAway)).
  change (Math_abs (Num (rankHome - rankAway))) with (Num (Qabs (rankHome - rankAway))).
  change (Num (Qabs (rankHome - rankAway)) / Num 30)%js
    with (Num (Qabs (rankHome - rankAway) / 30)).
  assert (Hpos : 0 <= Qabs (rankHome - rankAway) / 30).
  { apply Qle_shift_div_l; [reflexivity|]. rewrite Qmult_0_l. apply Qabs_nonneg. }
  specialize (Hpow _ Hpos).
  destruct (Math_pow (Num (Qabs (rankHome - rankAway) / 30)) (Num (3 # 2))) as [p|];
    [|discriminate Hpow].
  destruct (Num (Qabs (rankHome - rankAway)) >? Num 10)%js;
    destruct (Num rankHome <? Num rankAway)%js; reflexivity.
Qed.

Lemma addForm_seeded (cs : list string) (i : nat) (pointDiff : number)
  (teamRankings : list TeamRanking) :
  isFinite pointDiff = true ->
  seeded cs teamRankings -> seeded cs (addForm i pointDiff teamRankings).
Proof.
  intros Hp [Hcs Hall]. split; [rewrite addForm_codes; exact Hcs|].
  unfold addForm. apply Forall_alter; [exact Hall|].
  intros t _ [Hf Hr]. split; [|exact Hr]. cbn [form].
  destruct (form t); [|discriminate Hf]. destruct pointDiff; [reflexivity|discriminate Hp].
Qed.

Lemma seedMatch_seeded (Math_pow : number -> number -> number) (cs : list string)
  (rankHome : number) (home : nat) (teamRankings teamRankings' : list TeamRanking)
  (m : ExhibitionMatch) (s : Z * Z) :
  powDefined Math_pow ->
  readsAs m s ->
  isFinite rankHome = true ->
  seeded cs teamRankings ->
  seedMatch Math_pow rankHome home teamRankings m = Ok teamRankings' ->
  seeded cs teamRankings'.
Proof.
  intros Hpow Hm Hhome Hinv. unfold seedMatch.
  destruct (findIndex (hasCode (Opponent m)) teamRankings) as [away|]; [|discriminate].
  cbn [bindR defined].
  destruct (teamRankings !! away) as [awayTeam|] eqn:Eaway; [|discriminate].
  cbn [bindR defined]. intros [= <-].
  assert (Haway : isFinite (FIBARanking (ranked awayTeam)) = true).
  { destruct Hinv as [_ Hall]. rewrite Forall_forall in Hall.
    apply (Hall awayTeam (list_elem_of_lookup_2 _ _ _ Eaway)). }
  unfold readsAs in Hm. rewrite Hm. cbn [lookup list_lookup ToNumber].
  destruct rankHome as [rh|]; [|discriminate Hhome].
  destruct (FIBARanking (ranked awayTeam)) as [ra|]; [|discriminate Haway].
  pose proof (expectedPointDiff_finite Math_pow rh ra (inject_Z (fst s))
                (inject_Z (snd s)) Hpow) as Hdiff.
  destruct (Num rh <? Num ra)%js; apply addForm_seeded; assumption.
Qed.

Lemma seedTeam_seeded (Math_pow : number -> number -> number)
  (exhibitions : object (list ExhibitionMatch)) (cs : list string)
  (teamRankings teamRankings' : list TeamRanking) (team : string) :
  powDefined Math_pow ->
  parses exhibitions ->
  seeded cs teamRankings ->
  seedTeam Math_pow exhibitions teamRankings team = Ok teamRankings' ->
  seeded cs teamRankings'.
Proof.
  intros Hpow Hparse Hinv. unfold seedTeam.
  destruct (findIndex (hasCode team) teamRankings) as [home|]; [|discriminate].
  cbn [bindR defined].
  destruct (teamRankings !! home) as [homeTeam|] eqn:Ehome; [|discriminate].
  cbn [bindR defined].
  destruct (obj_get exhibitions team) as [matches|] eqn:Eget; [|discriminate].
  cbn [bindR defined].
  assert (Hhome : isFinite (FIBARanking (ranked homeTeam)) = true).
  { destruct Hinv as [_ Hall]. rewrite Forall_forall in Hall.
    apply (Hall homeTeam (list_elem_of_lookup_2 _ _ _ Ehome)). }
  apply (foldM_invariant (seeded cs)); [|exact Hinv].
  intros m b b' Hin Hb E. destruct (Hparse team matches m Eget Hin) as [s Hs].
  apply (seedMatch_seeded Math_pow cs _ home b b' m s Hpow Hs Hhome Hb E).
Qed.

Lemma initial_teamRankings_list (groups : object (list TeamRecord)) :
  fold_left
    (fun acc groupTeams =>
       acc ++ map (fun groupTeam => {| ranked := groupTeam; form := Num 0 |}) groupTeams)
    (map snd groups) []
  = map (fun groupTeam => {| ranked := groupTeam; form := Num 0 |})
      (concat (map snd groups)).
Proof.
  assert (H : forall (gs : list (list TeamRecord)) (acc : list TeamRanking),
             fold_left
               (fun acc groupTeams =>
                  acc ++ map (fun groupTeam => {| ranked := groupTeam; form := Num 0 |})
                    groupTeams) gs acc
             = acc ++ map (fun groupTeam => {| ranked := groupTeam; form := Num 0 |})
                        (concat gs)).
  { induction gs as [|g gs IH]; intros acc; simpl.
    - rewrite app_nil_r. reflexivity.
    - rewrite IH, map_app, app_assoc. reflexivity. }
  apply (H (map snd groups) []).
Qed.

(** The table built from the team objects: its keys are their codes, and
    its values are forms of theirs. *)
Lemma form_table (teamRankings : list TeamRanking) :
  forall (acc : gmap string number) (code : string),
    let table :=
      fold_left (fun acc (team : TeamRanking) => <[ISOCode team := form team]> acc)
        teamRankings acc in
    (is_Some (table !! code) <-> In code (codes teamRankings) \/ is_Some (acc !! code))
    /\ (forall v, table !! code = Some v ->
          (exists t, In t teamRankings /\ form t = v) \/ acc !! code = Some v).
Proof.
  induction teamRankings as [|t ts IH]; intros acc code; cbn [fold_left codes map].
  - split; [|auto]. split; [auto|]. intros [[]|H]. exact H.
  - destruct (IH (<[ISOCode t := form t]> acc) code) as [Hkeys Hvals]. cbv zeta in *.
    split.
    + rewrite Hkeys. fold (codes ts). rewrite lookup_insert_is_Some.
      destruct (decide (ISOCode (ranked t) = code)) as [E|E]; simpl; tauto.
    + intros v Hv. destruct (Hvals v Hv) as [(t' & Hin & Hf)|Hacc].
      * left. exists t'. split; [right; exact Hin | exact Hf].
      * destruct (decide (ISOCode (ranked t) = code)) as [E|E].
        -- rewrite E, lookup_insert_eq in Hacc. injection Hacc as <-.
           left. exists t. split; [left|]; reflexivity.
        -- rewrite lookup_insert_ne in Hacc by exact E. right. exact Hacc.
Qed.

Lemma getInitialForms_codes (Math_pow : number -> number -> number)
  (groups : object (list TeamRecord)) (exhibitions : object (list ExhibitionMatch))
  (teamRankings : list TeamRanking) :
  foldM (seedTeam Math_pow exhibitions) (map fst exhibitions)
    (map (fun groupTeam => {| ranked := groupTeam; form := Num 0 |})
       (concat (map snd groups)))
  = Ok teamRankings ->
  codes teamRankings = groupCodes groups.
Proof.
  intros E.
  refine (foldM_invariant (fun s => codes s = groupCodes groups) _ _ _ _ _ _ E).
  - intros team b b' _ Hb Eb.
    destruct (seedTeam_either Math_pow exhibitions b team) as [(b1 & E1 & H1)|E1];
      rewrite E1 in Eb; [|discriminate Eb].
    injection Eb as <-. congruence.
  - unfold codes, groupCodes. rewrite map_map. reflexivity.
Qed.

(** The seeded forms are numbers on data that parses. *)
Lemma getInitialForms_finite (Math_pow : number -> number -> number)
  (groups : object (list TeamRecord)) (exhibitions : object (list ExhibitionMatch))
  (teamForm : gmap string number) :
  powDefined Math_pow ->
  parses exhibitions ->
  Forall finiteRank (concat (map snd groups)) ->
  getInitialForms Math_pow groups exhibitions = Ok teamForm ->
  finiteForms (groupCodes groups) teamForm.
Proof.
  intros Hpow Hparse Hranks.
  unfold getInitialForms. cbv zeta. rewrite initial_teamRankings_list.
  destruct (foldM (seedTeam Math_pow exhibitions) (map fst exhibitions) _)
    as [teamRankings|] eqn:E; [|discriminate].
  cbn [bindR]. intros [= <-].
  pose proof (getInitialForms_codes Math_pow groups exhibitions teamRankings E) as Hcodes.
  assert (Hinv : seeded (groupCodes groups) teamRankings).
  { refine (foldM_invariant (seeded (groupCodes groups)) _ _ _ _ _ _ E).
    - intros team b b' _ Hb Eb.
      apply (seedTeam_seeded Math_pow exhibitions _ b b' team Hpow Hparse Hb Eb).
    - split; [unfold codes, groupCodes; rewrite map_map; reflexivity|].
      apply Forall_map. apply (Forall_impl _ _ _ Hranks). intros t Ht.
      split; [reflexivity | exact Ht]. }
  intros c Hc. destruct (form_table teamRankings ∅ c) as [Hkeys Hvals].
  cbv zeta in Hkeys, Hvals.
  destruct (proj2 Hkeys) as [v Hv]; [left; rewrite Hcodes; exact Hc|].
  destruct (Hvals v Hv) as [(t & Hin & Hf)|Hacc];
    [|rewrite lookup_empty in Hacc; discriminate Hacc].
  destruct Hinv as [_ Hall]. rewrite Forall_forall in Hall.
  destruct (Hall t (proj2 (list_elem_of_In _ _) Hin)) as [Hfin _].
  rewrite Hf in Hfin. destruct v as [q|]; [|discriminate Hfin].
  exists q. exact Hv.
Qed.

(** X13.  When [getInitialForms] returns, the keys of the form table are
    the ISO codes of the teams of the groups, no more and no fewer; the
    forms are all numbers, none [NaN], when every score string of the
    exhibition data reads as two integers, every team has a number as its
    rank, and [Math.pow(x, 1.5)] is a number for [x >= 0]. *)
Theorem getInitialForms_table (Math_pow : number -> number -> number)
  (groups : object (list TeamRecord)) (exhibitions : object (list ExhibitionMatch))
  (teamForm : gmap string number) :
  getInitialForms Math_pow groups exhibitions = Ok teamForm ->
  (forall code, is_Some (teamForm !! code) <-> In code (groupCodes groups))
  /\ (powDefined Math_pow ->
      parses exhibitions ->
      Forall finiteRank (concat (map snd groups)) ->
      finiteForms (groupCodes groups) teamForm).
Proof.
  intros H. split.
  - revert H. unfold getInitialForms. cbv zeta. rewrite initial_teamRankings_list.
    destruct (foldM (seedTeam Math_pow exhibitions) (map fst exhibitions) _)
      as [teamRankings|] eqn:E; [|discriminate].
    cbn [bindR]. intros [= <-].
    pose proof (getInitialForms_codes Math_pow groups exhibitions teamRankings E)
      as Hcodes.
    intros code. destruct (form_table teamRankings ∅ code) as [Hkeys _].
    cbv zeta in Hkeys. rewrite Hkeys, Hcodes, lookup_empty.
    split; [intros [H|[x Hx]]; [exact H | discriminate Hx] | auto].
  - intros Hpow Hparse Hranks.
    apply (getInitialForms_finite Math_pow groups exhibitions teamForm Hpow Hparse
             Hranks H).
Qed.

(** The sample data: Serbia has a form, Argentina has none. *)
Lemma getInitialForms_table_witness :
  is_Some (sampleForms !! "SRB"%string) /\ ~ is_Some (sampleForms !! "ARG"%string).
Proof.
  assert (Hkeys : forall code,
            is_Some (sampleForms !! code) <-> In code (groupCodes sampleGroups)).
  { refine (proj1 (getInitialForms_table powThreeHalves sampleGroups sampleExhibitions
                     sampleForms _)).
    vm_compute. reflexivity. }
  split.
  - apply Hkeys. simpl. auto 20.
  - intros H. apply Hkeys in H. simpl in H.
    repeat (destruct H as [H|H]; [discriminate H|]). destruct H.
Defined.

(** ** No [NaN] on data that parses *)

Lemma bind_inv {A B : Type} (c : M A) (k : A -> M B) (st st' : State) (b : B) :
  bind c k st = Ok (b, st') ->
  exists a st1, c st = Ok (a, st1) /\ k a st1 = Ok (b, st').
Proof.
  unfold bind. destruct (c st) as [[a st1]|]; [|discriminate].
  intros H. exists a, st1. split; [reflexivity | exact H].
Qed.

Lemma liftR_inv {A : Type} (r : result A) (st st' : State) (a : A) :
  liftR r st = Ok (a, st') -> r = Ok a /\ st' = st.
Proof. destruct r; [|discriminate]. intros [= <- <-]. split; reflexivity. Qed.

(** What holds before a loop and is kept by every iteration that returns
    holds when the loop returns. *)
Lemma forM_invariant {A B : Type} (Inv : B -> State -> Prop) (body : B -> A -> M B)
  (arr : list A) :
  (forall a b st b' st', In a arr -> Inv b st -> body b a st = Ok (b', st') -> Inv b' st') ->
  forall b st b' st', Inv b st -> forM body arr b st = Ok (b', st') -> Inv b' st'.
Proof.
  induction arr as [|a arr IH]; intros Hbody b st b' st' Hb H; cbn [forM] in H.
  - injection H as <- <-. exact Hb.
  - apply bind_inv in H. destruct H as (b1 & st1 & E & H).
    apply (IH (fun a' b0 s0 b0' s0' Hin => Hbody a' b0 s0 b0' s0' (or_intror Hin))
             b1 st1 b' st'); [|exact H].
    apply (Hbody a b st b1 st1 (or_introl eq_refl) Hb E).
Qed.

Lemma getTotalPointsForTeam_finite (exhibitions : object (list ExhibitionMatch))
  (team : string) (total : number) :
  parses exhibitions ->
  getTotalPointsForTeam exhibitions team = Ok total ->
  isFinite total = true.
Proof.
  intros Hparse. unfold getTotalPointsForTeam.
  destruct (obj_get exhibitions team) as [matches|] eqn:Eget; [|discriminate].
  cbn [bindR defined].
  apply (foldM_invariant (fun x => isFinite x = true)); [|reflexivity].
  intros m acc acc' Hin Hacc.
  destruct (Hparse team matches m Eget Hin) as [s Hs]. unfold readsAs in Hs.
  rewrite Hs. destruct acc as [q|]; [|discriminate Hacc].
  intros [= <-]. reflexivity.
Qed.

Lemma getBaseScore_finite (exhibitions : object (list ExhibitionMatch))
  (team1 team2 : string) (base : number) :
  parses exhibitions ->
  getBaseScore exhibitions team1 team2 = Ok base ->
  isFinite base = true.
Proof.
  intros Hparse. unfold getBaseScore.
  destruct (getTotalPointsForTeam exhibitions team1) as [t1|] eqn:E1; [|discriminate].
  destruct (getTotalPointsForTeam exhibitions team2) as [t2|] eqn:E2; [|discriminate].
  pose proof (getTotalPointsForTeam_finite _ _ _ Hparse E1) as H1.
  pose proof (getTotalPointsForTeam_finite _ _ _ Hparse E2) as H2.
  destruct t1, t2; try discriminate. intros [= <-]. reflexivity.
Qed.

(** One assignment of [updateTeamForm] keeps the forms numbers. *)
Lemma finiteForms_update (cs : list string) (teamForm : gmap string number)
  (code : string) (diff : number) :
  finiteForms cs teamForm ->
  In code cs ->
  isFinite diff = true ->
  finiteForms cs
    (<[code := (ToNumber (teamForm !! code) * (Num 1 - Num (7 # 100))
                + diff * Num (7 # 100))%js]> teamForm).
Proof.
  intros Hforms Hcode Hdiff c Hc.
  destruct (decide (code = c)) as [<-|Hne].
  - rewrite lookup_insert_eq. destruct (Hforms code Hcode) as [q ->].
    destruct diff as [d|]; [|discriminate Hdiff]. eexists. reflexivity.
  - rewrite lookup_insert_ne by exact Hne. apply Hforms. exact Hc.
Qed.

Lemma simulateMatch_integers (exhibitions : object (list ExhibitionMatch))
  (random : nat -> Q) (cs : list string) (a b : TeamRecord) (st st' : State)
  (r : MatchScore) :
  parses exhibitions ->
  rankedIn cs a -> rankedIn cs b ->
  finiteForms cs (teamForm st) ->
  simulateMatch exhibitions random (Some a) (Some b) st = Ok (r, st') ->
  integerScores r /\ finiteForms cs (teamForm st').
Proof.
  intros Hparse [Ha Hca] [Hb Hcb] Hforms H.
  pose proof (simulateMatch_updates_form _ _ _ _ _ _ _ H) as [Hform _].
  assert (Hint : integerScores r).
  { revert H.
    unfold simulateMatch, unroundedScores, bind, liftR, readForm, Math_random,
      modifyForm, ret. cbn [defined].
    destruct (getBaseScore exhibitions (ISOCode a) (ISOCode b)) as [base|] eqn:Eb;
      [|discriminate].
    pose proof (getBaseScore_finite _ _ _ _ Hparse Eb) as Hbase.
    destruct base as [base|]; [|discriminate Hbase].
    destruct (Hforms _ Hca) as [fa Efa]. destruct (Hforms _ Hcb) as [fb Efb].
    rewrite Efa, Efb. unfold finiteRank in Ha, Hb.
    destruct (FIBARanking a) as [ra|]; [|discriminate Ha].
    destruct (FIBARanking b) as [rb|]; [|discriminate Hb].
    intros [= <- _]. split; eexists; reflexivity. }
  split; [exact Hint|]. rewrite Hform.
  destruct Hint as [[z1 E1] [z2 E2]]. rewrite E1, E2.
  unfold updateTeamForm. cbv zeta.
  apply finiteForms_update; [|exact Hcb|reflexivity].
  apply finiteForms_update; [exact Hforms|exact Hca|reflexivity].
Qed.

(** *** The group stage *)

Lemma playMatch_integers (exhibitions : object (list ExhibitionMatch)) (random : nat -> Q)
  (cs : list string) (group : string) (results results' : object (list GroupMatch))
  (match_ : option TeamRecord * option TeamRecord) (st st' : State) :
  parses exhibitions ->
  (forall t, fst match_ = Some t \/ snd match_ = Some t -> rankedIn cs t) ->
  finiteForms cs (teamForm st) /\ integerResults results ->
  playMatch exhibitions random group results match_ st = Ok (results', st') ->
  finiteForms cs (teamForm st') /\ integerResults results'.
Proof.
  intros Hparse Hteams [Hforms Hres] H.
  destruct match_ as [[a|] [b|]]; cbn [fst snd] in *;
    try (unfold playMatch in H; apply bind_inv in H;
         destruct H as (r & st1 & E & _); discriminate E).
  destruct (simulateMatch exhibitions random (Some a) (Some b) st) as [[r st1]|] eqn:E.
  2:{ unfold playMatch in H. cbn [fst snd] in H.
      rewrite (bind_Throw _ _ _ _ E) in H. discriminate H. }
  destruct (simulateMatch_integers exhibitions random cs a b st st1 r Hparse) as [Hr Hforms1];
    [apply Hteams; left; reflexivity | apply Hteams; right; reflexivity | exact Hforms
     | exact E |].
  destruct (obj_get results group) as [played|] eqn:Eg.
  - rewrite (playMatch_Ok exhibitions random group results a b played r st st1 E Eg) in H.
    injection H as <- <-. split; [exact Hforms1|].
    intros g ms m Hg Hm. destruct (string_dec group g) as [<-|Hne].
    + rewrite obj_get_set_eq in Hg. injection Hg as <-.
      apply in_app_or in Hm. destruct Hm as [Hm|[<-|[]]].
      * apply (Hres group played m Eg Hm).
      * exact Hr.
    + rewrite obj_get_set_ne in Hg by exact Hne. apply (Hres g ms m Hg Hm).
  - unfold playMatch in H. cbn [fst snd] in H. rewrite (bind_Ok _ _ _ _ _ E) in H.
    unfold bind, liftR in H. cbn [defined] in H. rewrite Eg in H. discriminate H.
Qed.

Lemma roundRobinGroup_integers (exhibitions : object (list ExhibitionMatch))
  (random : nat -> Q) (cs : list string) (groups : object (list TeamRecord))
  (results results' : object (list GroupMatch)) (g : string) (st st' : State) :
  parses exhibitions ->
  (forall teams t, obj_get groups g = Some teams -> In t teams -> rankedIn cs t) ->
  finiteForms cs (teamForm st) /\ integerResults results ->
  roundRobinGroup exhibitions random groups results g st = Ok (results', st') ->
  finiteForms cs (teamForm st') /\ integerResults results'.
Proof.
  intros Hparse Hteams [Hforms Hres]. unfold roundRobinGroup. cbv zeta.
  intros H. apply bind_inv in H. destruct H as (teams & st0 & E & H).
  apply liftR_inv in E. destruct E as [E ->].
  destruct (obj_get groups g) as [teams'|] eqn:Eg; [|discriminate E].
  injection E as ->.
  assert (Hat : forall (i : nat) (t : TeamRecord), teams !! i = Some t -> rankedIn cs t).
  { intros i t Hi. apply (Hteams teams t eq_refl).
    apply list_elem_of_In. apply (list_elem_of_lookup_2 _ _ _ Hi). }
  revert H.
  apply (forM_invariant
           (fun results st => finiteForms cs (teamForm st) /\ integerResults results)).
  - intros round b s0 b' s0' Hround Hb.
    apply (forM_invariant
             (fun results st => finiteForms cs (teamForm st) /\ integerResults results));
      [|exact Hb].
    intros m b1 s1 b1' s1' Hm Hb1.
    apply (playMatch_integers exhibitions random cs g b1 b1' m s1 s1' Hparse); [|exact Hb1].
    intros t Ht. simpl in Hround.
    destruct Hround as [<-|[<-|[<-|[]]]]; simpl in Hm;
      destruct Hm as [<-|[<-|[]]]; cbn [fst snd] in Ht;
      destruct Ht as [Ht|Ht]; apply (Hat _ _ Ht).
  - split; [exact Hforms|]. intros g' ms m Hg Hm.
    destruct (string_dec g g') as [<-|Hne].
    + rewrite obj_get_set_eq in Hg. injection Hg as <-. destruct Hm.
    + rewrite obj_get_set_ne in Hg by exact Hne. apply (Hres g' ms m Hg Hm).
Qed.

Lemma obj_get_value {A : Type} (o : object A) (k : string) (v : A) :
  obj_get o k = Some v -> In v (map snd o).
Proof.
  induction o as [|[k0 v0] o IH]; simpl; [discriminate|].
  destruct (String.eqb k0 k); [intros [= <-]; left; reflexivity|].
  intros H. right. apply IH. exact H.
Qed.

Lemma group_team_ranked (groups : object (list TeamRecord)) (g : string)
  (teams : list TeamRecord) (t : TeamRecord) :
  Forall finiteRank (concat (map snd groups)) ->
  obj_get groups g = Some teams ->
  In t teams ->
  rankedIn (groupCodes groups) t.
Proof.
  intros Hranks Hg Ht.
  assert (Hin : In t (concat (map snd groups))).
  { apply in_concat. exists teams. split; [apply (obj_get_value _ _ _ Hg) | exact Ht]. }
  split.
  - rewrite Forall_forall in Hranks. apply Hranks. apply list_elem_of_In. exact Hin.
  - unfold groupCodes. apply in_map. exact Hin.
Qed.

Lemma createRoundRobin_integers (exhibitions : object (list ExhibitionMatch))
  (random : nat -> Q) (groups : object (list TeamRecord))
  (results : object (list GroupMatch)) (st st' : State) :
  parses exhibitions ->
  Forall finiteRank (concat (map snd groups)) ->
  finiteForms (groupCodes groups) (teamForm st) ->
  createRoundRobin exhibitions random groups st = Ok (results, st') ->
  finiteForms (groupCodes groups) (teamForm st') /\ integerResults results.
Proof.
  intros Hparse Hranks Hforms. unfold createRoundRobin.
  apply (forM_invariant
           (fun results st =>
              finiteForms (groupCodes groups) (teamForm st) /\ integerResults results)).
  - intros g b s0 b' s0' _ Hb.
    apply (roundRobinGroup_integers exhibitions random _ groups b b' g s0 s0' Hparse);
      [|exact Hb].
    intros teams t Hg Ht. apply (group_team_ranked groups g teams t Hranks Hg Ht).
  - split; [exact Hforms|]. intros g ms m Hg. discriminate Hg.
Qed.

(** *** The elimination stage *)

Lemma played_integers (exhibitions : object (list ExhibitionMatch)) (random : nat -> Q)
  (cs : list string) (w1 w2 : option Standing) (st st' : State) (r : MatchScore) :
  parses exhibitions ->
  placeIn cs w1 -> placeIn cs w2 ->
  finiteForms cs (teamForm st) ->
  simulateMatch exhibitions random (teamOf w1) (teamOf w2) st = Ok (r, st') ->
  integerScores r /\ finiteForms cs (teamForm st').
Proof.
  intros Hparse H1 H2 Hforms H.
  destruct w2 as [y|]; [|discriminate H]. destruct w1 as [x|]; [|discriminate H].
  apply (simulateMatch_integers exhibitions random cs x y st st' r Hparse
           (H1 x eq_refl) (H2 y eq_refl) Hforms H).
Qed.

Lemma placeIn_lookup (cs : list string) (places : list (option Standing)) (i : nat) :
  Forall (placeIn cs) places -> placeIn cs (mjoin (places !! i)).
Proof.
  intros Hall x Hx. destruct (places !! i) as [w|] eqn:E; [|discriminate Hx].
  simpl in Hx. subst w. rewrite Forall_forall in Hall.
  apply (Hall (Some x) (list_elem_of_lookup_2 _ _ _ E) x eq_refl).
Qed.

Lemma placeIn_if (cs : list string) (b : bool) (w1 w2 : option Standing) :
  placeIn cs w1 -> placeIn cs w2 -> placeIn cs (if b then w1 else w2).
Proof. destruct b; auto. Qed.

Lemma getEliminationResults_integers (exhibitions : object (list ExhibitionMatch))
  (random : nat -> Q) (cs : list string)
  (qf : list (option Standing * option Standing)) (st st' : State)
  (res : EliminationResults) :
  parses exhibitions ->
  Forall (fun m => placeIn cs (fst m) /\ placeIn cs (snd m)) qf ->
  finiteForms cs (teamForm st) ->
  getEliminationResults exhibitions random qf st = Ok (res, st') ->
  Forall (fun m => integerScores (outcome m))
    (quarterfinals res ++ semifinals res ++ finals res ++ bronze res)
  /\ finiteForms cs (teamForm st').
Proof.
  intros Hparse Hqf Hforms H. unfold getEliminationResults in H.
  apply bind_inv in H. destruct H as ([p s] & st1 & E1 & H).
  assert (H1 : finiteForms cs (teamForm st1)
               /\ Forall (fun m => integerScores (outcome m)) p
               /\ Forall (placeIn cs) s).
  { refine (forM_invariant
             (fun (b : list EliminationMatch * list (option Standing)) st =>
                finiteForms cs (teamForm st)
                /\ Forall (fun m => integerScores (outcome m)) (fst b)
                /\ Forall (placeIn cs) (snd b))
             _ qf _ ([], []) st (p, s) st1 _ E1).
    - intros m [p0 s0] s1 [p1 s1'] s2 Hm (Hf0 & Hp0 & Hs0) E. cbn [fst snd] in *.
      apply bind_inv in E. destruct E as (r & s3 & Er & E). injection E as <- <- <-.
      rewrite Forall_forall in Hqf.
      destruct (Hqf m (proj2 (list_elem_of_In _ _) Hm)) as [Hm1 Hm2].
      destruct (played_integers exhibitions random cs _ _ _ _ _ Hparse Hm1 Hm2 Hf0 Er)
        as [Hr Hf1].
      split; [exact Hf1|]. split.
      + apply Forall_app. split; [exact Hp0|]. constructor; [exact Hr | constructor].
      + apply Forall_app. split; [exact Hs0|]. constructor; [|constructor].
        apply placeIn_if; assumption.
    - cbn [fst snd]. split; [exact Hforms|]. split; constructor. }
  destruct H1 as (Hf1 & Hp & Hs). cbv beta iota in H.
  apply bind_inv in H. destruct H as ([[ps f] b] & st2 & E2 & H).
  assert (H2 : finiteForms cs (teamForm st2)
               /\ Forall (fun m => integerScores (outcome m)) ps
               /\ Forall (placeIn cs) f /\ Forall (placeIn cs) b).
  { refine (forM_invariant
             (fun (b : list EliminationMatch * list (option Standing)
                       * list (option Standing)) st =>
                finiteForms cs (teamForm st)
                /\ Forall (fun m => integerScores (outcome m)) (fst (fst b))
                /\ Forall (placeIn cs) (snd (fst b))
                /\ Forall (placeIn cs) (snd b))
             _ (seq 0 2) _ ([], [], []) st1 (ps, f, b) st2 _ E2).
    - intros i [[p0 f0] b0] s1 [[p1 f1] b1] s2 _ (Hf0 & Hp0 & Hfin0 & Hb0) E.
      cbn [fst snd] in *. cbv zeta in E.
      apply bind_inv in E. destruct E as (r & s3 & Er & E). injection E as <- <- <- <-.
      pose proof (placeIn_lookup cs s (i * 2) Hs) as Hw1.
      pose proof (placeIn_lookup cs s (i * 2 + 1) Hs) as Hw2.
      destruct (played_integers exhibitions random cs _ _ _ _ _ Hparse Hw1 Hw2 Hf0 Er)
        as [Hr Hf1'].
      split; [exact Hf1'|]. split; [|split].
      + apply Forall_app. split; [exact Hp0|]. constructor; [exact Hr | constructor].
      + apply Forall_app. split; [exact Hfin0|]. constructor; [|constructor].
        apply placeIn_if; assumption.
      + apply Forall_app. split; [exact Hb0|]. constructor; [|constructor].
        apply placeIn_if; assumption.
    - cbn [fst snd]. split; [exact Hf1|]. repeat split; constructor. }
  destruct H2 as (Hf2 & Hps & Hfin & Hb). cbv beta iota in H.
  apply bind_inv in H. destruct H as (fr & st3 & E3 & H).
  apply bind_inv in H. destruct H as (br & st4 & E4 & H).
  injection H as <- <-.
  destruct (played_integers exhibitions random cs _ _ _ _ _ Hparse
              (placeIn_lookup cs f 0 Hfin) (placeIn_lookup cs f 1 Hfin) Hf2 E3)
    as [Hfr Hf3].
  destruct (played_integers exhibitions random cs _ _ _ _ _ Hparse
              (placeIn_lookup cs b 0 Hb) (placeIn_lookup cs b 1 Hb) Hf3 E4)
    as [Hbr Hf4].
  split; [|exact Hf4]. cbn [quarterfinals semifinals finals bronze].
  rewrite !Forall_app. repeat split; try assumption;
    (constructor; [assumption | constructor]).
Qed.

(** *** The whole tournament *)

Lemma rankTeams_entries (groups : object (list TeamRecord))
  (results : object (list GroupMatch)) (rankings : object (list Standing))
  (g : string) (standings : list Standing) :
  rankTeams groups results = Ok rankings ->
  obj_get rankings g = Some standings ->
  exists teams, obj_get groups g = Some teams /\ Permutation teams (map entry standings).
Proof.
  intros H Hg. unfold rankTeams in H.
  destruct (rankTeams_loop_cases groups results (map fst groups)
              (obj_get_of_key groups) [])
    as [(Hok & rankings' & E & Hnew & Hold)|[_ E]]; rewrite E in H; [|discriminate H].
  injection H as ->.
  destruct (in_dec string_dec g (map fst groups)) as [Hin|Hout].
  - destruct (Hok g Hin) as (teams & played & Hteams & Hplayed & _).
    destruct (Hnew g teams played Hin Hteams Hplayed) as (standings' & Hs & Hfrom).
    rewrite Hg in Hs. injection Hs as <-.
    exists teams. split; [exact Hteams | apply (rankedFrom_teams _ _ _ Hfrom)].
  - rewrite (Hold g Hout) in Hg. discriminate Hg.
Qed.

Lemma readsAs_literal (m : ExhibitionMatch) :
  match map Number (split "-" (Result m)) with
  | [Num (Qmake a 1); Num (Qmake b 1)] => True
  | _ => False
  end ->
  exists s, readsAs m s.
Proof.
  unfold readsAs.
  destruct (map Number (split "-" (Result m))) as [|[[a [| |]]|] [|[[b [| |]]|] [|]]];
    try contradiction.
  intros _. exists (a, b). reflexivity.
Qed.

(** The scores of a run of [main] on data that parses. *)
Lemma main_integers (exhibitions : object (list ExhibitionMatch))
  (random : nat -> Q) (groups : object (list TeamRecord)) (st st' : State)
  (groupResults : object (list GroupMatch)) (groupRankings : object (list Standing))
  (eliminationResults : EliminationResults) (rankedTeams : list (option Standing)) :
  parses exhibitions ->
  Forall finiteRank (concat (map snd groups)) ->
  finiteForms (groupCodes groups) (teamForm st) ->
  main exhibitions random groups st
  = Ok ((groupResults, groupRankings, eliminationResults, rankedTeams), st') ->
  integerResults groupResults
  /\ Forall (fun m => integerScores (outcome m))
       (quarterfinals eliminationResults ++ semifinals eliminationResults
        ++ finals eliminationResults ++ bronze eliminationResults)
  /\ finiteForms (groupCodes groups) (teamForm st').
Proof.
  intros Hparse Hranks Hforms H. unfold main in H.
  apply bind_inv in H. destruct H as (gr & st1 & E1 & H).
  apply bind_inv in H. destruct H as (rk & s2 & E2 & H).
  apply liftR_inv in E2. destruct E2 as [E2 ->].
  apply bind_inv in H. destruct H as (tp & s3 & E3 & H).
  apply liftR_inv in E3. destruct E3 as [E3 ->].
  apply bind_inv in H. destruct H as (qf & s4 & E4 & H).
  apply liftR_inv in E4. destruct E4 as [E4 ->].
  apply bind_inv in H. destruct H as (el & st2 & E5 & H).
  injection H as <- <- <- <- <-.
  destruct (createRoundRobin_integers exhibitions random groups gr st st1
              Hparse Hranks Hforms E1) as [Hforms1 Hgr].
  split; [exact Hgr|].
  (* the seeded places hold teams of the groups *)
  assert (Hplace : forall g standings x,
            obj_get rk g = Some standings -> topThree standings x ->
            rankedIn (groupCodes groups) x).
  { intros g standings x Hg (i & _ & Hi).
    destruct (rankTeams_entries groups gr rk g standings E2 Hg) as (teams & Hteams & Hperm).
    apply (group_team_ranked groups g teams (entry x) Hranks Hteams).
    apply (Permutation_in _ (Permutation_sym Hperm)). apply in_map.
    apply list_elem_of_In. apply (list_elem_of_lookup_2 _ _ _ Hi). }
  destruct (getTopEightTeams_cases rk)
    as [(A & B & C & top & HA & HB & HC & E & Hlen & Hin)|[_ E]];
    rewrite E in E3; [|discriminate E3].
  injection E3 as ->.
  assert (Htop : Forall (placeIn (groupCodes groups)) tp).
  { apply Forall_forall. intros w Hw x ->. apply list_elem_of_In in Hw.
    destruct (Hin x Hw) as [Hx|[Hx|Hx]];
      [apply (Hplace _ A x HA Hx) | apply (Hplace _ B x HB Hx)
       | apply (Hplace _ C x HC Hx)]. }
  rewrite getEliminationMatches_pairs in E4 by (rewrite Hlen; apply le_n).
  injection E4 as <-.
  refine (getEliminationResults_integers exhibitions random (groupCodes groups) _ st1 st2
            el Hparse _ Hforms1 E5).
  repeat (constructor; [split; apply placeIn_lookup; exact Htop|]). constructor.
Qed.

(** X14.  On exhibition data whose score strings all read as two
    integers, with a number as the rank of every team and a form table
    that has a number for every team, no [NaN] reaches the results: when
    [main] returns, the scores of every group match and of every match of
    the elimination stage are integers, and the forms are still numbers. *)
Theorem main_integer_scores (exhibitions : object (list ExhibitionMatch))
  (random : nat -> Q) (groups : object (list TeamRecord)) (st st' : State)
  (groupResults : object (list GroupMatch)) (groupRankings : object (list Standing))
  (eliminationResults : EliminationResults) (rankedTeams : list (option Standing)) :
  parses exhibitions ->
  Forall finiteRank (concat (map snd groups)) ->
  finiteForms (groupCodes groups) (teamForm st) ->
  main exhibitions random groups st
  = Ok ((groupResults, groupRankings, eliminationResults, rankedTeams), st') ->
  integerResults groupResults
  /\ Forall (fun m => integerScores (outcome m))
       (quarterfinals eliminationResults ++ semifinals eliminationResults
        ++ finals eliminationResults ++ bronze eliminationResults)
  /\ finiteForms (groupCodes groups) (teamForm st').
Proof. apply main_integers. Qed.

(** The sample tournament. *)
Lemma main_integer_scores_witness :
  match main sampleExhibitions sampleRandom sampleGroups sampleState with
  | Ok (groupResults, _, eliminationResults, _, _) =>
      integerResults groupResults
      /\ Forall (fun m => integerScores (outcome m))
           (quarterfinals eliminationResults ++ semifinals eliminationResults
            ++ finals eliminationResults ++ bronze eliminationResults)
  | Throw _ => False
  end.
Proof.
  destruct (main sampleExhibitions sampleRandom sampleGroups sampleState)
    as [[[[[gr rk] el] tp] st']|] eqn:E; [|vm_compute in E; discriminate E].
  destruct (main_integer_scores sampleExhibitions sampleRandom sampleGroups sampleState
              st' gr rk el tp) as (H1 & H2 & _); [| | |exact E|split; assumption].
  - intros team matches m. unfold sampleExhibitions. cbn [obj_get].
    repeat (destruct (String.eqb _ team);
            [intros [= <-] Hm; simpl in Hm;
             repeat (destruct Hm as [<-|Hm];
                     [apply readsAs_literal; vm_compute; exact I|]);
             destruct Hm|]).
    discriminate.
  - repeat (constructor; [reflexivity|]). constructor.
  - intros c Hc. simpl in Hc.
    repeat (destruct Hc as [<-|Hc]; [eexists; reflexivity|]). destruct Hc.
Defined.

(** ** Who goes on *)

Lemma NoDup_four {A : Type} (a b c d : A) :
  NoDup [a; b; c; d]
  <-> a <> b /\ a <> c /\ a <> d /\ b <> c /\ b <> d /\ c <> d.
Proof.
  rewrite !NoDup_cons, !not_elem_of_cons, NoDup_nil.
  pose proof (not_elem_of_nil a). pose proof (not_elem_of_nil b).
  pose proof (not_elem_of_nil c). pose proof (not_elem_of_nil d). tauto.
Qed.

(** One team of each of four pairings of eight different teams: four
    different teams. *)
Lemma NoDup_winners {A : Type} (c0 c1 c2 c3 : bool) (a0 b0 a1 b1 a2 b2 a3 b3 : A) :
  NoDup [a0; b0; a1; b1; a2; b2; a3; b3] ->
  NoDup [if c0 then a0 else b0; if c1 then a1 else b1;
         if c2 then a2 else b2; if c3 then a3 else b3].
Proof.
  intros Hnd. apply (sublist_NoDup _ _ Hnd).
  destruct c0, c1, c2, c3;
    repeat first [ apply sublist_nil_l | apply sublist_skip | apply sublist_cons ].
Qed.

Lemma getEliminationResults_structure (exhibitions : object (list ExhibitionMatch))
  (random : nat -> Q) (qf : list (option Standing * option Standing)) (st st' : State)
  (res : EliminationResults) :
  getEliminationResults exhibitions random qf st = Ok (res, st') ->
  exists q0 q1 q2 q3 rest h0 h1 f b,
    quarterfinals res = q0 :: q1 :: q2 :: q3 :: rest
    /\ map pairing (quarterfinals res) = qf
    /\ semifinals res = [h0; h1]
    /\ finals res = [f]
    /\ bronze res = [b]
    /\ pairing h0 = (advancing q0, advancing q1)
    /\ pairing h1 = (advancing q2, advancing q3)
    /\ pairing f = (advancing h0, advancing h1)
    /\ pairing b = (eliminated h0, eliminated h1).
Proof.
  intros H.
  assert (Hqf : map pairing (quarterfinals res) = qf /\ (4 <= length qf)%nat).
  { destruct (getEliminationResults_cases exhibitions random qf st)
      as [(Hlen & _ & res0 & st0 & E & Hmap & _)|[_ E]]; rewrite E in H;
      [|discriminate H].
    injection H as <- <-. split; assumption. }
  destruct Hqf as [Hmap Hlen].
  unfold getEliminationResults in H.
  apply bind_inv in H. destruct H as ([p s] & st1 & E1 & H).
  assert (Hs : s = map advancing p).
  { refine (forM_invariant
              (fun (b : list EliminationMatch * list (option Standing)) (_ : State) =>
                 snd b = map advancing (fst b))
              _ qf _ ([], []) st (p, s) st1 _ E1).
    - intros m [p0 s0] s1 [p1 s1'] s2 _ Hb E. cbn [fst snd] in *.
      apply bind_inv in E. destruct E as (r & s3 & _ & E). injection E as <- <- <-.
      rewrite map_app, Hb. reflexivity.
    - reflexivity. }
  cbv beta iota in H.
  apply bind_inv in H. destruct H as ([[ps f] b] & st2 & E2 & H).
  cbv beta iota in H.
  apply bind_inv in H. destruct H as (fr & st3 & _ & H).
  apply bind_inv in H. destruct H as (br & st4 & _ & H).
  injection H as <- <-. cbn [quarterfinals semifinals finals bronze] in *.
  rewrite <- Hmap, length_map in Hlen.
  destruct p as [|q0 [|q1 [|q2 [|q3 rest]]]]; simpl in Hlen; try lia.
  subst s. cbn [seq forM] in E2.
  apply bind_inv in E2. destruct E2 as ([[ps1 f1] b1] & s1 & Ea & E2).
  apply bind_inv in E2. destruct E2 as ([[ps2 f2] b2] & s2 & Eb & E2).
  injection E2 as <- <- <- <-.
  cbv zeta in Ea, Eb.
  apply bind_inv in Ea. destruct Ea as (ra & sa & _ & Ea). injection Ea as <- <- <- <-.
  apply bind_inv in Eb. destruct Eb as (rb & sb & _ & Eb). injection Eb as <- <- <- <-.
  eexists q0, q1, q2, q3, rest, _, _, _, _.
  split; [reflexivity|]. split; [exact Hmap|].
  split; [reflexivity|]. split; [reflexivity|]. split; [reflexivity|].
  repeat split.
Qed.

Lemma winner_In {A : Type} (r : MatchScore) (x y : A) (l : list A) :
  In x l -> In y l -> In (winner r x y) l /\ In (loser r x y) l.
Proof. unfold winner, loser. destruct (firstWins r); auto. Qed.

(** The four teams that leave the semifinals are four different teams of
    the quarterfinals, when these are between eight different teams. *)
Lemma semifinals_distinct (q0 q1 q2 q3 h0 h1 f b : EliminationMatch) :
  pairing h0 = (advancing q0, advancing q1) ->
  pairing h1 = (advancing q2, advancing q3) ->
  pairing f = (advancing h0, advancing h1) ->
  pairing b = (eliminated h0, eliminated h1) ->
  NoDup (places (map pairing [q0; q1; q2; q3])) ->
  NoDup [advancing f; eliminated f; advancing b; eliminated b]
  /\ Forall (fun w => In w (places (map pairing [q0; q1; q2; q3])))
       [advancing f; eliminated f; advancing b; eliminated b].
Proof.
  intros Ph0 Ph1 Pf Pb Hnd. cbn [map places concat app] in *.
  set (l := [fst (pairing q0); snd (pairing q0); fst (pairing q1); snd (pairing q1);
             fst (pairing q2); snd (pairing q2); fst (pairing q3); snd (pairing q3)]) in *.
  split.
  - pose proof (NoDup_winners (firstWins (outcome q0)) (firstWins (outcome q1))
                  (firstWins (outcome q2)) (firstWins (outcome q3)) _ _ _ _ _ _ _ _ Hnd)
      as Hw.
    fold (winner (outcome q0) (fst (pairing q0)) (snd (pairing q0))) in Hw.
    fold (winner (outcome q1) (fst (pairing q1)) (snd (pairing q1))) in Hw.
    fold (winner (outcome q2) (fst (pairing q2)) (snd (pairing q2))) in Hw.
    fold (winner (outcome q3) (fst (pairing q3)) (snd (pairing q3))) in Hw.
    fold (advancing q0) (advancing q1) (advancing q2) (advancing q3) in Hw.
    unfold advancing at 1 2, eliminated at 1 2. rewrite Pf, Pb. cbn [fst snd].
    unfold advancing at 1 2 3 4, eliminated at 1 2 3 4. rewrite Ph0, Ph1. cbn [fst snd].
    apply NoDup_four in Hw. apply NoDup_four. unfold winner, loser.
    destruct (firstWins (outcome h0)), (firstWins (outcome h1)),
      (firstWins (outcome f)), (firstWins (outcome b)); intuition congruence.
  - assert (W0 : In (advancing q0) l) by (apply winner_In; subst l; simpl; auto).
    assert (W1 : In (advancing q1) l) by (apply winner_In; subst l; simpl; auto).
    assert (W2 : In (advancing q2) l) by (apply winner_In; subst l; simpl; auto 10).
    assert (W3 : In (advancing q3) l) by (apply winner_In; subst l; simpl; auto 10).
    assert (F0 : In (advancing h0) l /\ In (eliminated h0) l).
    { unfold advancing, eliminated. rewrite Ph0. cbn [fst snd].
      apply winner_In; assumption. }
    assert (F1 : In (advancing h1) l /\ In (eliminated h1) l).
    { unfold advancing, eliminated. rewrite Ph1. cbn [fst snd].
      apply winner_In; assumption. }
    destruct F0 as [F0 G0]. destruct F1 as [F1 G1].
    assert (M : (In (advancing f) l /\ In (eliminated f) l)
                /\ In (advancing b) l /\ In (eliminated b) l).
    { unfold advancing at 1, eliminated at 1, advancing at 1, eliminated at 1.
      rewrite Pf, Pb. cbn [fst snd]. split; apply winner_In; assumption. }
    destruct M as [[M1 M2] [M3 M4]].
    repeat (constructor; [assumption|]). constructor.
Qed.

(** X15.  Whenever [getEliminationResults] returns, the first semifinal
    is between the teams that went on from the first two quarterfinals,
    the second between those of the third and the fourth, the final is
    between the teams that went on from the semifinals and the match for
    bronze between the two that did not; a fifth pairing is played but
    its winner goes nowhere.  When the first four pairings are of eight
    different teams, the first four places of the tournament go to four
    different teams. *)
Theorem getEliminationResults_advances (exhibitions : object (list ExhibitionMatch))
  (random : nat -> Q) (qf : list (option Standing * option Standing)) (st st' : State)
  (res : EliminationResults) :
  getEliminationResults exhibitions random qf st = Ok (res, st') ->
  exists q0 q1 q2 q3 rest h0 h1 f b,
    quarterfinals res = q0 :: q1 :: q2 :: q3 :: rest
    /\ map pairing (quarterfinals res) = qf
    /\ semifinals res = [h0; h1]
    /\ finals res = [f]
    /\ bronze res = [b]
    /\ pairing h0 = (advancing q0, advancing q1)
    /\ pairing h1 = (advancing q2, advancing q3)
    /\ pairing f = (advancing h0, advancing h1)
    /\ pairing b = (eliminated h0, eliminated h1)
    /\ (NoDup (places (take 4 qf)) ->
        NoDup [advancing f; eliminated f; advancing b; eliminated b]).
Proof.
  intros H.
  destruct (getEliminationResults_structure exhibitions random qf st st' res H)
    as (q0 & q1 & q2 & q3 & rest & h0 & h1 & f & b
        & Hq & Hmap & Hs & Hf & Hb & Ph0 & Ph1 & Pf & Pb).
  exists q0, q1, q2, q3, rest, h0, h1, f, b.
  repeat (split; [assumption|]).
  intros Hnd. rewrite <- Hmap, Hq in Hnd. cbn [map take] in Hnd.
  apply (semifinals_distinct q0 q1 q2 q3 h0 h1 f b Ph0 Ph1 Pf Pb Hnd).
Qed.

(** The bracket of the sample standings. *)
Lemma getEliminationResults_advances_witness :
  match
    getEliminationResults sampleExhibitions sampleRandom
      [ (Some (mkStanding "Sjedinjene Drzave" "USA" 1 6 317 216 3 0),
         Some (mkStanding "Spanija" "ESP" 2 2 261 272 1 2));
        (Some (mkStanding "Australija" "AUS" 5 6 267 246 3 0),
         Some (mkStanding "Nemacka" "GER" 3 4 268 258 2 1));
        (Some (mkStanding "Kanada" "CAN" 7 4 258 247 2 1),
         Some (mkStanding "Srbija" "SRB" 4 4 294 259 2 1));
        (Some (mkStanding "Brazil" "BRA" 12 2 260 249 1 2),
         Some (mkStanding "Francuska" "FRA" 9 6 265 239 3 0)) ]
      sampleState
  with
  | Ok (res, _) => length (semifinals res) = 2%nat /\ length (finals res) = 1%nat
  | Throw _ => False
  end.
Proof.
  match goal with
  | |- match ?c with _ => _ end =>
      destruct c as [[res st']|] eqn:E; [|vm_compute in E; discriminate E]
  end.
  destruct (getEliminationResults_advances _ _ _ _ _ _ E)
    as (q0 & q1 & q2 & q3 & rest & h0 & h1 & f & b & _ & _ & -> & -> & _).
  split; reflexivity.
Defined.

(** ** The script on well-formed data *)

(** X16.  On well-formed data the script runs to its end: when every
    team the exhibition data refers to is in a group, every score string
    reads as two integers, the groups include A, B and C, each group has
    at least four teams, every team has an exhibition history and a
    number as its rank, and [Math.pow(x, 1.5)] is a number for [x >= 0],
    then neither the seeding of the forms nor [main] throws, the scores
    of all matches are integers, the forms end as numbers, and
    [Math.random()] was called three times for each of the six matches
    of a group and of the eight matches of the elimination stage. *)
Theorem run_completes (Math_pow : number -> number -> number)
  (groups : object (list TeamRecord)) (exhibitions : object (list ExhibitionMatch))
  (random : nat -> Q) :
  powDefined Math_pow ->
  parses exhibitions ->
  (forall code, referenced exhibitions code -> In code (groupCodes groups)) ->
  Forall (fun g : string => In g (map fst groups)) ["A"; "B"; "C"]%string ->
  (forall g teams, obj_get groups g = Some teams ->
     (4 <= length teams)%nat /\ Forall (hasHistory exhibitions) teams) ->
  Forall finiteRank (concat (map snd groups)) ->
  exists groupResults groupRankings eliminationResults rankedTeams st',
    run Math_pow groups exhibitions random
    = Ok (groupResults, groupRankings, eliminationResults, rankedTeams, st')
    /\ draws st' = (18 * length groups + 24)%nat
    /\ integerResults groupResults
    /\ Forall (fun m => integerScores (outcome m))
         (quarterfinals eliminationResults ++ semifinals eliminationResults
          ++ finals eliminationResults ++ bronze eliminationResults)
    /\ finiteForms (groupCodes groups) (teamForm st').
Proof.
  intros Hpow Hparse Hrefs Hkeys Hgroups Hranks.
  destruct (getInitialForms_known Math_pow groups exhibitions Hrefs) as [form Eform].
  pose proof (getInitialForms_finite Math_pow groups exhibitions form Hpow Hparse
                Hranks Eform) as Hforms.
  destruct (main_cases exhibitions random groups {| teamForm := form; draws := 0 |}
              Hkeys Hgroups)
    as (gr & rk & el & tp & st' & E & Hdraws & _).
  destruct (main_integers exhibitions random groups {| teamForm := form; draws := 0 |}
              st' gr rk el tp Hparse Hranks Hforms E) as (Hgr & Hel & Hforms').
  exists gr, rk, el, tp, st'. unfold run. rewrite Eform. cbn [bindR].
  split; [exact E|]. split; [exact Hdraws|]. auto.
Qed.

(** The sample data: 26 matches. *)
Lemma run_completes_witness :
  exists out st',
    run powThreeHalves sampleGroups sampleExhibitions sampleRandom = Ok (out, st')
    /\ draws st' = 78%nat.
Proof.
  destruct (run_completes powThreeHalves sampleGroups sampleExhibitions sampleRandom)
    as (a & b & c & d & st' & E & D & _).
  - intros x Hx. unfold powThreeHalves.
    apply Qle_bool_iff in Hx. rewrite Hx. reflexivity.
  - intros team matches m. unfold sampleExhibitions. cbn [obj_get].
    repeat (destruct (String.eqb _ team);
            [intros [= <-] Hm; simpl in Hm;
             repeat (destruct Hm as [<-|Hm];
                     [apply readsAs_literal; vm_compute; exact I|]);
             destruct Hm|]).
    discriminate.
  - intros code (team & matches & Hkey & Hget & Href). simpl in Hkey.
    repeat (destruct Hkey as [<-|Hkey];
            [vm_compute in Hget; injection Hget as <-;
             destruct Href as [->|(m & Hm & <-)];
             [simpl; auto 20
             |simpl in Hm; repeat (destruct Hm as [<-|Hm]; [simpl; auto 20|]);
              destruct Hm]|]).
    destruct Hkey.
  - repeat (constructor; [simpl; auto|]). constructor.
  - intros g teams Hg. split.
    + revert Hg. unfold sampleGroups. cbn [obj_get].
      destruct (String.eqb "A" g);
        [|destruct (String.eqb "B" g); [|destruct (String.eqb "C" g); [|discriminate]]];
        intros [= <-]; simpl; lia.
    + apply Forall_forall. intros t Ht. apply list_elem_of_In in Ht.
      apply (sampleGroups_have_histories g teams t Hg Ht).
  - repeat (constructor; [reflexivity|]). constructor.
  - exists (a, b, c, d), st'. split; [exact E | exact D].
Defined.

(** ** Different teams at the top *)

(** The seeded teams are different teams when the teams of the three
    groups are. *)
Lemma getTopEightTeams_distinct (rankings : object (list Standing))
  (A B C : list Standing) (top : list (option Standing)) :
  obj_get rankings "A" = Some A ->
  obj_get rankings "B" = Some B ->
  obj_get rankings "C" = Some C ->
  (3 <= length A)%nat -> (3 <= length B)%nat -> (3 <= length C)%nat ->
  NoDup (A ++ B ++ C) ->
  getTopEightTeams rankings = Ok top ->
  NoDup top.
Proof.
  intros HA HB HC LA LB LC Hnd. unfold getTopEightTeams. cbv zeta.
  rewrite HA, HB, HC. cbn [bindR defined]. intros [= <-].
  destruct A as [|a0 [|a1 [|a2 ra]]]; simpl in LA; try lia.
  destruct B as [|b0 [|b1 [|b2 rb]]]; simpl in LB; try lia.
  destruct C as [|c0 [|c1 [|c2 rc]]]; simpl in LC; try lia.
  cbn [lookup list_lookup].
  assert (Hnine : NoDup [a0; a1; a2; b0; b1; b2; c0; c1; c2]).
  { apply (sublist_NoDup _ _ Hnd).
    change ([a0; a1; a2] ++ [b0; b1; b2] ++ [c0; c1; c2]
            `sublist_of` (a0 :: a1 :: a2 :: ra) ++ (b0 :: b1 :: b2 :: rb)
                         ++ (c0 :: c1 :: c2 :: rc)).
    apply sublist_app; [|apply sublist_app];
      repeat first [ apply sublist_nil_l | apply sublist_skip ]. }
  apply (NoDup_fmap_2 Some) in Hnine. cbn [fmap list_fmap] in Hnine.
  eapply sublist_NoDup; [|apply sublist_take].
  refine (proj1 (NoDup_Permutation_proper _ _ _) Hnine).
  rewrite <- (sortValues_perm byPointsThenDifference [Some a0; Some b0; Some c0]).
  rewrite <- (sortValues_perm byPointsThenDifference [Some a1; Some b1; Some c1]).
  rewrite <- (sortValues_perm byPointsThenDifference [Some a2; Some b2; Some c2]).
  cbn [app]. solve_Permutation.
Qed.

Lemma fourPlay_length (exhibitions : object (list ExhibitionMatch))
  (groups : object (list TeamRecord)) (g : string) (teams : list TeamRecord) :
  fourPlay exhibitions groups g ->
  obj_get groups g = Some teams ->
  (4 <= length teams)%nat.
Proof.
  intros (teams' & Hg & Hall) Hget. rewrite Hget in Hg. injection Hg as <-.
  rewrite Forall_forall in Hall.
  destruct (Hall 3%nat) as (x & Hx & _); [repeat constructor|].
  apply lookup_lt_Some in Hx. lia.
Qed.

(** X17.  When the teams of the groups A, B and C are all different
    teams and [main] returns, the eight seeded teams are eight different
    teams, and the winner and the loser of the final and of the match for
    bronze are four different teams among them: no team takes two of the
    first four places. *)
Theorem main_podium (exhibitions : object (list ExhibitionMatch)) (random : nat -> Q)
  (groups : object (list TeamRecord)) (st st' : State)
  (groupResults : object (list GroupMatch)) (groupRankings : object (list Standing))
  (eliminationResults : EliminationResults) (rankedTeams : list (option Standing))
  (teamsA teamsB teamsC : list TeamRecord) :
  obj_get groups "A" = Some teamsA ->
  obj_get groups "B" = Some teamsB ->
  obj_get groups "C" = Some teamsC ->
  NoDup (teamsA ++ teamsB ++ teamsC) ->
  main exhibitions random groups st
  = Ok ((groupResults, groupRankings, eliminationResults, rankedTeams), st') ->
  NoDup rankedTeams
  /\ length (firstFour eliminationResults) = 4%nat
  /\ NoDup (firstFour eliminationResults)
  /\ Forall (fun w => In w rankedTeams) (firstFour eliminationResults).
Proof.
  intros GA GB GC Hnd H. unfold main in H.
  apply bind_inv in H. destruct H as (gr & st1 & E1 & H).
  apply bind_inv in H. destruct H as (rk & s2 & E2 & H).
  apply liftR_inv in E2. destruct E2 as [E2 ->].
  apply bind_inv in H. destruct H as (tp & s3 & E3 & H).
  apply liftR_inv in E3. destruct E3 as [E3 ->].
  apply bind_inv in H. destruct H as (qf & s4 & E4 & H).
  apply liftR_inv in E4. destruct E4 as [E4 ->].
  apply bind_inv in H. destruct H as (el & st2 & E5 & H).
  injection H as <- <- <- <- <-.
  (* every group has four teams at least *)
  assert (Hfour : Forall (fourPlay exhibitions groups) (map fst groups)).
  { destruct (createRoundRobin_cases exhibitions random groups st)
      as [(Hall & _)|[_ E]]; [exact Hall|]. rewrite E in E1. discriminate E1. }
  rewrite Forall_forall in Hfour.
  assert (Hlen : forall g teams, obj_get groups g = Some teams -> (4 <= length teams)%nat).
  { intros g teams Hg. apply (fourPlay_length exhibitions groups g teams); [|exact Hg].
    apply Hfour. apply list_elem_of_In. apply (obj_get_key _ _ _ Hg). }
  (* the standings of A, B and C *)
  destruct (getTopEightTeams_cases rk)
    as [(A & B & C & top & HA & HB & HC & E & Htop & _)|[_ E]];
    rewrite E in E3; [|discriminate E3].
  injection E3 as ->.
  destruct (rankTeams_entries groups gr rk _ A E2 HA) as (tA & GA' & PA).
  destruct (rankTeams_entries groups gr rk _ B E2 HB) as (tB & GB' & PB).
  destruct (rankTeams_entries groups gr rk _ C E2 HC) as (tC & GC' & PC).
  rewrite GA in GA'. injection GA' as <-.
  rewrite GB in GB'. injection GB' as <-.
  rewrite GC in GC'. injection GC' as <-.
  pose proof (Hlen _ _ GA) as LA. pose proof (Hlen _ _ GB) as LB.
  pose proof (Hlen _ _ GC) as LC.
  rewrite (Permutation_length PA), length_map in LA.
  rewrite (Permutation_length PB), length_map in LB.
  rewrite (Permutation_length PC), length_map in LC.
  assert (Hstand : NoDup (A ++ B ++ C)).
  { apply (NoDup_fmap_1 entry). rewrite !fmap_app.
    refine (proj1 (NoDup_Permutation_proper _ _ _) Hnd).
    apply Permutation_app; [exact PA | apply Permutation_app; [exact PB | exact PC]]. }
  assert (Hseeded : NoDup tp).
  { apply (getTopEightTeams_distinct rk A B C tp HA HB HC); try lia; assumption. }
  split; [exact Hseeded|].
  (* the bracket *)
  rewrite getEliminationMatches_pairs in E4 by (rewrite Htop; apply le_n).
  injection E4 as <-.
  destruct tp as [|p0 [|p1 [|p2 [|p3 [|p4 [|p5 [|p6 [|p7 [|p8 tp]]]]]]]]];
    try discriminate Htop.
  cbn [lookup list_lookup mjoin option_join option_bind mbind option_ret] in E5.
  destruct (getEliminationResults_structure exhibitions random _ st1 st2 el E5)
    as (q0 & q1 & q2 & q3 & rest & h0 & h1 & f & b
        & Hq & Hmap & Hs & Hf & Hb & Ph0 & Ph1 & Pf & Pb).
  rewrite Hq in Hmap. cbn [map] in Hmap.
  injection Hmap as Q0 Q1 Q2 Q3 _.
  assert (Hplaces : places (map pairing [q0; q1; q2; q3])
                    = [p0; p7; p2; p5; p4; p3; p6; p1]).
  { cbn [map places concat app]. rewrite Q0, Q1, Q2, Q3. reflexivity. }
  destruct (semifinals_distinct q0 q1 q2 q3 h0 h1 f b Ph0 Ph1 Pf Pb) as [Hdist Hamong].
  { rewrite Hplaces. refine (proj1 (NoDup_Permutation_proper _ _ _) Hseeded).
    solve_Permutation. }
  unfold firstFour. rewrite Hf, Hb. cbn [app map concat].
  split; [reflexivity|]. split; [exact Hdist|].
  rewrite Hplaces in Hamong. apply (Forall_impl _ _ _ Hamong).
  intros w Hw. simpl in Hw. simpl. tauto.
Qed.

(** The sample tournament. *)
Lemma main_podium_witness :
  match main sampleExhibitions sampleRandom sampleGroups sampleState with
  | Ok (_, _, eliminationResults, rankedTeams, _) =>
      NoDup rankedTeams /\ NoDup (firstFour eliminationResults)
  | Throw _ => False
  end.
Proof.
  destruct (main sampleExhibitions sampleRandom sampleGroups sampleState)
    as [[[[[gr rk] el] tp] st']|] eqn:E; [|vm_compute in E; discriminate E].
  destruct (main_podium sampleExhibitions sampleRandom sampleGroups sampleState st'
              gr rk el tp _ _ _ eq_refl eq_refl eq_refl) as (H1 & _ & H2 & _);
    [|exact E|split; assumption].
  apply NoDup_ListNoDup. simpl.
  repeat (constructor; [simpl; intuition discriminate|]). constructor.
Defined.
